(** * Agentic assistant: memory store, tool executor, planner and agent loop

    A shallow embedding of [memory.py], [executor.py], [planner.py],
    [tools.py] (the registry dispatch) and [agent.py], with the properties
    of the decision-execute-record loop and of its three collaborators.

    Python values are dynamically typed: a message, a ledger record or an
    oracle decision is a [dict] whose values may be anything.  The
    embedding therefore works over one type [PyVal] of Python values and a
    result type [Outcome] that separates a returned value from a raised
    [Exception]. *)

From Stdlib Require Import ZArith QArith_base String Ascii List Lia Bool.
From Stdlib Require Import DecimalString DecimalFacts DecimalPos DecimalZ.
From stdpp Require Import base option list strings gmap.

Set Warnings "-register-all".

Open Scope string_scope.
Open Scope list_scope.
Open Scope Z_scope.

(* ================================================================== *)
(** ** Python values, exceptions, indexing and slicing                  *)
(* ================================================================== *)

Module Py.

(** The values that flow through the program: [None], booleans,
    integers, floats (carried as their IEEE-754 bit pattern, no float
    arithmetic happens in the program), strings, lists and dicts with
    string keys.  A dict is an association list in insertion order with
    at most one binding per key; lookup takes the first binding. *)
Inductive PyVal : Type :=
| PNone
| PBool (b : bool)
| PInt (z : Z)
| PFloat (bits : Z)
| PStr (s : string)
| PList (l : list PyVal)
| PDict (kvs : list (string * PyVal)).

(** Python exceptions (instances of [Exception]): a class name and a
    message, or tenacity's [RetryError], which wraps the exception of the
    last attempt. *)
Inductive Exn : Type :=
| PyExn (cls msg : string)
| RetryError (last : Exn).

(** [str(e)] for an exception raised by a tool. *)
Definition exn_str (e : Exn) : string :=
  match e with
  | PyExn _ msg => msg
  | RetryError _ => "RetryError"
  end.

Inductive Outcome (A : Type) : Type :=
| Ok (a : A)
| Raise (e : Exn).
Arguments Ok {A} a.
Arguments Raise {A} e.

Definition bind {A B} (m : Outcome A) (k : A -> Outcome B) : Outcome B :=
  match m with
  | Ok a => k a
  | Raise e => Raise e
  end.

Definition raised {A} (m : Outcome A) : bool :=
  match m with Ok _ => false | Raise _ => true end.

Definition KeyError (k : string) : Exn := PyExn "KeyError" k.
Definition TypeError (msg : string) : Exn := PyExn "TypeError" msg.
Definition IndexError : Exn := PyExn "IndexError" "list index out of range".

(** [d.get(k)] on the bindings of a dict. *)
Fixpoint dict_get (k : string) (kvs : list (string * PyVal)) : option PyVal :=
  match kvs with
  | [] => None
  | (k', v) :: rest => if String.eqb k k' then Some v else dict_get k rest
  end.

(** [v[k]] with a string key: [KeyError] when a dict lacks the key,
    [TypeError] when [v] is not a dict (a list, a string, a number and
    [None] all reject a string subscript). *)
Definition subscript (v : PyVal) (k : string) : Outcome PyVal :=
  match v with
  | PDict kvs =>
      match dict_get k kvs with
      | Some x => Ok x
      | None => Raise (KeyError k)
      end
  | _ => Raise (TypeError "string subscript on a value that is not a dict")
  end.

(** [v == s] for a string literal [s]. *)
Definition eq_str (v : PyVal) (s : string) : bool :=
  match v with
  | PStr s' => String.eqb s' s
  | _ => false
  end.

(** [hash(v)] succeeds: lists and dicts are unhashable. *)
Definition hashable (v : PyVal) : bool :=
  match v with
  | PList _ | PDict _ => false
  | _ => true
  end.

(** [l[start:]] for any integer [start]: a negative start counts from
    the end and is clamped at the front, a start past the end gives the
    empty list.  Note that [-0] is [0], so [l[-0:]] is all of [l]. *)
Definition slice_from {A} (start : Z) (l : list A) : list A :=
  let n := Z.of_nat (length l) in
  if start <? 0 then drop (Z.to_nat (Z.max (n + start) 0)) l
  else drop (Z.to_nat (Z.min start n)) l.

(** The position that [l[i]] denotes in a list of length [len], for any
    integer [i]: a negative index counts from the end; [None] stands for
    [IndexError]. *)
Definition norm_index (i : Z) (len : nat) : option nat :=
  let n := Z.of_nat len in
  if (0 <=? i) && (i <? n) then Some (Z.to_nat i)
  else if (i <? 0) && (- n <=? i) then Some (Z.to_nat (n + i))
  else None.

(** What the program takes from the Python runtime and its standard
    library: the [json] codec ([None] from [json_loads] stands for
    [JSONDecodeError]; [json_dumps] is called with [indent=2]), [str()] of
    the values whose rendering goes through [repr] (floats, lists, dicts)
    and the iteration order of a [set], which Python leaves unspecified. *)
Class Runtime : Type := {
  json_loads : string -> option PyVal;
  json_dumps : PyVal -> string;
  str_via_repr : PyVal -> string;
  list_of_set : list PyVal -> list PyVal
}.

(** [str(v)], as an f-string placeholder renders it. *)
Definition py_str `{Runtime} (v : PyVal) : string :=
  match v with
  | PNone => "None"
  | PBool true => "True"
  | PBool false => "False"
  | PInt z => NilZero.string_of_int (Z.to_int z)
  | PStr s => s
  | PFloat _ | PList _ | PDict _ => str_via_repr v
  end.

(** The line feed that ["\n"] denotes. *)
Definition nl : string := String (ascii_of_nat 10) EmptyString.

(** [s.lower()] on the ASCII letters; every other character is kept.
    (Python also lowers the cased characters outside ASCII.) *)
Definition lower_char (c : ascii) : ascii :=
  let n := nat_of_ascii c in
  if ((65 <=? n) && (n <=? 90))%nat then ascii_of_nat (n + 32) else c.

Fixpoint lower (s : string) : string :=
  match s with
  | EmptyString => EmptyString
  | String c rest => String (lower_char c) (lower rest)
  end.

(** [sub in s] for two strings: [sub] occurs in [s] as a substring. *)
Fixpoint str_in (sub s : string) : bool :=
  String.prefix sub s
  || match s with
     | EmptyString => false
     | String _ rest => str_in sub rest
     end.

(** [s.upper()] on the ASCII letters; every other character is kept.
    (Python also raises the cased characters outside ASCII.) *)
Definition upper_char (c : ascii) : ascii :=
  let n := nat_of_ascii c in
  if ((97 <=? n) && (n <=? 122))%nat then ascii_of_nat (n - 32) else c.

Fixpoint upper (s : string) : string :=
  match s with
  | EmptyString => EmptyString
  | String c rest => String (upper_char c) (upper rest)
  end.

(** [bool(v)], the truth value that [if v] tests: [None], [False], zero,
    the empty string and the empty containers are false.  A float is zero
    when all its bits but the sign are. *)
Definition truthy (v : PyVal) : bool :=
  match v with
  | PNone => false
  | PBool b => b
  | PInt z => negb (z =? 0)
  | PFloat bits => negb (bits mod 2 ^ 63 =? 0)
  | PStr s => negb (String.eqb s EmptyString)
  | PList l => match l with [] => false | _ => true end
  | PDict kvs => match kvs with [] => false | _ => true end
  end.

(** How a dict compares two hashable keys when one of them is a float
    (hash, identity and [==] together decide it; a NaN is found only by
    identity). *)
Class DictKeys : Type := {
  float_key_eqb : PyVal -> PyVal -> bool
}.

(** Two hashable keys address the same dict entry: strings by their
    text, [None] with itself, booleans and integers by their value
    ([True] is 1), floats as the runtime has it. *)
Definition key_eqb `{DictKeys} (a b : PyVal) : bool :=
  match a, b with
  | PFloat _, _ | _, PFloat _ => float_key_eqb a b
  | PStr x, PStr y => String.eqb x y
  | PNone, PNone => true
  | PBool x, PBool y => Bool.eqb x y
  | PInt x, PInt y => x =? y
  | PBool x, PInt y | PInt y, PBool x => (if x then 1 else 0) =? y
  | _, _ => false
  end.

(** A dict of counters, in insertion order: [counts.get(key, 0)]. *)
Fixpoint counts_get `{DictKeys} (key : PyVal) (counts : list (PyVal * Z)) : Z :=
  match counts with
  | [] => 0
  | (k, n) :: rest => if key_eqb key k then n else counts_get key rest
  end.

(** [counts[key] = n]: an entry that exists keeps its place and its key,
    a new one goes to the end. *)
Fixpoint counts_set `{DictKeys} (key : PyVal) (n : Z) (counts : list (PyVal * Z))
  : list (PyVal * Z) :=
  match counts with
  | [] => [(key, n)]
  | (k, m) :: rest =>
      if key_eqb key k then (k, n) :: rest else (k, m) :: counts_set key n rest
  end.

(** [counts[key] = counts.get(key, 0) + 1]; hashing an unhashable key
    raises [TypeError]. *)
Definition count_one `{DictKeys} (key : PyVal) (counts : list (PyVal * Z))
  : Outcome (list (PyVal * Z)) :=
  if hashable key then Ok (counts_set key (counts_get key counts + 1) counts)
  else Raise (TypeError "unhashable type").

End Py.

Import Py.

(* ================================================================== *)
(** ** memory.py: the memory store                                      *)
(* ================================================================== *)

Module Memory.

(** [Memory]: the two lists and the configured bound.  [max_history] is a
    Python [int], so any integer can be configured. *)
Record t : Type := mk {
  messages : list PyVal;
  tool_usage : list PyVal;
  max_history : Z
}.

(** [Memory(max_history)]; the default bound is 100. *)
Definition init (max_history : Z) : t := mk [] [] max_history.
Definition default : t := init 100.

(** The dict that [add_message] builds; [ts] is
    [datetime.now().isoformat()] at the time of the call. *)
Definition message (ts : string) (role content : PyVal) : PyVal :=
  PDict [("role", role); ("content", content); ("timestamp", PStr ts)].

(** [add_message(role, content)]: append, then trim with
    [self.messages[-self.max_history:]] when the list is longer than the
    bound. *)
Definition add_message (ts : string) (role content : PyVal) (m : t) : t :=
  let appended := messages m ++ [message ts role content] in
  mk (if Z.of_nat (length appended) >? max_history m
      then slice_from (- max_history m) appended
      else appended)
     (tool_usage m) (max_history m).

(** The dict that [add_tool_use] builds. *)
Definition tool_record (ts : string) (tool_name input_params result : PyVal) : PyVal :=
  PDict [("tool", tool_name); ("input", input_params); ("result", result);
         ("timestamp", PStr ts)].

(** [add_tool_use(tool_name, input_params, result)]: append, no bound. *)
Definition add_tool_use (ts : string) (tool_name input_params result : PyVal) (m : t) : t :=
  mk (messages m) (tool_usage m ++ [tool_record ts tool_name input_params result])
     (max_history m).

(** One line of the history: [f"{msg['role']}: {msg['content']}\n"]. *)
Definition history_line `{Runtime} (msg : PyVal) : Outcome string :=
  bind (subscript msg "role") (fun role =>
  bind (subscript msg "content") (fun content =>
  Ok (py_str role +:+ ": " +:+ py_str content +:+ nl))).

(** The loop [for msg in recent: history_str += ...]. *)
Fixpoint format_history `{Runtime} (recent : list PyVal) (history_str : string)
  : Outcome string :=
  match recent with
  | [] => Ok history_str
  | msg :: rest =>
      bind (history_line msg) (fun line => format_history rest (history_str +:+ line))
  end.

(** [get_recent_history(n)]:
    [recent = self.messages[-n:] if len(self.messages) > n else self.messages]. *)
Definition recent (n : Z) (m : t) : list PyVal :=
  if Z.of_nat (length (messages m)) >? n
  then slice_from (- n) (messages m)
  else messages m.

Definition get_recent_history `{Runtime} (n : Z) (m : t) : Outcome string :=
  format_history (recent n m) EmptyString.

(** [[record["tool"] for record in self.tool_usage]]. *)
Fixpoint tool_names (records : list PyVal) : Outcome (list PyVal) :=
  match records with
  | [] => Ok []
  | record :: rest =>
      bind (subscript record "tool") (fun name =>
      bind (tool_names rest) (fun names => Ok (name :: names)))
  end.

(** [get_tools_used()]: [list(set(names))]; building the set raises
    [TypeError] on an unhashable name. *)
Definition get_tools_used `{Runtime} (m : t) : Outcome (list PyVal) :=
  bind (tool_names (tool_usage m)) (fun names =>
  if forallb hashable names then Ok (list_of_set names)
  else Raise (TypeError "unhashable type")).

(** [clear()]. *)
Definition clear (m : t) : t := mk [] [] (max_history m).

(** The document that [save_to_file] hands to [json.dump]. *)
Definition document (m : t) : PyVal :=
  PDict [("messages", PList (messages m)); ("tool_usage", PList (tool_usage m))].

(** [save_to_file(filepath)] on a file system that maps paths to file
    contents: the file is created or replaced. *)
Definition save_to_file `{Runtime} (filepath : string) (m : t)
  (fs : gmap string string) : gmap string string :=
  <[filepath := json_dumps (document m)]> fs.

(** The attributes of a [Memory] object after [load_from_file]: the
    method binds [messages] and [tool_usage] to whatever the document
    holds under the two keys, a list or not. *)
Record Loaded : Type := mkLoaded {
  loaded_messages : PyVal;
  loaded_tool_usage : PyVal;
  loaded_max_history : Z
}.

(** The attributes of a store. *)
Definition attributes (m : t) : Loaded :=
  mkLoaded (PList (messages m)) (PList (tool_usage m)) (max_history m).

(** The store that the attributes make up, when both are lists. *)
Definition store_of (l : Loaded) : option t :=
  match loaded_messages l, loaded_tool_usage l with
  | PList msgs, PList uses => Some (mk msgs uses (loaded_max_history l))
  | _, _ => None
  end.

(** [data.get(key, [])]. *)
Definition get_or_empty (key : string) (kvs : list (string * PyVal)) : PyVal :=
  match dict_get key kvs with
  | Some v => v
  | None => PList []
  end.

(** [load_from_file(filepath)]: a missing file and a text that is not
    JSON raise; [data.get] needs [data] to be a dict; [max_history] is
    not touched. *)
Definition load_from_file `{Runtime} (filepath : string) (fs : gmap string string)
  (m : t) : Outcome Loaded :=
  match fs !! filepath with
  | None => Raise (PyExn "FileNotFoundError" filepath)
  | Some text =>
      match json_loads text with
      | None => Raise (PyExn "JSONDecodeError" text)
      | Some (PDict kvs) =>
          Ok (mkLoaded (get_or_empty "messages" kvs) (get_or_empty "tool_usage" kvs)
                (max_history m))
      | Some _ => Raise (PyExn "AttributeError" "object has no attribute 'get'")
      end
  end.

(** The loop of [get_tool_usage_stats]:
    [tool = record["tool"]; stats[tool] = stats.get(tool, 0) + 1]. *)
Fixpoint count_tools `{DictKeys} (records : list PyVal) (stats : list (PyVal * Z))
  : Outcome (list (PyVal * Z)) :=
  match records with
  | [] => Ok stats
  | record :: rest =>
      bind (subscript record "tool") (fun tool =>
      bind (count_one tool stats) (fun stats' => count_tools rest stats'))
  end.

(** [get_tool_usage_stats()]. *)
Definition get_tool_usage_stats `{DictKeys} (m : t) : Outcome (list (PyVal * Z)) :=
  count_tools (tool_usage m) [].

(** The dict that [get_summary] returns. *)
Record Summary : Type := mkSummary {
  total_messages : Z;
  total_tool_uses : Z;
  unique_tools_used : Z;
  tool_usage_stats : list (PyVal * Z)
}.

(** [get_summary()]: the dict display evaluates its values in order, so
    [get_tools_used] runs, and may raise, before [get_tool_usage_stats]. *)
Definition get_summary `{Runtime} `{DictKeys} (m : t) : Outcome Summary :=
  bind (get_tools_used m) (fun used =>
  bind (get_tool_usage_stats m) (fun stats =>
  Ok (mkSummary (Z.of_nat (length (messages m))) (Z.of_nat (length (tool_usage m)))
        (Z.of_nat (length used)) stats))).

End Memory.

(* ================================================================== *)
(** ** executor.py: the tool executor                                   *)
(* ================================================================== *)

Module ToolExecutor.

(** The world outside the executor: whatever state the tools read and
    change, the wall clock, and the passing of time while tenacity sleeps.
    [now w] is [datetime.now().isoformat()] in world [w]; [backoff k w] is
    the world after the sleep that [wait_exponential] prescribes once
    attempt number [k] has failed. *)
Class World (W : Type) : Type := {
  now : W -> string;
  backoff : nat -> W -> W
}.

(** A tool function: its [__name__] and what a call with [parameters] as
    keyword arguments returns or raises in a given world, with the world
    it leaves behind.
    A tool that behaves differently from call to call keeps its state in
    the world. *)
Record Tool (W : Type) : Type := mkTool {
  name : string;
  call : PyVal -> W -> Outcome PyVal * W
}.
Arguments name {W} _.
Arguments call {W} _ _ _.

(** What the executor is handed is any callable.  A function has a
    [__name__]; other callables (a [functools.partial], an instance with
    [__call__]) may have none. *)
Record Callable (W : Type) : Type := mkCallable {
  name_of : option string;
  apply_to : PyVal -> W -> Outcome PyVal * W
}.
Arguments name_of {W} _.
Arguments apply_to {W} _ _ _.

(** A tool function as a callable. *)
Definition callable {W : Type} (tool : Tool W) : Callable W :=
  mkCallable W (Some (name tool)) (call tool).
Coercion callable : Tool >-> Callable.

(** Reading [__name__] from a callable that has none. *)
Definition no_name : Exn :=
  PyExn "AttributeError" "object has no attribute '__name__'".

(** [ToolExecutor]: [max_retries] is stored by [__init__] and read by no
    method; the ledger is a list of record dicts. *)
Record t : Type := mk {
  max_retries : Z;
  execution_history : list PyVal
}.

Definition init (max_retries : Z) : t := mk max_retries [].
Definition default : t := init 3.

(** The dict that [_record_execution] builds. *)
Definition record (ts tool_name : string) (parameters result : PyVal)
  (success : bool) (error : PyVal) : PyVal :=
  PDict [("timestamp", PStr ts); ("tool", PStr tool_name);
         ("parameters", parameters); ("result", result);
         ("success", PBool success); ("error", error)].

(** [_record_execution(tool_name, parameters, result, success, error)]. *)
Definition _record_execution (ts tool_name : string) (parameters result : PyVal)
  (success : bool) (error : PyVal) (ex : t) : t :=
  mk (max_retries ex)
     (execution_history ex ++ [record ts tool_name parameters result success error]).

(** tenacity's [@retry(stop=stop_after_attempt(n), wait=...)] around a
    function [body] that works on a state [S]: call it; a returned value is
    returned; on an exception, stop when the attempt number has reached [n]
    and raise [RetryError] around the last exception ([reraise] is left at
    its default), otherwise sleep and call again.  [more] counts the
    attempts still allowed after the current one. *)
Fixpoint retry {S A : Type} (more attempt_number : nat)
  (sleep : nat -> S -> S) (body : S -> Outcome A * S) (s : S) : Outcome A * S :=
  match body s with
  | (Ok a, s') => (Ok a, s')
  | (Raise e, s') =>
      match more with
      | O => (Raise (RetryError e), s')
      | Datatypes.S k => retry k (Datatypes.S attempt_number) sleep body (sleep attempt_number s')
      end
  end.

Definition stop_after_attempt {S A : Type} (n : nat) :=
  @retry S A (n - 1)%nat 1%nat.

Section WithWorld.
Context {W : Type} `{World W}.

(** The body of [execute_with_retry], one attempt.  The [logger.info]
    line that opens it reads [tool_func.__name__] outside the [try]: a
    callable without one raises [AttributeError] there, is not called and
    leaves no record.  Otherwise: call the tool, append a record of the
    outcome, return the result or re-raise. *)
Definition attempt (tool_func : Callable W) (parameters : PyVal) (s : t * W)
  : Outcome PyVal * (t * W) :=
  let '(ex, w) := s in
  match name_of tool_func with
  | None => (Raise no_name, (ex, w))
  | Some tool_name =>
      match apply_to tool_func parameters w with
      | (Ok result, w') =>
          (Ok result,
           (_record_execution (now w') tool_name parameters result true PNone ex, w'))
      | (Raise e, w') =>
          (Raise e,
           (_record_execution (now w') tool_name parameters PNone false
              (PStr (exn_str e)) ex, w'))
      end
  end.

(** [execute_with_retry(tool_func, parameters)]: the body under
    [@retry(stop=stop_after_attempt(3), wait=wait_exponential(...))]. *)
Definition execute_with_retry (tool_func : Callable W) (parameters : PyVal)
  (ex : t) (w : W) : Outcome PyVal * (t * W) :=
  stop_after_attempt 3 (fun k '(ex, w) => (ex, backoff k w))
    (attempt tool_func parameters) (ex, w).

(** [execute_safe(tool_func, parameters, default_value)]. *)
Definition execute_safe (tool_func : Callable W) (parameters default_value : PyVal)
  (ex : t) (w : W) : Outcome PyVal * (t * W) :=
  match execute_with_retry tool_func parameters ex w with
  | (Ok result, s) => (Ok result, s)
  | (Raise _, s) => (Ok default_value, s)
  end.

End WithWorld.

(** [clear_history()]. *)
Definition clear_history (ex : t) : t := mk (max_retries ex) [].

(** The [success] field of a ledger record. *)
Definition succeeded (record : PyVal) : option bool :=
  match record with
  | PDict kvs =>
      match dict_get "success" kvs with
      | Some (PBool b) => Some b
      | _ => None
      end
  | _ => None
  end.

(** The dict that [get_execution_stats] returns.  [success_rate] is a
    Python float, the quotient rounded to binary64; the model carries the
    exact quotient. *)
Record Stats : Type := mkStats {
  total_executions : Z;
  successful : Z;
  failed : Z;
  success_rate : Q;
  tool_usage : list (PyVal * Z)
}.

(** [sum(1 for r in self.execution_history if r["success"])]. *)
Fixpoint count_successful (history : list PyVal) : Outcome Z :=
  match history with
  | [] => Ok 0
  | r :: rest =>
      bind (subscript r "success") (fun flag =>
      bind (count_successful rest) (fun n => Ok (if truthy flag then 1 + n else n)))
  end.

(** The loop over the ledger:
    [tool = record["tool"]; tool_counts[tool] = tool_counts.get(tool, 0) + 1]. *)
Fixpoint count_tools `{DictKeys} (history : list PyVal) (tool_counts : list (PyVal * Z))
  : Outcome (list (PyVal * Z)) :=
  match history with
  | [] => Ok tool_counts
  | record :: rest =>
      bind (subscript record "tool") (fun tool =>
      bind (count_one tool tool_counts) (fun counts' => count_tools rest counts'))
  end.

(** [get_execution_stats()]. *)
Definition get_execution_stats `{DictKeys} (ex : t) : Outcome Stats :=
  let total := Z.of_nat (length (execution_history ex)) in
  bind (count_successful (execution_history ex)) (fun successful =>
  let failed := total - successful in
  bind (count_tools (execution_history ex) []) (fun tool_counts =>
  Ok (mkStats total successful failed
        (if total >? 0 then Qmake successful (Z.to_pos total) else Qmake 0 1)
        tool_counts))).

End ToolExecutor.

(* ================================================================== *)
(** ** planner.py: the task planner                                     *)
(* ================================================================== *)

Module TaskPlanner.

(** A step is a dict from field names to strings.  A new step has the
    keys [action], [description] and, for a tool step, [tool]; it gets a
    [status] key only when [update_plan_status] writes one. *)
Abbreviation Step := (gmap string string).

(** A plan: [{"goal": ..., "steps": [...], "status": "pending"}]. *)
Record Plan : Type := mkPlan {
  goal : string;
  steps : list Step;
  status : string
}.

(** [TaskPlanner]: the current plan, [None] until the first [create_plan]. *)
Record t : Type := mk {
  current_plan : option Plan
}.

Definition init : t := mk None.

Definition use_tool_step (tool description : string) : Step :=
  {[ "action" := "use_tool"; "tool" := tool; "description" := description ]}.

Definition think_step : Step :=
  {[ "action" := "think";
     "description" := "Analyze the goal and determine approach" ]}.

Definition synthesize_step : Step :=
  {[ "action" := "synthesize";
     "description" := "Combine results and provide final answer" ]}.

(** [any(word in goal_lower for word in words)]. *)
Definition any_in (words : list string) (goal_lower : string) : bool :=
  existsb (fun word => str_in word goal_lower) words.

(** [_decompose_goal(goal, tools)]: the chain of [if ...: steps.append(...)]
    statements, in source order.  [tools] is not read. *)
Definition _decompose_goal (goal : string) (tools : PyVal) : list Step :=
  let steps : list Step := [] in
  let goal_lower := lower goal in
  let steps :=
    if any_in ["calculate"; "compute"; "+"; "-"; "*"; "/"; "sum"] goal_lower
    then steps ++ [use_tool_step "calculator" "Perform calculation"]
    else steps in
  let steps :=
    if any_in ["search"; "find"; "look up"; "research"] goal_lower
    then steps ++ [use_tool_step "web_search" "Search for information"]
    else steps in
  let steps :=
    if str_in "read" goal_lower && str_in "file" goal_lower
    then steps ++ [use_tool_step "file_read" "Read file contents"]
    else steps in
  let steps :=
    if str_in "write" goal_lower || str_in "save" goal_lower
    then steps ++ [use_tool_step "file_write" "Write to file"]
    else steps in
  let steps :=
    if any_in ["time"; "date"; "when"; "current"] goal_lower
    then steps ++ [use_tool_step "get_current_time" "Get current time"]
    else steps in
  let steps :=
    if str_in "weather" goal_lower
    then steps ++ [use_tool_step "weather" "Get weather information"]
    else steps in
  let steps :=
    match steps with
    | [] => steps ++ [think_step]
    | _ => steps
    end in
  steps ++ [synthesize_step].

(** [create_plan(goal, available_tools)]: build the plan, make it
    current, return it.  In Python the returned plan and the current plan
    are one object; [execute] never writes to it after the call, so the
    value it holds and the planner's copy stay equal. *)
Definition create_plan (goal : string) (available_tools : PyVal) (p : t) : Plan * t :=
  let plan := mkPlan goal (_decompose_goal goal available_tools) "pending" in
  (plan, mk (Some plan)).

(** [update_plan_status(step_index, status)]:
    [if self.current_plan and step_index < len(steps): steps[step_index]["status"] = status].
    The guard has no lower bound; the subscript follows Python's list
    indexing, so an index in [-len, 0) addresses a step from the end and
    an index below [-len] raises [IndexError]. *)
Definition update_plan_status (step_index : Z) (new_status : string) (p : t)
  : Outcome t :=
  match current_plan p with
  | None => Ok p
  | Some plan =>
      if step_index <? Z.of_nat (length (steps plan)) then
        match norm_index step_index (length (steps plan)) with
        | Some i =>
            Ok (mk (Some (mkPlan (goal plan)
                            (alter (fun step => <["status" := new_status]> step) i (steps plan))
                            (status plan))))
        | None => Raise IndexError
        end
      else Ok p
  end.

(** [step.get("status", "pending")]. *)
Definition step_status (step : Step) : string :=
  default "pending" (step !! "status").

(** [get_next_step()]: the first step whose status is still pending. *)
Definition get_next_step (p : t) : option Step :=
  match current_plan p with
  | None => None
  | Some plan => find (fun step => String.eqb (step_status step) "pending") (steps plan)
  end.

(** [is_plan_complete()]. *)
Definition is_plan_complete (p : t) : bool :=
  match current_plan p with
  | None => false
  | Some plan => forallb (fun step => String.eqb (step_status step) "completed") (steps plan)
  end.

(** One line of the summary:
    [f"{i}. [{status.upper()}] {step['description']}\n"]. *)
Definition summary_line (i : nat) (step : Step) : Outcome string :=
  match step !! "description" with
  | Some description =>
      Ok (NilZero.string_of_int (Z.to_int (Z.of_nat i)) +:+ ". ["
          +:+ upper (step_status step) +:+ "] " +:+ description +:+ nl)
  | None => Raise (KeyError "description")
  end.

(** [for i, step in enumerate(steps, 1): summary += ...]. *)
Fixpoint summary_lines (i : nat) (steps : list Step) (summary : string)
  : Outcome string :=
  match steps with
  | [] => Ok summary
  | step :: rest =>
      bind (summary_line i step) (fun line => summary_lines (S i) rest (summary +:+ line))
  end.

(** [get_plan_summary()]. *)
Definition get_plan_summary (p : t) : Outcome string :=
  match current_plan p with
  | None => Ok "No active plan"
  | Some plan =>
      summary_lines 1 (steps plan)
        ("Goal: " +:+ goal plan +:+ nl +:+ nl +:+ "Steps:" +:+ nl)
  end.

End TaskPlanner.

(* ================================================================== *)
(** ** tools.py: the registry dispatch                                  *)
(* ================================================================== *)

Module ToolRegistry.

(** The keys of [self.tools]. *)
Definition tool_names : list string :=
  ["calculator"; "web_search"; "file_read"; "file_write";
   "get_current_time"; "weather"; "code_executor"].

(** [get_tool_descriptions()]: a constant dict. *)
Definition describe (description : string) (parameters : list (string * string)) : PyVal :=
  PDict [("description", PStr description);
         ("parameters", PDict (map (fun kv => (fst kv, PStr (snd kv))) parameters))].

Definition get_tool_descriptions : PyVal :=
  PDict
    [("calculator",
      describe "Perform mathematical calculations"
        [("expression",
          "Mathematical expression to evaluate (e.g., '2 + 2', '15 * 23')")]);
     ("web_search",
      describe "Search the web for information" [("query", "Search query string")]);
     ("file_read",
      describe "Read contents of a file" [("filepath", "Path to the file to read")]);
     ("file_write",
      describe "Write content to a file"
        [("filepath", "Path to the file to write");
         ("content", "Content to write to the file")]);
     ("get_current_time", describe "Get the current date and time" []);
     ("weather",
      describe "Get current weather for a location"
        [("location", "City name or location")]);
     ("code_executor",
      describe "Execute Python code safely" [("code", "Python code to execute")])].

(** The world of the agent: the wall clock and the bodies of the
    registered tools ([run_tool name parameters w] is the bound method
    [self.tools[name]] called with [parameters] as keyword arguments;
    a call that does not fit the tool's signature raises [TypeError]
    like any other failure of the tool). *)
Class World (W : Type) : Type := {
  now : W -> string;
  run_tool : string -> PyVal -> W -> Outcome PyVal * W
}.

Section WithWorld.
Context {W : Type} `{World W} `{Runtime}.

(** [execute(tool_name, parameters)]: the membership test hashes
    [tool_name], so an unhashable name raises before the [try]; a name
    that is not registered and a tool that raises both come back as an
    error text. *)
Definition execute (tool_name parameters : PyVal) (w : W) : Outcome PyVal * W :=
  if negb (hashable tool_name) then (Raise (TypeError "unhashable type"), w)
  else
    match tool_name with
    | PStr n =>
        if existsb (String.eqb n) tool_names then
          match run_tool n parameters w with
          | (Ok result, w') => (Ok result, w')
          | (Raise e, w') =>
              (Ok (PStr ("Error executing " +:+ n +:+ ": " +:+ exn_str e)), w')
          end
        else (Ok (PStr ("Error: Tool '" +:+ n +:+ "' not found")), w)
    | _ => (Ok (PStr ("Error: Tool '" +:+ py_str tool_name +:+ "' not found")), w)
    end.

End WithWorld.

(** [get_all_tools()]: the keys of the registry, in insertion order. *)
Definition get_all_tools : list string := tool_names.

End ToolRegistry.

(* ================================================================== *)
(** ** agent.py: the execution loop                                     *)
(* ================================================================== *)

Module AgenticAI.

Import ToolRegistry.

(** What the decision oracle is shown: the parts that [_build_context]
    interpolates into the prompt. *)
Record Context : Type := mkContext {
  ctx_goal : string;
  ctx_plan : TaskPlanner.Plan;
  ctx_tools : PyVal;
  ctx_history : string
}.

(** The decision oracle, an external language model: [oracle k ctx] is
    the text of its reply to the [k]-th request of a run (counting from
    0), which shows it [ctx].  Nothing is assumed about it. *)
Class Oracle : Type := {
  oracle : nat -> Context -> string
}.

(** [AgenticAI]: the iteration budget (a Python [int]) and the components
    that [execute] works on.  The model name and the temperature only
    travel to the oracle. *)
Record t : Type := mk {
  max_iterations : Z;
  memory : Memory.t;
  planner : TaskPlanner.t
}.

(** [AgenticAI(max_iterations=...)]: a fresh memory and planner. *)
Definition init (max_iterations : Z) : t :=
  mk max_iterations Memory.default TaskPlanner.init.

(** The dict that [execute] returns. *)
Record Result : Type := mkResult {
  success : bool;
  result : PyVal;
  iterations : Z;
  tools_used : list PyVal
}.

Definition exhausted : string :=
  "Maximum iterations reached without completing goal".

Section WithEnvironment.
Context {W : Type} `{World W} `{Runtime} `{Oracle}.

(** [_build_context(goal, plan)]: reads the last five messages. *)
Definition _build_context (goal : string) (plan : TaskPlanner.Plan) (mem : Memory.t)
  : Outcome Context :=
  bind (Memory.get_recent_history 5 mem) (fun history =>
  Ok (mkContext goal plan get_tool_descriptions history)).

(** The fallback decision: [{"type": "think", "thought": decision_text}]. *)
Definition think (decision_text : string) : PyVal :=
  PDict [("type", PStr "think"); ("thought", PStr decision_text)].

(** [_decide_next_action(goal, plan)], as the [k]-th request of the run:
    build the context, ask the oracle, parse the reply with [json.loads]
    and fall back to a think decision on [JSONDecodeError]. *)
Definition _decide_next_action (k : nat) (goal : string) (plan : TaskPlanner.Plan)
  (mem : Memory.t) : Outcome PyVal :=
  bind (_build_context goal plan mem) (fun context =>
  let decision_text := oracle k context in
  match json_loads decision_text with
  | Some decision => Ok decision
  | None => Ok (think decision_text)
  end).

(** The state of the [while] loop when it is left: the iteration counter,
    [final_result], the memory and the world. *)
Definition LoopExit : Type := Z * PyVal * Memory.t * W.

(** [while iteration < self.max_iterations: ...].  Each pass uses one unit
    of [fuel]; [None] means that the fuel ran out with the loop still
    running. *)
Fixpoint loop (fuel : nat) (max_iterations : Z) (goal : string) (plan : TaskPlanner.Plan)
  (iteration : Z) (mem : Memory.t) (w : W) : option (Outcome LoopExit) :=
  match fuel with
  | O => None
  | S fuel' =>
      if iteration <? max_iterations then
        let iteration := iteration + 1 in
        match _decide_next_action (Z.to_nat (iteration - 1)) goal plan mem with
        | Raise e => Some (Raise e)
        | Ok action =>
            match subscript action "type" with
            | Raise e => Some (Raise e)
            | Ok type =>
                if eq_str type "complete" then
                  match subscript action "result" with
                  | Raise e => Some (Raise e)
                  | Ok final_result => Some (Ok (iteration, final_result, mem, w))
                  end
                else if eq_str type "use_tool" then
                  match subscript action "tool" with
                  | Raise e => Some (Raise e)
                  | Ok tool_name =>
                      match subscript action "input" with
                      | Raise e => Some (Raise e)
                      | Ok tool_input =>
                          match execute tool_name tool_input w with
                          | (Raise e, _) => Some (Raise e)
                          | (Ok tool_result, w') =>
                              loop fuel' max_iterations goal plan iteration
                                (Memory.add_tool_use (now w') tool_name tool_input
                                   tool_result mem) w'
                          end
                      end
                  end
                else if eq_str type "think" then
                  match subscript action "thought" with
                  | Raise e => Some (Raise e)
                  | Ok thought =>
                      loop fuel' max_iterations goal plan iteration
                        (Memory.add_message (now w) (PStr "assistant") thought mem) w
                  end
                else loop fuel' max_iterations goal plan iteration mem w
            end
        end
      else Some (Ok (iteration, PNone, mem, w))
  end.

(** [execute(goal)].  The loop is given one unit of fuel per allowed
    iteration and one more for the test that ends it. *)
Definition execute (goal : string) (a : t) (w : W) : option (Outcome (Result * t * W)) :=
  let mem := Memory.add_message (now w) (PStr "user") (PStr goal) (memory a) in
  let created := TaskPlanner.create_plan goal get_tool_descriptions (planner a) in
  let plan := fst created in
  let planner' := snd created in
  match loop (S (Z.to_nat (max_iterations a))) (max_iterations a) goal plan 0 mem w with
  | None => None
  | Some (Raise e) => Some (Raise e)
  | Some (Ok (iteration, final_result, mem, w)) =>
      let final_result :=
        match final_result with
        | PNone => PStr exhausted
        | _ => final_result
        end in
      let mem := Memory.add_message (now w) (PStr "assistant")
                   (PStr (py_str final_result)) mem in
      match Memory.get_tools_used mem with
      | Raise e => Some (Raise e)
      | Ok used =>
          Some (Ok (mkResult (iteration <? max_iterations a) final_result iteration used,
                    mk (max_iterations a) mem planner', w))
      end
  end.

(** [reset()]: clears the memory, keeps the planner's current plan. *)
Definition reset (a : t) : t :=
  mk (max_iterations a) (Memory.clear (memory a)) (planner a).

End WithEnvironment.

End AgenticAI.

(* ================================================================== *)
(** ** A runtime to run the model on concrete inputs                    *)
(* ================================================================== *)

(** Most properties below hold for every [Runtime].  To evaluate the
    model on concrete inputs, and for the properties that need the codec
    itself, this module provides one: [json.dumps(..., indent=2)] and
    [json.loads] on the values that JSON has a notation for and that the
    embedding carries exactly: [None], booleans, integers, strings, lists,
    and dicts of them.  A character of a [string] stands for the code
    point of the same number, U+0000 to U+00FF.  Floats are outside this
    fragment: the embedding carries their bits, not their decimal
    notation. *)
Module Sample.

Definition backslash : ascii := ascii_of_nat 92.

(** *** The writer, in the layout of [json.dumps(..., indent=2)] *)

(** A hexadecimal digit, lower case as the encoder writes it. *)
Definition hex_digit (n : nat) : ascii :=
  ascii_of_nat (if (n <? 10)%nat then 48 + n else 87 + n).

(** The body of a string literal ([ensure_ascii] is on): the quote and
    the backslash are escaped, the control characters have their short
    escape or the six-character form with [u], and so has every
    character after the tilde; the characters from the space to the tilde
    stand for themselves. *)
Fixpoint escape (s : string) : string :=
  match s with
  | EmptyString => EmptyString
  | String c rest =>
      let n := nat_of_ascii c in
      if (n =? 34)%nat then String backslash (String c (escape rest))
      else if (n =? 92)%nat then String backslash (String backslash (escape rest))
      else if (n =? 10)%nat then String backslash (String "n" (escape rest))
      else if (n =? 13)%nat then String backslash (String "r" (escape rest))
      else if (n =? 9)%nat then String backslash (String "t" (escape rest))
      else if (n =? 8)%nat then String backslash (String "b" (escape rest))
      else if (n =? 12)%nat then String backslash (String "f" (escape rest))
      else if ((n <? 32) || (126 <? n))%nat then
        String backslash (String "u" (String "0" (String "0"
          (String (hex_digit (n / 16)) (String (hex_digit (n mod 16)) (escape rest))))))
      else String c (escape rest)
  end.

Definition quote (s : string) : string :=
  String (ascii_of_nat 34) (escape s) +:+ String (ascii_of_nat 34) EmptyString.

Fixpoint spaces (n : nat) : string :=
  match n with
  | O => EmptyString
  | S k => String " " (spaces k)
  end.

Fixpoint write (level : nat) (v : PyVal) : string :=
  match v with
  | PNone => "null"
  | PBool true => "true"
  | PBool false => "false"
  | PInt z => NilZero.string_of_int (Z.to_int z)
  | PFloat _ => "NaN"
  | PStr s => quote s
  | PList [] => "[]"
  | PList (x :: xs) =>
      "[" +:+ nl +:+ spaces (2 * S level) +:+ write (S level) x
      +:+ (fix items (l : list PyVal) : string :=
             match l with
             | [] => EmptyString
             | y :: ys => "," +:+ nl +:+ spaces (2 * S level) +:+ write (S level) y +:+ items ys
             end) xs
      +:+ nl +:+ spaces (2 * level) +:+ "]"
  | PDict [] => "{}"
  | PDict ((k, x) :: kvs) =>
      "{" +:+ nl +:+ spaces (2 * S level) +:+ quote k +:+ ": " +:+ write (S level) x
      +:+ (fix members (l : list (string * PyVal)) : string :=
             match l with
             | [] => EmptyString
             | (k', y) :: rest =>
                 "," +:+ nl +:+ spaces (2 * S level) +:+ quote k' +:+ ": "
                 +:+ write (S level) y +:+ members rest
             end) kvs
      +:+ nl +:+ spaces (2 * level) +:+ "}"
  end.

(** *** The reader *)

Definition is_ws (c : ascii) : bool :=
  let n := nat_of_ascii c in
  ((n =? 32) || (n =? 10) || (n =? 13) || (n =? 9))%nat.

Fixpoint skip_ws (s : string) : string :=
  match s with
  | String c rest => if is_ws c then skip_ws rest else s
  | EmptyString => s
  end.

(** The rest of [s] after the literal [lit], when [s] starts with it. *)
Fixpoint expect (lit s : string) : option string :=
  match lit, s with
  | EmptyString, _ => Some s
  | String a lit', String b s' => if Ascii.eqb a b then expect lit' s' else None
  | _, _ => None
  end.

(** The value of a hexadecimal digit, in either case. *)
Definition hex_value (c : ascii) : option nat :=
  let n := nat_of_ascii c in
  if ((48 <=? n) && (n <=? 57))%nat then Some (n - 48)%nat
  else if ((97 <=? n) && (n <=? 102))%nat then Some (n - 87)%nat
  else if ((65 <=? n) && (n <=? 70))%nat then Some (n - 55)%nat
  else None.

(** The code point of the four hexadecimal digits after [u]. *)
Definition code_point (a b c d : ascii) : option nat :=
  match hex_value a, hex_value b, hex_value c, hex_value d with
  | Some x, Some y, Some z, Some t => Some (((x * 16 + y) * 16 + z) * 16 + t)%nat
  | _, _, _, _ => None
  end.

(** The text of a string literal after its opening quote, unescaped, and
    what follows its closing quote.  A control character that is not
    escaped is rejected; a code point after U+00FF has no character in
    the embedding. *)
Fixpoint read_string (s : string) : option (string * string) :=
  match s with
  | EmptyString => None
  | String c rest =>
      let n := nat_of_ascii c in
      if (n =? 34)%nat then Some (EmptyString, rest)
      else if (n =? 92)%nat then
        match rest with
        | String "u" (String h1 (String h2 (String h3 (String h4 rest')))) =>
            match code_point h1 h2 h3 h4, read_string rest' with
            | Some p, Some (text, after) =>
                if (p <? 256)%nat then Some (String (ascii_of_nat p) text, after) else None
            | _, _ => None
            end
        | String e rest' =>
            let unescaped :=
              if Ascii.eqb e "n" then Some (ascii_of_nat 10)
              else if Ascii.eqb e "t" then Some (ascii_of_nat 9)
              else if Ascii.eqb e "r" then Some (ascii_of_nat 13)
              else if Ascii.eqb e "b" then Some (ascii_of_nat 8)
              else if Ascii.eqb e "f" then Some (ascii_of_nat 12)
              else if (nat_of_ascii e =? 34)%nat || (nat_of_ascii e =? 92)%nat
                      || Ascii.eqb e "/" then Some e
              else None in
            match unescaped, read_string rest' with
            | Some u, Some (text, after) => Some (String u text, after)
            | _, _ => None
            end
        | EmptyString => None
        end
      else if (n <? 32)%nat then None
      else
        match read_string rest with
        | Some (text, after) => Some (String c text, after)
        | None => None
        end
  end.

Definition is_digit (c : ascii) : bool :=
  let n := nat_of_ascii c in ((48 <=? n) && (n <=? 57))%nat.

(** The decimal digits at the front of [s], and the rest. *)
Fixpoint read_uint (s : string) : Decimal.uint * string :=
  match s with
  | String c rest =>
      if is_digit c then
        let '(d, after) := read_uint rest in
        match uint_of_char c (Some d) with
        | Some d' => (d', after)
        | None => (Decimal.Nil, s)
        end
      else (Decimal.Nil, s)
  | EmptyString => (Decimal.Nil, s)
  end.

(** A numeral of more than one digit must not start with a zero. *)
Definition leading_zero (d : Decimal.uint) : bool :=
  match d with
  | Decimal.D0 Decimal.Nil => false
  | Decimal.D0 _ => true
  | _ => false
  end.

(** A number must not run into a fraction or an exponent: floats are
    outside the fragment. *)
Definition ends_number (s : string) : bool :=
  match s with
  | String c _ => negb (Ascii.eqb c "." || Ascii.eqb c "e" || Ascii.eqb c "E")
  | EmptyString => true
  end.

(** An integer numeral at the front of [text]: an optional minus sign and
    one or more digits. *)
Definition read_number (text : string) : option (Z * string) :=
  let '(negative, digits) :=
    match text with
    | String "-" rest => (true, rest)
    | _ => (false, text)
    end in
  let '(d, after) := read_uint digits in
  match d with
  | Decimal.Nil => None
  | _ =>
      if leading_zero d || negb (ends_number after) then None
      else Some (Z.of_int (if negative then Decimal.Neg d else Decimal.Pos d), after)
  end.

Fixpoint read_value (fuel : nat) (s : string) : option (PyVal * string) :=
  match fuel with
  | O => None
  | S fuel' =>
      match skip_ws s with
      | EmptyString => None
      | String c rest as text =>
          let n := nat_of_ascii c in
          if (n =? 34)%nat then
            match read_string rest with
            | Some (str, after) => Some (PStr str, after)
            | None => None
            end
          else if Ascii.eqb c "[" then
            match skip_ws rest with
            | String "]" after => Some (PList [], after)
            | _ =>
                match read_items fuel' rest with
                | Some (items, after) => Some (PList items, after)
                | None => None
                end
            end
          else if Ascii.eqb c "{" then
            match skip_ws rest with
            | String "}" after => Some (PDict [], after)
            | _ =>
                match read_members fuel' rest with
                | Some (members, after) => Some (PDict members, after)
                | None => None
                end
            end
          else if Ascii.eqb c "-" || is_digit c then
            match read_number text with
            | Some (z, after) => Some (PInt z, after)
            | None => None
            end
          else
            match expect "null" text, expect "true" text, expect "false" text with
            | Some after, _, _ => Some (PNone, after)
            | _, Some after, _ => Some (PBool true, after)
            | _, _, Some after => Some (PBool false, after)
            | _, _, _ => None
            end
      end
  end
with read_items (fuel : nat) (s : string) : option (list PyVal * string) :=
  match fuel with
  | O => None
  | S fuel' =>
      match read_value fuel' s with
      | Some (v, after) =>
          match skip_ws after with
          | String "]" after' => Some ([v], after')
          | String "," after' =>
              match read_items fuel' after' with
              | Some (vs, rest) => Some (v :: vs, rest)
              | None => None
              end
          | _ => None
          end
      | None => None
      end
  end
with read_members (fuel : nat) (s : string) : option (list (string * PyVal) * string) :=
  match fuel with
  | O => None
  | S fuel' =>
      match skip_ws s with
      | String c rest =>
          if (nat_of_ascii c =? 34)%nat then
            match read_string rest with
            | Some (key, after) =>
                match skip_ws after with
                | String ":" after' =>
                    match read_value fuel' after' with
                    | Some (v, after'') =>
                        match skip_ws after'' with
                        | String "}" rest' => Some ([(key, v)], rest')
                        | String "," rest' =>
                            match read_members fuel' rest' with
                            | Some (kvs, rest'') => Some ((key, v) :: kvs, rest'')
                            | None => None
                            end
                        | _ => None
                        end
                    | None => None
                    end
                | _ => None
                end
            | None => None
            end
          else None
      | EmptyString => None
      end
  end.

(** [json.loads(s)]: one value and nothing but white space after it.  (A
    key that occurs twice in an object is read twice, where the decoder
    keeps its last value; the text of a dict has no such key.) *)
Definition read (s : string) : option PyVal :=
  match read_value (2 * String.length s + 2) s with
  | Some (v, after) =>
      match skip_ws after with
      | EmptyString => Some v
      | _ => None
      end
  | None => None
  end.

(** *** The fragment *)

(** No key occurs twice, as in every Python dict. *)
Fixpoint distinct (keys : list string) : bool :=
  match keys with
  | [] => true
  | k :: rest => negb (existsb (String.eqb k) rest) && distinct rest
  end.

(** The values of the fragment: no float anywhere in them. *)
Fixpoint native (v : PyVal) : bool :=
  match v with
  | PNone | PBool _ | PInt _ | PStr _ => true
  | PFloat _ => false
  | PList l => forallb native l
  | PDict kvs => distinct (map fst kvs) && forallb (fun kv => native (snd kv)) kvs
  end.

(** The number of values in a value, the containers and their entries
    included: the reader needs no more fuel than that. *)
Fixpoint size (v : PyVal) : nat :=
  match v with
  | PList l => S (list_sum (map (fun x => S (size x)) l))
  | PDict kvs => S (list_sum (map (fun kv => S (size (snd kv))) kvs))
  | _ => 1
  end.

(** Dict keys with a float among them: equal when both are floats with
    the same bits. *)
#[export] Instance keys : DictKeys := {|
  float_key_eqb := fun a b =>
    match a, b with
    | PFloat x, PFloat y => Z.eqb x y
    | _, _ => false
    end
|}.

(** The elements of a set built from [names], each once, in the order of
    first occurrence. *)
Fixpoint once (names seen : list PyVal) : list PyVal :=
  match names with
  | [] => []
  | x :: rest =>
      if existsb (key_eqb x) seen then once rest seen
      else x :: once rest (x :: seen)
  end.

(** [str()] through [repr] is not needed for text inputs: a fixed text. *)
#[export] Instance runtime : Runtime := {|
  json_loads := read;
  json_dumps := write 0;
  str_via_repr := fun _ => "<repr>";
  list_of_set := fun names => once names []
|}.

End Sample.

(* ================================================================== *)
(** * Properties                                                        *)
(* ================================================================== *)

(** ** List facts behind the slices *)

Module SliceFacts.

(** The last [k] elements of a list (all of it when it is shorter). *)
Definition lastn {A} (k : nat) (l : list A) : list A :=
  drop (length l - k) l.

Lemma lastn_all {A} (k : nat) (l : list A) :
  (length l <= k)%nat -> lastn k l = l.
Proof.
  intros Hle. unfold lastn.
  replace (length l - k)%nat with 0%nat by lia. reflexivity.
Qed.

Lemma lastn_length {A} (k : nat) (l : list A) :
  length (lastn k l) = Nat.min k (length l).
Proof. unfold lastn. rewrite length_drop. lia. Qed.

Lemma lastn_app_absorb {A} (k : nat) (l l' : list A) :
  lastn k (lastn k l ++ l') = lastn k (l ++ l').
Proof.
  destruct (Nat.le_gt_cases (length l) k) as [Hle | Hgt].
  - now rewrite (lastn_all k l Hle).
  - unfold lastn.
    rewrite <- (drop_app_le l l') by lia.
    rewrite drop_drop, length_drop. f_equal.
    rewrite length_app. lia.
Qed.

Lemma lastn_app_r {A} (k : nat) (l l' : list A) :
  (k <= length l')%nat -> lastn k (l ++ l') = lastn k l'.
Proof.
  intros Hle. unfold lastn. rewrite length_app.
  rewrite drop_app_ge by lia. f_equal. lia.
Qed.

(** [l[-k:]] with [k >= 1] is the last [k] elements. *)
Lemma slice_from_neg {A} (k : Z) (l : list A) :
  1 <= k -> slice_from (- k) l = lastn (Z.to_nat k) l.
Proof.
  intros Hk. unfold slice_from, lastn.
  destruct (Z.ltb_spec (- k) 0) as [_ | Hge]; [| lia].
  f_equal. lia.
Qed.

Lemma last_drop {A} (n : nat) (l : list A) :
  (n < length l)%nat -> last (drop n l) = last l.
Proof.
  revert l. induction n as [| n IH]; intros l Hlt; [reflexivity |].
  destruct l as [| x [| y l]]; simpl in Hlt; try lia.
  change (last (drop n (y :: l)) = last (x :: y :: l)).
  rewrite last_cons_cons. apply IH. simpl. lia.
Qed.

(** [l[-0:]] is all of [l]. *)
Lemma slice_from_zero {A} (l : list A) : slice_from (- 0) l = l.
Proof. unfold slice_from. simpl. now rewrite Z.min_l by lia. Qed.

End SliceFacts.

(** ** Strings *)

Module StringFacts.

Lemma append_nil_r (s : string) : s +:+ EmptyString = s.
Proof.
  induction s as [| c s IH]; [reflexivity |].
  change (String c (s +:+ EmptyString) = String c s). now rewrite IH.
Qed.

Lemma append_assoc (s1 s2 s3 : string) : (s1 +:+ s2) +:+ s3 = s1 +:+ (s2 +:+ s3).
Proof.
  induction s1 as [| c s1 IH]; [reflexivity |].
  change (String c ((s1 +:+ s2) +:+ s3) = String c (s1 +:+ (s2 +:+ s3))).
  now rewrite IH.
Qed.

End StringFacts.

(** ** The JSON writer and reader *)

Module SampleFacts.
Import Sample StringFacts.

Lemma append_cons (c : ascii) (s t : string) : String c s +:+ t = String c (s +:+ t).
Proof. reflexivity. Qed.

Lemma length_append (s t : string) :
  String.length (s +:+ t) = (String.length s + String.length t)%nat.
Proof.
  induction s as [| c s IH]; [reflexivity |].
  rewrite append_cons. simpl. now rewrite IH.
Qed.

(** *** String literals *)

Lemma read_string_escape (s after : string) :
  read_string (escape s +:+ String (ascii_of_nat 34) after) = Some (s, after).
Proof.
  induction s as [| c s IH]; [reflexivity |].
  destruct c as [[] [] [] [] [] [] [] []];
    cbn [escape nat_of_ascii]; simpl; rewrite ?append_cons; simpl; rewrite IH; reflexivity.
Qed.


(** *** Numbers *)

(** What follows a value in the writer's text: nothing, a comma, or the
    line feed before the closing bracket. *)
Definition closes (rest : string) : bool :=
  match rest with
  | EmptyString => true
  | String c _ => (nat_of_ascii c =? 44)%nat || (nat_of_ascii c =? 10)%nat
  end.

Lemma closes_read_uint (rest : string) :
  closes rest = true -> read_uint rest = (Decimal.Nil, rest).
Proof.
  destruct rest as [| c rest]; [reflexivity |]. intros Hc.
  destruct c as [[] [] [] [] [] [] [] []]; try discriminate Hc; reflexivity.
Qed.

Lemma closes_ends_number (rest : string) :
  closes rest = true -> ends_number rest = true.
Proof.
  destruct rest as [| c rest]; [reflexivity |]. intros Hc.
  destruct c as [[] [] [] [] [] [] [] []]; try discriminate Hc; reflexivity.
Qed.

Lemma read_uint_text (d : Decimal.uint) (rest : string) :
  closes rest = true ->
  read_uint (NilEmpty.string_of_uint d +:+ rest) = (d, rest).
Proof.
  intros Hrest.
  induction d as [| d IH | d IH | d IH | d IH | d IH | d IH | d IH | d IH | d IH | d IH];
    [exact (closes_read_uint rest Hrest) | ..];
    cbn [NilEmpty.string_of_uint]; rewrite append_cons;
    cbn [read_uint]; rewrite IH; reflexivity.
Qed.

Lemma to_uint_normal (p : positive) : Decimal.unorm (Pos.to_uint p) = Pos.to_uint p.
Proof.
  rewrite <- (DecimalPos.Unsigned.to_of (Pos.to_uint p)).
  now rewrite DecimalPos.Unsigned.of_to.
Qed.

Lemma to_uint_leading_zero (p : positive) : leading_zero (Pos.to_uint p) = false.
Proof.
  pose proof (to_uint_normal p) as Hnorm.
  destruct (Pos.to_uint p) as [| d | | | | | | | | |]; try reflexivity.
  destruct d as [| d | d | d | d | d | d | d | d | d | d]; try reflexivity;
    exfalso;
    match type of Hnorm with
    | Decimal.unorm (Decimal.D0 ?t) = _ =>
        assert (Hlen : (Decimal.nb_digits (Decimal.unorm t) <= Decimal.nb_digits t)%nat)
          by (apply nb_digits_unorm; discriminate);
        change (Decimal.unorm (Decimal.D0 t)) with (Decimal.unorm t) in Hnorm;
        rewrite Hnorm in Hlen; simpl in Hlen; lia
    end.
Qed.

Lemma read_number_uint (negative : bool) (d : Decimal.uint) (rest : string) :
  d <> Decimal.Nil -> leading_zero d = false -> closes rest = true ->
  read_number ((if negative then "-" else EmptyString) +:+ NilEmpty.string_of_uint d +:+ rest)
  = Some (Z.of_int (if negative then Decimal.Neg d else Decimal.Pos d), rest).
Proof.
  intros Hd Hzero Hrest.
  assert (Hread := read_uint_text d rest Hrest).
  assert (Hends := closes_ends_number rest Hrest).
  destruct negative.
  - change ("-" +:+ NilEmpty.string_of_uint d +:+ rest)
      with (String "-" (NilEmpty.string_of_uint d +:+ rest)).
    unfold read_number. rewrite Hread, Hzero, Hends.
    destruct d; [contradiction | ..]; reflexivity.
  - change (EmptyString +:+ NilEmpty.string_of_uint d +:+ rest)
      with (NilEmpty.string_of_uint d +:+ rest).
    unfold read_number.
    replace (match NilEmpty.string_of_uint d +:+ rest with
             | String "-" rest0 => (true, rest0)
             | _ => (false, NilEmpty.string_of_uint d +:+ rest)
             end) with (false, NilEmpty.string_of_uint d +:+ rest)
      by (destruct d; [contradiction | ..]; reflexivity).
    rewrite Hread, Hzero, Hends.
    destruct d; [contradiction | ..]; reflexivity.
Qed.

(** The numeral that the writer prints for an integer reads back as that
    integer. *)
Lemma read_number_write (z : Z) (rest : string) :
  closes rest = true ->
  read_number (write 0 (PInt z) +:+ rest) = Some (z, rest).
Proof.
  intros Hrest. cbn [write].
  destruct z as [| p | p].
  - exact (read_number_uint false (Decimal.D0 Decimal.Nil) rest ltac:(discriminate) eq_refl Hrest).
  - pose proof (read_number_uint false (Pos.to_uint p) rest
      (DecimalPos.Unsigned.to_uint_nonnil p) (to_uint_leading_zero p) Hrest) as Hread.
    pose proof (DecimalZ.of_to (Z.pos p)) as Hback. cbn [Z.to_int] in Hback |- *.
    cbv iota in Hread. rewrite Hback in Hread. rewrite <- Hread. f_equal.
    pose proof (DecimalPos.Unsigned.to_uint_nonnil p) as Hnil.
    cbn [NilZero.string_of_int]. unfold NilZero.string_of_uint.
    destruct (Pos.to_uint p); [contradiction | ..]; reflexivity.
  - pose proof (read_number_uint true (Pos.to_uint p) rest
      (DecimalPos.Unsigned.to_uint_nonnil p) (to_uint_leading_zero p) Hrest) as Hread.
    pose proof (DecimalZ.of_to (Z.neg p)) as Hback. cbn [Z.to_int] in Hback |- *.
    cbv iota in Hread. rewrite Hback in Hread. rewrite <- Hread. f_equal.
    pose proof (DecimalPos.Unsigned.to_uint_nonnil p) as Hnil.
    cbn [NilZero.string_of_int]. unfold NilZero.string_of_uint.
    destruct (Pos.to_uint p); [contradiction | ..]; reflexivity.
Qed.

(** A numeral starts with a minus sign or a digit. *)
Definition number_start (s : string) : bool :=
  match s with
  | String c _ => Ascii.eqb c "-" || is_digit c
  | EmptyString => false
  end.

Lemma number_start_write (z : Z) (rest : string) :
  number_start (write 0 (PInt z) +:+ rest) = true.
Proof.
  cbn [write]. destruct z as [| p | p]; [reflexivity | |];
    pose proof (DecimalPos.Unsigned.to_uint_nonnil p) as Hnil;
    cbn [Z.to_int NilZero.string_of_int]; unfold NilZero.string_of_uint;
    destruct (Pos.to_uint p); [contradiction | ..]; reflexivity.
Qed.

Lemma read_value_number (fuel : nat) (s : string) :
  number_start s = true ->
  read_value (S fuel) s
  = match read_number s with
    | Some (z, after) => Some (PInt z, after)
    | None => None
    end.
Proof.
  destruct s as [| c s]; [discriminate |]. intros Hstart.
  destruct c as [[] [] [] [] [] [] [] []]; try discriminate Hstart; reflexivity.
Qed.


(** *** Layout *)

(** A value's text starts with a character that is neither white space
    nor a closing bracket. *)
Definition opens (s : string) : bool :=
  match s with
  | String c _ => negb (is_ws c) && negb (Ascii.eqb c "]") && negb (Ascii.eqb c "}")
  | EmptyString => false
  end.

Lemma number_start_opens (s : string) : number_start s = true -> opens s = true.
Proof.
  destruct s as [| c s]; [discriminate |]. intros Hstart.
  destruct c as [[] [] [] [] [] [] [] []]; try discriminate Hstart; reflexivity.
Qed.

Lemma opens_write (level : nat) (v : PyVal) (rest : string) :
  opens (write level v +:+ rest) = true.
Proof.
  destruct v as [| [] | z | bits | s | [| x xs] | [| [k x] kvs]]; try reflexivity.
  apply number_start_opens. exact (number_start_write z rest).
Qed.

Lemma skip_ws_opens (s : string) : opens s = true -> skip_ws s = s.
Proof.
  destruct s as [| c s]; [discriminate |]. intros Ho. cbn [opens] in Ho.
  cbn [skip_ws]. destruct (is_ws c); [discriminate | reflexivity].
Qed.

Lemma skip_ws_spaces (n : nat) (s : string) : skip_ws (spaces n +:+ s) = skip_ws s.
Proof. induction n as [| n IH]; [reflexivity | exact IH]. Qed.

Lemma skip_ws_indent (n : nat) (s : string) : skip_ws (nl +:+ spaces n +:+ s) = skip_ws s.
Proof. exact (skip_ws_spaces n s). Qed.

Lemma skip_ws_idem (s : string) : skip_ws (skip_ws s) = skip_ws s.
Proof.
  induction s as [| c s IH]; [reflexivity |].
  cbn [skip_ws]. destruct (is_ws c) eqn:Hc; [exact IH |].
  cbn [skip_ws]. now rewrite Hc.
Qed.

Lemma read_value_skip_ws (fuel : nat) (s : string) :
  read_value fuel (skip_ws s) = read_value fuel s.
Proof.
  destruct fuel as [| fuel]; [reflexivity |].
  cbn [read_value]. now rewrite skip_ws_idem.
Qed.

Lemma read_members_skip_ws (fuel : nat) (s : string) :
  read_members fuel (skip_ws s) = read_members fuel s.
Proof.
  destruct fuel as [| fuel]; [reflexivity |].
  cbn [read_members]. now rewrite skip_ws_idem.
Qed.

(** *** The writer's text, entry by entry *)

Fixpoint items_text (level : nat) (l : list PyVal) : string :=
  match l with
  | [] => EmptyString
  | y :: ys =>
      "," +:+ nl +:+ spaces (2 * S level) +:+ write (S level) y +:+ items_text level ys
  end.

Fixpoint members_text (level : nat) (l : list (string * PyVal)) : string :=
  match l with
  | [] => EmptyString
  | (k, y) :: rest =>
      "," +:+ nl +:+ spaces (2 * S level) +:+ quote k +:+ ": "
      +:+ write (S level) y +:+ members_text level rest
  end.

Lemma write_list (level : nat) (x : PyVal) (xs : list PyVal) :
  write level (PList (x :: xs))
  = "[" +:+ nl +:+ spaces (2 * S level) +:+ write (S level) x
    +:+ items_text level xs +:+ nl +:+ spaces (2 * level) +:+ "]".
Proof.
  cbn [write]. do 5 f_equal.
  induction xs as [| y ys IH]; [reflexivity |].
  cbn [items_text]. rewrite <- IH. reflexivity.
Qed.

Lemma write_dict (level : nat) (k : string) (x : PyVal) (kvs : list (string * PyVal)) :
  write level (PDict ((k, x) :: kvs))
  = "{" +:+ nl +:+ spaces (2 * S level) +:+ quote k +:+ ": " +:+ write (S level) x
    +:+ members_text level kvs +:+ nl +:+ spaces (2 * level) +:+ "}".
Proof.
  cbn [write]. do 7 f_equal.
  induction kvs as [| [k' y] rest IH]; [reflexivity |].
  cbn [members_text]. rewrite <- IH. reflexivity.
Qed.


(** *** Induction over values, through lists and dicts *)

Section ValueInduction.

Variable P : PyVal -> Prop.
Hypothesis HNone : P PNone.
Hypothesis HBool : forall b, P (PBool b).
Hypothesis HInt : forall z, P (PInt z).
Hypothesis HFloat : forall bits, P (PFloat bits).
Hypothesis HStr : forall s, P (PStr s).
Hypothesis HList : forall l, Forall P l -> P (PList l).
Hypothesis HDict : forall kvs, Forall (fun kv => P (snd kv)) kvs -> P (PDict kvs).

Fixpoint value_ind (v : PyVal) : P v :=
  match v with
  | PNone => HNone
  | PBool b => HBool b
  | PInt z => HInt z
  | PFloat bits => HFloat bits
  | PStr s => HStr s
  | PList l =>
      HList l ((fix all (l : list PyVal) : Forall P l :=
                  match l with
                  | [] => @List.Forall_nil _ P
                  | x :: xs => @List.Forall_cons _ P x xs (value_ind x) (all xs)
                  end) l)
  | PDict kvs =>
      HDict kvs ((fix all (l : list (string * PyVal)) : Forall (fun kv => P (snd kv)) l :=
                    match l with
                    | [] => @List.Forall_nil _ (fun kv => P (snd kv))
                    | kv :: rest => @List.Forall_cons _ (fun kv => P (snd kv)) kv rest (value_ind (snd kv)) (all rest)
                    end) kvs)
  end.

End ValueInduction.

(** *** Reading back what was written *)

(** [v] reads back: at any depth and before any text that closes a
    value, with fuel for every value in it. *)
Definition reads_back (v : PyVal) : Prop :=
  forall (level : nat) (rest : string) (fuel : nat),
    (size v <= fuel)%nat -> closes rest = true ->
    read_value fuel (write level v +:+ rest) = Some (v, rest).

Lemma read_items_last (fuel : nat) (s after rest : string) (v : PyVal) :
  read_value fuel s = Some (v, after) ->
  skip_ws after = String "]" rest ->
  read_items (S fuel) s = Some ([v], rest).
Proof. intros Hv Hafter. cbn [read_items]. now rewrite Hv, Hafter. Qed.

Lemma read_items_more (fuel : nat) (s after after' rest : string) (v : PyVal)
  (vs : list PyVal) :
  read_value fuel s = Some (v, after) ->
  skip_ws after = String "," after' ->
  read_items fuel after' = Some (vs, rest) ->
  read_items (S fuel) s = Some (v :: vs, rest).
Proof. intros Hv Hafter Hvs. cbn [read_items]. now rewrite Hv, Hafter, Hvs. Qed.

Lemma read_members_last (fuel : nat) (s text after after' after'' rest key : string)
  (v : PyVal) :
  skip_ws s = String (ascii_of_nat 34) text ->
  read_string text = Some (key, after) ->
  skip_ws after = String ":" after' ->
  read_value fuel after' = Some (v, after'') ->
  skip_ws after'' = String "}" rest ->
  read_members (S fuel) s = Some ([(key, v)], rest).
Proof.
  intros Hs Hkey Hcolon Hv Hafter. cbn [read_members].
  rewrite Hs. cbn [nat_of_ascii ascii_of_nat]. simpl.
  now rewrite Hkey, Hcolon, Hv, Hafter.
Qed.

Lemma read_members_more (fuel : nat) (s text after after' after'' more rest key : string)
  (v : PyVal) (kvs : list (string * PyVal)) :
  skip_ws s = String (ascii_of_nat 34) text ->
  read_string text = Some (key, after) ->
  skip_ws after = String ":" after' ->
  read_value fuel after' = Some (v, after'') ->
  skip_ws after'' = String "," more ->
  read_members fuel more = Some (kvs, rest) ->
  read_members (S fuel) s = Some ((key, v) :: kvs, rest).
Proof.
  intros Hs Hkey Hcolon Hv Hafter Hmore. cbn [read_members].
  rewrite Hs. simpl.
  now rewrite Hkey, Hcolon, Hv, Hafter, Hmore.
Qed.

Lemma read_value_list (fuel : nat) (s after : string) (items : list PyVal) :
  opens (skip_ws s) = true ->
  read_items fuel s = Some (items, after) ->
  read_value (S fuel) (String "[" s) = Some (PList items, after).
Proof.
  intros Ho Hitems. cbn [read_value]. simpl. rewrite Hitems.
  destruct (skip_ws s) as [| c t]; [discriminate |].
  destruct c as [[] [] [] [] [] [] [] []]; try discriminate Ho; reflexivity.
Qed.

Lemma read_value_dict (fuel : nat) (s after : string) (members : list (string * PyVal)) :
  opens (skip_ws s) = true ->
  read_members fuel s = Some (members, after) ->
  read_value (S fuel) (String "{" s) = Some (PDict members, after).
Proof.
  intros Ho Hmembers. cbn [read_value]. simpl. rewrite Hmembers.
  destruct (skip_ws s) as [| c t]; [discriminate |].
  destruct c as [[] [] [] [] [] [] [] []]; try discriminate Ho; reflexivity.
Qed.

Lemma read_value_quote (fuel : nat) (text : string) :
  read_value (S fuel) (String (ascii_of_nat 34) text)
  = match read_string text with
    | Some (str, after) => Some (PStr str, after)
    | None => None
    end.
Proof. reflexivity. Qed.

Lemma read_value_string (fuel : nat) (s rest : string) :
  read_value (S fuel) (quote s +:+ rest) = Some (PStr s, rest).
Proof.
  unfold quote. rewrite append_assoc, append_cons.
  rewrite read_value_quote.
  change (String (ascii_of_nat 34) EmptyString +:+ rest)
    with (String (ascii_of_nat 34) rest).
  now rewrite (read_string_escape s rest).
Qed.

Lemma closes_items (level : nat) (xs : list PyVal) (tail : string) :
  closes (items_text level xs +:+ nl +:+ tail) = true.
Proof. destruct xs; reflexivity. Qed.

Lemma closes_members (level : nat) (kvs : list (string * PyVal)) (tail : string) :
  closes (members_text level kvs +:+ nl +:+ tail) = true.
Proof. destruct kvs as [| [k y] kvs]; reflexivity. Qed.

Lemma read_items_text (level : nat) (rest : string) (xs : list PyVal) :
  Forall reads_back xs ->
  forall (x : PyVal) (fuel : nat),
    reads_back x ->
    (list_sum (map (fun y => S (size y)) (x :: xs)) <= fuel)%nat ->
    read_items fuel
      (nl +:+ spaces (2 * S level) +:+ write (S level) x +:+ items_text level xs
       +:+ nl +:+ spaces (2 * level) +:+ "]" +:+ rest)
    = Some (x :: xs, rest).
Proof.
  induction 1 as [| y ys Hy Hys IH]; intros x fuel Hx Hfuel;
    (destruct fuel as [| fuel]; [simpl in Hfuel; lia |]); simpl in Hfuel.
  - eapply read_items_last.
    + rewrite <- read_value_skip_ws, skip_ws_indent, read_value_skip_ws.
      apply Hx; [lia | apply closes_items].
    + change (items_text level [] +:+ nl +:+ spaces (2 * level) +:+ "]" +:+ rest)
        with (nl +:+ spaces (2 * level) +:+ "]" +:+ rest).
      rewrite skip_ws_indent. reflexivity.
  - eapply read_items_more.
    + rewrite <- read_value_skip_ws, skip_ws_indent, read_value_skip_ws.
      apply Hx; [lia | apply closes_items].
    + cbn [items_text]. rewrite !append_assoc. reflexivity.
    + apply IH; [exact Hy | simpl; lia].
Qed.

Lemma read_members_text (level : nat) (rest : string) (kvs : list (string * PyVal)) :
  Forall (fun kv => reads_back (snd kv)) kvs ->
  forall (k : string) (x : PyVal) (fuel : nat),
    reads_back x ->
    (list_sum (map (fun kv => S (size (snd kv))) ((k, x) :: kvs)) <= fuel)%nat ->
    read_members fuel
      (nl +:+ spaces (2 * S level) +:+ quote k +:+ ": " +:+ write (S level) x
       +:+ members_text level kvs +:+ nl +:+ spaces (2 * level) +:+ "}" +:+ rest)
    = Some ((k, x) :: kvs, rest).
Proof.
  induction 1 as [| [k' y] rest' Hy Hrest IH]; intros k x fuel Hx Hfuel;
    (destruct fuel as [| fuel]; [simpl in Hfuel; lia |]); simpl in Hfuel.
  - eapply read_members_last.
    + rewrite skip_ws_indent. unfold quote.
      rewrite append_assoc, append_cons. reflexivity.
    + apply (read_string_escape k).
    + reflexivity.
    + match goal with
      | |- read_value _ _ = ?r =>
          change (read_value fuel
                    (spaces 1 +:+ write (S level) x +:+ members_text level []
                     +:+ nl +:+ spaces (2 * level) +:+ "}" +:+ rest) = r)
      end.
      rewrite <- read_value_skip_ws, skip_ws_spaces, read_value_skip_ws.
      apply Hx; [lia | apply closes_members].
    + change (members_text level [] +:+ nl +:+ spaces (2 * level) +:+ "}" +:+ rest)
        with (nl +:+ spaces (2 * level) +:+ "}" +:+ rest).
      rewrite skip_ws_indent. reflexivity.
  - eapply read_members_more.
    + rewrite skip_ws_indent. unfold quote.
      rewrite append_assoc, append_cons. reflexivity.
    + apply (read_string_escape k).
    + reflexivity.
    + match goal with
      | |- read_value _ _ = ?r =>
          change (read_value fuel
                    (spaces 1 +:+ write (S level) x +:+ members_text level ((k', y) :: rest')
                     +:+ nl +:+ spaces (2 * level) +:+ "}" +:+ rest) = r)
      end.
      rewrite <- read_value_skip_ws, skip_ws_spaces, read_value_skip_ws.
      apply Hx; [lia | apply closes_members].
    + cbn [members_text]. rewrite !append_assoc. reflexivity.
    + apply IH; [exact Hy | simpl; lia].
Qed.

Lemma native_reads_back (v : PyVal) : native v = true -> reads_back v.
Proof.
  induction v as [| b | z | bits | s | l IH | kvs IH] using value_ind;
    intros Hnative level rest fuel Hfuel Hrest;
    (destruct fuel as [| fuel]; [simpl in Hfuel; lia |]).
  - reflexivity.
  - destruct b; reflexivity.
  - rewrite read_value_number by exact (number_start_write z rest).
    change (write level (PInt z)) with (write 0 (PInt z)).
    now rewrite (read_number_write z rest Hrest).
  - discriminate Hnative.
  - apply read_value_string.
  - cbn [native] in Hnative.
    assert (Hall : Forall reads_back l).
    { clear Hfuel. induction IH as [| x xs Hx _ IHxs]; [constructor |].
      cbn [forallb] in Hnative. apply andb_true_iff in Hnative as [Hnx Hnxs].
      constructor; [exact (Hx Hnx) | exact (IHxs Hnxs)]. }
    destruct l as [| x xs]; [reflexivity |].
    inversion Hall as [| ? ? Hx Hxs]; subst.
    rewrite write_list. rewrite !append_assoc.
    change ("[" +:+ nl +:+ spaces (2 * S level) +:+ write (S level) x
            +:+ items_text level xs +:+ nl +:+ spaces (2 * level) +:+ "]" +:+ rest)
      with (String "[" (nl +:+ spaces (2 * S level) +:+ write (S level) x
            +:+ items_text level xs +:+ nl +:+ spaces (2 * level) +:+ "]" +:+ rest)).
    apply read_value_list.
    + rewrite skip_ws_indent, skip_ws_opens by apply opens_write. apply opens_write.
    + apply read_items_text; [exact Hxs | exact Hx |]. simpl in Hfuel |- *. lia.
  - cbn [native] in Hnative. apply andb_true_iff in Hnative as [_ Hnative].
    assert (Hall : Forall (fun kv => reads_back (snd kv)) kvs).
    { clear Hfuel. induction IH as [| kv rest' Hx _ IHrest]; [constructor |].
      cbn [forallb] in Hnative. apply andb_true_iff in Hnative as [Hnx Hnrest].
      constructor; [exact (Hx Hnx) | exact (IHrest Hnrest)]. }
    destruct kvs as [| [k x] kvs]; [reflexivity |].
    inversion Hall as [| ? ? Hx Hxs]; subst.
    rewrite write_dict. rewrite !append_assoc.
    change ("{" +:+ nl +:+ spaces (2 * S level) +:+ quote k +:+ ": "
            +:+ write (S level) x +:+ members_text level kvs
            +:+ nl +:+ spaces (2 * level) +:+ "}" +:+ rest)
      with (String "{" (nl +:+ spaces (2 * S level) +:+ quote k +:+ ": "
            +:+ write (S level) x +:+ members_text level kvs
            +:+ nl +:+ spaces (2 * level) +:+ "}" +:+ rest)).
    apply read_value_dict.
    + rewrite skip_ws_indent. reflexivity.
    + apply read_members_text; [exact Hxs | exact Hx |].
      simpl in Hfuel |- *. lia.
Qed.


(** *** Fuel: the text is at least as long as the value is large *)

Lemma size_items (level : nat) (xs : list PyVal) :
  Forall (fun y => forall level, (size y <= String.length (write level y))%nat) xs ->
  (list_sum (map (fun y => S (size y)) xs) <= String.length (items_text level xs))%nat.
Proof.
  induction 1 as [| y ys Hy _ IH]; [simpl; lia |].
  cbn [items_text]. rewrite !length_append. specialize (Hy (S level)).
  simpl. lia.
Qed.

Lemma size_members (level : nat) (kvs : list (string * PyVal)) :
  Forall (fun kv => forall level, (size (snd kv) <= String.length (write level (snd kv)))%nat)
    kvs ->
  (list_sum (map (fun kv => S (size (snd kv))) kvs)
   <= String.length (members_text level kvs))%nat.
Proof.
  induction 1 as [| [k y] rest Hy _ IH]; [simpl; lia |].
  cbn [members_text]. rewrite !length_append. specialize (Hy (S level)).
  simpl in *. lia.
Qed.

Lemma size_le_length (v : PyVal) :
  forall level, (size v <= String.length (write level v))%nat.
Proof.
  induction v as [| b | z | bits | s | l IH | kvs IH] using value_ind; intros level.
  - simpl. lia.
  - destruct b; simpl; lia.
  - pose proof (number_start_write z EmptyString) as Hstart.
    rewrite append_nil_r in Hstart.
    change (write level (PInt z)) with (write 0 (PInt z)).
    destruct (write 0 (PInt z)); [discriminate | simpl; lia].
  - simpl. lia.
  - cbn [write size]. unfold quote. rewrite append_cons. simpl. lia.
  - destruct l as [| x xs]; [simpl; lia |].
    inversion IH as [| ? ? Hx Hxs]; subst.
    rewrite write_list, !length_append.
    pose proof (size_items level xs Hxs). specialize (Hx (S level)).
    simpl. lia.
  - destruct kvs as [| [k x] kvs]; [simpl; lia |].
    inversion IH as [| ? ? Hx Hxs]; subst.
    rewrite write_dict, !length_append.
    pose proof (size_members level kvs Hxs). specialize (Hx (S level)).
    simpl in *. lia.
Qed.

(** [json.loads(json.dumps(v, indent=2)) == v] for every value of the
    fragment. *)
Lemma read_write (v : PyVal) : native v = true -> read (write 0 v) = Some v.
Proof.
  intros Hnative. unfold read.
  pose proof (native_reads_back v Hnative 0%nat EmptyString
                (2 * String.length (write 0 v) + 2)%nat) as Hread.
  rewrite append_nil_r in Hread.
  rewrite Hread; [reflexivity | | reflexivity].
  pose proof (size_le_length v 0%nat). lia.
Qed.

End SampleFacts.

(** ** memory.py *)

Module MemoryFacts.

Import Memory SliceFacts StringFacts.

(** One [add_message] call: the timestamp read, the role and the content. *)
Definition Call : Type := string * PyVal * PyVal.

Definition call_message (c : Call) : PyVal :=
  let '(ts, role, content) := c in message ts role content.

(** A sequence of [add_message] calls, in order. *)
Definition add_messages (calls : list Call) (m : t) : t :=
  fold_left (fun m c => let '(ts, role, content) := c in add_message ts role content m)
    calls m.

Lemma add_message_max_history ts role content m :
  max_history (add_message ts role content m) = max_history m.
Proof. reflexivity. Qed.

Lemma add_message_tool_usage ts role content m :
  tool_usage (add_message ts role content m) = tool_usage m.
Proof. reflexivity. Qed.

(** With a bound of at least 1, one call leaves the most recent
    [max_history] of the old messages and the new one. *)
Lemma add_message_lastn ts role content m :
  1 <= max_history m ->
  messages (add_message ts role content m)
  = lastn (Z.to_nat (max_history m)) (messages m ++ [message ts role content]).
Proof.
  intros Hpos. unfold add_message. simpl.
  destruct (Z.gtb_spec (Z.of_nat (length (messages m ++ [message ts role content])))
              (max_history m)) as [Hgt | Hle].
  - now apply slice_from_neg.
  - symmetry. apply lastn_all. lia.
Qed.

(** With a bound of 0 the trim is [messages[-0:]], which keeps
    everything. *)
Lemma add_message_zero_bound ts role content m :
  max_history m = 0 ->
  messages (add_message ts role content m) = messages m ++ [message ts role content].
Proof.
  intros Hzero. unfold add_message. simpl. rewrite Hzero.
  destruct (_ >? 0); [apply slice_from_zero | reflexivity].
Qed.

Lemma add_messages_max_history calls m :
  max_history (add_messages calls m) = max_history m.
Proof.
  revert m. induction calls as [| [[ts role] content] rest IH]; intros m; [reflexivity |].
  simpl. now rewrite IH.
Qed.

Lemma add_messages_lastn calls m :
  1 <= max_history m ->
  calls <> [] ->
  messages (add_messages calls m)
  = lastn (Z.to_nat (max_history m)) (messages m ++ map call_message calls).
Proof.
  revert m. induction calls as [| [[ts role] content] rest IH]; intros m Hpos Hne;
    [congruence |].
  simpl. destruct rest as [| c rest'].
  - simpl. now apply add_message_lastn.
  - rewrite IH; [| now rewrite add_message_max_history | discriminate].
    rewrite add_message_max_history, add_message_lastn by assumption.
    rewrite lastn_app_absorb, <- app_assoc. reflexivity.
Qed.

(** FIFO truncation for a bound of at least 1: after more calls than the
    bound, whatever the store held before, the list has exactly
    [max_history] messages, the most recent ones in insertion order. *)
Lemma add_messages_most_recent calls m :
  1 <= max_history m ->
  Z.of_nat (length calls) > max_history m ->
  messages (add_messages calls m)
  = lastn (Z.to_nat (max_history m)) (map call_message calls)
  /\ Z.of_nat (length (messages (add_messages calls m))) = max_history m.
Proof.
  intros Hpos Hlong.
  assert (Hne : calls <> []) by (destruct calls; [simpl in Hlong; lia | discriminate]).
  rewrite (add_messages_lastn calls m Hpos Hne).
  rewrite lastn_app_r by (rewrite length_map; lia).
  split; [reflexivity |].
  rewrite lastn_length, length_map. lia.
Qed.

(** C3.  A store configured with [max_history = 0] keeps every message:
    after one [add_message] on the empty store (a call sequence longer
    than the bound) the list has one element, not zero, because the trim
    [messages[-0:]] is the whole list; after three calls it has three. *)
Theorem add_message_zero_bound_keeps_all :
  messages (add_message "t1" (PStr "user") (PStr "hello") (init 0))
  = [message "t1" (PStr "user") (PStr "hello")]
  /\ length (messages (add_messages
               [("t1", PStr "user", PStr "a"); ("t2", PStr "user", PStr "b");
                ("t3", PStr "user", PStr "c")] (init 0))) = 3%nat.
Proof. split; reflexivity. Qed.

Lemma add_messages_most_recent_example :
  messages (add_messages
              [("t1", PStr "user", PStr "a"); ("t2", PStr "assistant", PStr "b");
               ("t3", PStr "user", PStr "c")] (init 2))
  = [message "t2" (PStr "assistant") (PStr "b"); message "t3" (PStr "user") (PStr "c")].
Proof.
  pose proof (add_messages_most_recent
    [("t1", PStr "user", PStr "a"); ("t2", PStr "assistant", PStr "b");
     ("t3", PStr "user", PStr "c")] (init 2)) as Hrecent.
  simpl in Hrecent. apply Hrecent; lia.
Defined.

Section WithRuntime.
Context `{Runtime}.

(** The line that a message built by [add_message] contributes. *)
Definition line (c : Call) : string :=
  let '(_, role, content) := c in
  py_str role +:+ ": " +:+ py_str content +:+ nl.

(** The lines of a sequence of messages, one after the other. *)
Definition lines (calls : list Call) : string :=
  fold_right (fun c rest => line c +:+ rest) EmptyString calls.

Lemma format_history_messages calls acc :
  format_history (map call_message calls) acc = Ok (acc +:+ lines calls).
Proof.
  revert acc. induction calls as [| [[ts role] content] rest IH]; intros acc; simpl.
  - now rewrite append_nil_r.
  - rewrite IH. now rewrite append_assoc.
Qed.

(** For [n >= 1], on a store whose messages were built by [add_message]:
    the lines of the last [n] messages (of all of them when there are
    fewer), in chronological order. *)
Lemma get_recent_history_lastn (n : Z) (calls : list Call) (m : t) :
  messages m = map call_message calls ->
  1 <= n ->
  get_recent_history n m = Ok (lines (lastn (Z.to_nat n) calls)).
Proof.
  intros Hmsgs Hn. unfold get_recent_history, recent. rewrite Hmsgs.
  assert (Hrecent :
    (if Z.of_nat (length (map call_message calls)) >? n
     then slice_from (- n) (map call_message calls)
     else map call_message calls)
    = map call_message (lastn (Z.to_nat n) calls)).
  { destruct (Z.gtb_spec (Z.of_nat (length (map call_message calls))) n) as [Hgt | Hle].
    - rewrite slice_from_neg by assumption.
      unfold lastn. now rewrite <- fmap_drop, length_map.
    - rewrite length_map in Hle. now rewrite lastn_all by lia. }
  rewrite Hrecent. apply format_history_messages.
Qed.

(** C5.  [get_recent_history(0)] on a store that holds one message
    returns that message's line, not the empty text that "the last 0
    messages" would give: the store is longer than [n = 0], so the code
    takes [messages[-0:]], which is the whole list. *)
Theorem get_recent_history_zero_returns_all :
  get_recent_history 0 (add_message "t1" (PStr "user") (PStr "hello") default)
  = Ok ("user: hello" +:+ nl)
  /\ get_recent_history 0 (add_message "t1" (PStr "user") (PStr "hello") default)
     <> Ok EmptyString.
Proof. split; [reflexivity | discriminate]. Qed.

End WithRuntime.

Section Persistence.
Context `{Runtime}.

(** With any codec: when [json.load] reads back the document that
    [json.dump] wrote, the load binds the saved lists. *)
Lemma load_after_save (m fresh : t) (filepath : string) (fs : gmap string string) :
  json_loads (json_dumps (document m)) = Some (document m) ->
  load_from_file filepath (save_to_file filepath m fs) fresh
  = Ok (attributes (mk (messages m) (tool_usage m) (max_history fresh))).
Proof.
  intros Hcodec. unfold load_from_file, save_to_file.
  rewrite lookup_insert_eq, Hcodec. reflexivity.
Qed.

Lemma store_of_attributes (m : t) : store_of (attributes m) = Some m.
Proof. now destruct m. Qed.

End Persistence.

Section OnSample.
#[local] Existing Instance Sample.runtime.


(** A store with two messages and one tool use. *)
Definition sample_store : t :=
  add_tool_use "2024-01-01T10:00:02" (PStr "calculator")
    (PDict [("expression", PStr "2+2")]) (PStr "Result: 4")
    (add_message "2024-01-01T10:00:01" (PStr "assistant") (PStr "Hi there!")
       (add_message "2024-01-01T10:00:00" (PStr "user") (PStr "Hello!") default)).


End OnSample.

End MemoryFacts.

(** ** executor.py *)

Module ToolExecutorFacts.

Import ToolExecutor.

Section WithWorld.
Context {W : Type} `{World W}.

(** The ledger records of a failed and of a successful attempt. *)
Definition failure (tool_func : Tool W) (parameters : PyVal) (w : W) (e : Exn) : PyVal :=
  record (now w) (name tool_func) parameters PNone false (PStr (exn_str e)).

Definition success (tool_func : Tool W) (parameters : PyVal) (w : W) (v : PyVal) : PyVal :=
  record (now w) (name tool_func) parameters v true PNone.

(** The tool raises whenever it is called. *)
Definition always_fails (tool_func : Tool W) (parameters : PyVal) : Prop :=
  forall w, raised (fst (call tool_func parameters w)) = true.

Lemma always_fails_call tool_func parameters w :
  always_fails tool_func parameters ->
  exists e w', call tool_func parameters w = (Raise e, w').
Proof.
  intros Hfails. specialize (Hfails w).
  destruct (call tool_func parameters w) as [[v | e] w']; [discriminate |].
  now exists e, w'.
Qed.

(** A tool that succeeds at the first attempt: one call, one record. *)
Lemma execute_with_retry_first_success tool_func parameters ex w0 v w1 :
  call tool_func parameters w0 = (Ok v, w1) ->
  execute_with_retry tool_func parameters ex w0
  = (Ok v, (mk (max_retries ex)
              (execution_history ex ++ [success tool_func parameters w1 v]), w1)).
Proof.
  intros H1. unfold execute_with_retry, stop_after_attempt. simpl.
  rewrite H1. reflexivity.
Qed.

(** Two failures and a success: three calls, three records. *)
Lemma execute_with_retry_third_success tool_func parameters ex w0 e1 w1 e2 w2 v w3 :
  call tool_func parameters w0 = (Raise e1, w1) ->
  call tool_func parameters (backoff 1 w1) = (Raise e2, w2) ->
  call tool_func parameters (backoff 2 w2) = (Ok v, w3) ->
  execute_with_retry tool_func parameters ex w0
  = (Ok v,
     (mk (max_retries ex)
        (execution_history ex
         ++ [failure tool_func parameters w1 e1; failure tool_func parameters w2 e2;
             success tool_func parameters w3 v]), w3)).
Proof.
  intros H1 H2 H3. unfold execute_with_retry, stop_after_attempt. simpl.
  rewrite H1. simpl. rewrite H2. simpl. rewrite H3. simpl.
  unfold _record_execution. simpl. now rewrite <- !app_assoc.
Qed.

(** Three failures: three calls, three records, then [RetryError] around
    the third exception. *)
Lemma execute_with_retry_three_failures tool_func parameters ex w0 e1 w1 e2 w2 e3 w3 :
  call tool_func parameters w0 = (Raise e1, w1) ->
  call tool_func parameters (backoff 1 w1) = (Raise e2, w2) ->
  call tool_func parameters (backoff 2 w2) = (Raise e3, w3) ->
  execute_with_retry tool_func parameters ex w0
  = (Raise (RetryError e3),
     (mk (max_retries ex)
        (execution_history ex
         ++ [failure tool_func parameters w1 e1; failure tool_func parameters w2 e2;
             failure tool_func parameters w3 e3]), w3)).
Proof.
  intros H1 H2 H3. unfold execute_with_retry, stop_after_attempt. simpl.
  rewrite H1. simpl. rewrite H2. simpl. rewrite H3. simpl.
  unfold _record_execution. simpl. now rewrite <- !app_assoc.
Qed.

Lemma execute_with_retry_always_fails tool_func parameters ex w0 :
  always_fails tool_func parameters ->
  exists e1 w1 e2 w2 e3 w3,
    call tool_func parameters w0 = (Raise e1, w1)
    /\ call tool_func parameters (backoff 1 w1) = (Raise e2, w2)
    /\ call tool_func parameters (backoff 2 w2) = (Raise e3, w3)
    /\ execute_with_retry tool_func parameters ex w0
       = (Raise (RetryError e3),
          (mk (max_retries ex)
             (execution_history ex
              ++ [failure tool_func parameters w1 e1; failure tool_func parameters w2 e2;
                  failure tool_func parameters w3 e3]), w3)).
Proof.
  intros Hfails.
  destruct (always_fails_call tool_func parameters w0 Hfails) as (e1 & w1 & H1).
  destruct (always_fails_call tool_func parameters (backoff 1 w1) Hfails) as (e2 & w2 & H2).
  destruct (always_fails_call tool_func parameters (backoff 2 w2) Hfails) as (e3 & w3 & H3).
  exists e1, w1, e2, w2, e3, w3.
  repeat split; try assumption.
  now apply execute_with_retry_three_failures.
Qed.

(** C1, as the code has it.  Every attempt is recorded.  A tool that
    fails twice and then succeeds is called three times; the call returns
    the success value and appends three records: two with [success=false]
    and the errors of the failed attempts, then one with [success=true].
    A tool that fails at every attempt is called exactly three times; the
    call appends three records with [success=false] and raises tenacity's
    [RetryError] around the third error (no tool name travels with it). *)
Theorem execute_with_retry_records_every_attempt
  (tool_func : Tool W) (parameters : PyVal) (ex : t) (w0 : W) :
  (forall e1 w1 e2 w2 v w3,
      call tool_func parameters w0 = (Raise e1, w1) ->
      call tool_func parameters (backoff 1 w1) = (Raise e2, w2) ->
      call tool_func parameters (backoff 2 w2) = (Ok v, w3) ->
      execute_with_retry tool_func parameters ex w0
      = (Ok v,
         (mk (max_retries ex)
            (execution_history ex
             ++ [failure tool_func parameters w1 e1; failure tool_func parameters w2 e2;
                 success tool_func parameters w3 v]), w3)))
  /\ (always_fails tool_func parameters ->
      exists e1 w1 e2 w2 e3 w3,
        call tool_func parameters w0 = (Raise e1, w1)
        /\ call tool_func parameters (backoff 1 w1) = (Raise e2, w2)
        /\ call tool_func parameters (backoff 2 w2) = (Raise e3, w3)
        /\ execute_with_retry tool_func parameters ex w0
           = (Raise (RetryError e3),
              (mk (max_retries ex)
                 (execution_history ex
                  ++ [failure tool_func parameters w1 e1;
                      failure tool_func parameters w2 e2;
                      failure tool_func parameters w3 e3]), w3))).
Proof.
  split.
  - intros e1 w1 e2 w2 v w3. apply execute_with_retry_third_success.
  - apply execute_with_retry_always_fails.
Qed.

(** C7.  [execute_safe] returns a value whatever the tool does, and
    returns [default_value] when the tool fails at every attempt. *)
Theorem execute_safe_never_raises
  (tool_func : Tool W) (parameters default_value : PyVal) (ex : t) (w : W) :
  raised (fst (execute_safe tool_func parameters default_value ex w)) = false
  /\ (always_fails tool_func parameters ->
      fst (execute_safe tool_func parameters default_value ex w) = Ok default_value).
Proof.
  split.
  - unfold execute_safe.
    destruct (execute_with_retry tool_func parameters ex w) as [[v | e] s]; reflexivity.
  - intros Hfails. unfold execute_safe.
    destruct (execute_with_retry_always_fails tool_func parameters ex w Hfails)
      as (e1 & w1 & e2 & w2 & e3 & w3 & _ & _ & _ & Hraise).
    rewrite Hraise. reflexivity.
Qed.

End WithWorld.

(** *** A concrete world: the number of tool calls made so far *)

Definition counting_world : World nat := {|
  now := fun w => "t" +:+ NilZero.string_of_int (Z.to_int (Z.of_nat w));
  backoff := fun _ w => w
|}.

(** A tool that raises at its first two calls and returns afterwards. *)
Definition flaky : Tool nat :=
  mkTool nat "fetch" (fun _ w =>
    if (w <? 2)%nat then (Raise (PyExn "ConnectionError" "timed out"), S w)
    else (Ok (PStr "payload"), S w)).

(** A tool that raises at every call. *)
Definition broken : Tool nat :=
  mkTool nat "fetch" (fun _ w => (Raise (PyExn "ConnectionError" "timed out"), S w)).

(** The reading of C1 that the source does not satisfy: whatever number
    of attempts a call takes, the ledger grows by exactly one record, that
    of the final outcome, and exhaustion surfaces as a
    [ToolExecutionError]. *)
Definition records_final_outcome_only : Prop :=
  forall (W : Type) (HW : World W) (tool_func : Tool W) (parameters : PyVal)
         (ex : t) (w0 : W),
    (forall e1 w1 e2 w2 v w3,
        call tool_func parameters w0 = (Raise e1, w1) ->
        call tool_func parameters (backoff 1 w1) = (Raise e2, w2) ->
        call tool_func parameters (backoff 2 w2) = (Ok v, w3) ->
        exists rec w',
          execute_with_retry tool_func parameters ex w0
          = (Ok v, (mk (max_retries ex) (execution_history ex ++ [rec]), w'))
          /\ succeeded rec = Some true)
    /\ (always_fails tool_func parameters ->
        exists msg rec w',
          execute_with_retry tool_func parameters ex w0
          = (Raise (PyExn "ToolExecutionError" msg),
             (mk (max_retries ex) (execution_history ex ++ [rec]), w'))
          /\ succeeded rec = Some false).

Section OnCountingWorld.
#[local] Existing Instance counting_world.

(** The flaky tool leaves three records in the ledger, the broken tool
    three records and a [RetryError]. *)
Lemma records_final_outcome_only_fails : ~ records_final_outcome_only.
Proof.
  intros Hclaim.
  destruct (Hclaim nat counting_world flaky (PDict []) default 0%nat) as [Hflaky _].
  destruct (Hflaky (PyExn "ConnectionError" "timed out") 1%nat
              (PyExn "ConnectionError" "timed out") 2%nat (PStr "payload") 3%nat
              eq_refl eq_refl eq_refl) as (rec & w' & Hrun & _).
  vm_compute in Hrun. discriminate Hrun.
Qed.

Lemma execute_with_retry_records_every_attempt_witness :
  execute_with_retry flaky (PDict []) default 0%nat
  = (Ok (PStr "payload"),
     (mk 3 [failure flaky (PDict []) 1%nat (PyExn "ConnectionError" "timed out");
            failure flaky (PDict []) 2%nat (PyExn "ConnectionError" "timed out");
            success flaky (PDict []) 3%nat (PStr "payload")], 3%nat))
  /\ exists e1 w1 e2 w2 e3 w3,
       call broken (PDict []) 0%nat = (Raise e1, w1)
       /\ call broken (PDict []) (backoff 1 w1) = (Raise e2, w2)
       /\ call broken (PDict []) (backoff 2 w2) = (Raise e3, w3)
       /\ execute_with_retry broken (PDict []) default 0%nat
          = (Raise (RetryError e3),
             (mk 3 (execution_history default
                    ++ [failure broken (PDict []) w1 e1; failure broken (PDict []) w2 e2;
                        failure broken (PDict []) w3 e3]), w3)).
Proof.
  split.
  - apply (proj1 (execute_with_retry_records_every_attempt flaky (PDict []) default 0%nat)
             (PyExn "ConnectionError" "timed out") 1%nat
             (PyExn "ConnectionError" "timed out") 2%nat (PStr "payload") 3%nat);
      reflexivity.
  - apply (proj2 (execute_with_retry_records_every_attempt broken (PDict []) default 0%nat)).
    intros w. reflexivity.
Defined.

Lemma execute_safe_never_raises_witness :
  always_fails broken (PDict [])
  /\ raised (fst (execute_safe broken (PDict []) (PStr "fallback") default 0%nat)) = false
  /\ fst (execute_safe broken (PDict []) (PStr "fallback") default 0%nat)
     = Ok (PStr "fallback").
Proof.
  assert (Hfails : always_fails broken (PDict [])) by (intros w; reflexivity).
  split; [exact Hfails |].
  split.
  - apply (proj1 (execute_safe_never_raises broken (PDict []) (PStr "fallback")
                    default 0%nat)).
  - apply (proj2 (execute_safe_never_raises broken (PDict []) (PStr "fallback")
                    default 0%nat)).
    exact Hfails.
Defined.

End OnCountingWorld.

End ToolExecutorFacts.

(** ** planner.py *)

Module TaskPlannerFacts.

Import TaskPlanner.

(** The keyword categories in the words of the planner's contract: a
    membership test on the lowered goal, the tool it selects and the
    description of the step, in source order. *)
Definition categories : list ((string -> bool) * string * string) :=
  [ (any_in ["calculate"; "compute"; "+"; "-"; "*"; "/"; "sum"],
     "calculator", "Perform calculation");
    (any_in ["search"; "find"; "look up"; "research"],
     "web_search", "Search for information");
    (fun g => str_in "read" g && str_in "file" g,
     "file_read", "Read file contents");
    (fun g => str_in "write" g || str_in "save" g,
     "file_write", "Write to file");
    (any_in ["time"; "date"; "when"; "current"],
     "get_current_time", "Get current time");
    (str_in "weather", "weather", "Get weather information") ].

Definition matched (goal : string) : list ((string -> bool) * string * string) :=
  List.filter (fun c => fst (fst c) (lower goal)) categories.

(** One tool step per matched category, a think step when none matched,
    then the synthesize step. *)
Definition steps_by_category (goal : string) : list Step :=
  map (fun c => use_tool_step (snd (fst c)) (snd c)) (matched goal)
  ++ (match matched goal with [] => [think_step] | _ => [] end)
  ++ [synthesize_step].

Lemma decompose_goal_by_category goal tools :
  _decompose_goal goal tools = steps_by_category goal.
Proof.
  unfold _decompose_goal, steps_by_category, matched, categories.
  generalize (lower goal) as g. intros g.
  cbn [List.filter fst snd].
  destruct (any_in ["calculate"; "compute"; "+"; "-"; "*"; "/"; "sum"] g);
  destruct (any_in ["search"; "find"; "look up"; "research"] g);
  destruct (str_in "read" g && str_in "file" g);
  destruct (str_in "write" g || str_in "save" g);
  destruct (any_in ["time"; "date"; "when"; "current"] g);
  destruct (str_in "weather" g); reflexivity.
Qed.

Lemma think_step_action : think_step !! "action" = Some "think".
Proof. reflexivity. Qed.

Lemma use_tool_step_action tool description :
  use_tool_step tool description !! "action" = Some "use_tool".
Proof. reflexivity. Qed.


(** *** [update_plan_status] *)

Lemma update_plan_status_no_plan step_index new_status p :
  current_plan p = None ->
  update_plan_status step_index new_status p = Ok p.
Proof. intros Hnone. unfold update_plan_status. now rewrite Hnone. Qed.

Lemma update_plan_status_past_end step_index new_status p plan :
  current_plan p = Some plan ->
  Z.of_nat (length (steps plan)) <= step_index ->
  update_plan_status step_index new_status p = Ok p.
Proof.
  intros Hplan Hpast. unfold update_plan_status. rewrite Hplan.
  destruct (Z.ltb_spec step_index (Z.of_nat (length (steps plan)))); [lia | reflexivity].
Qed.

(** The plan after a status write at position [i]. *)
Definition with_status (i : nat) (new_status : string) (plan : Plan) : Plan :=
  mkPlan (goal plan)
    (alter (fun step => <["status" := new_status]> step) i (steps plan))
    (status plan).

Lemma update_plan_status_in_range step_index new_status p plan :
  current_plan p = Some plan ->
  0 <= step_index < Z.of_nat (length (steps plan)) ->
  update_plan_status step_index new_status p
  = Ok (mk (Some (with_status (Z.to_nat step_index) new_status plan))).
Proof.
  intros Hplan Hrange. unfold update_plan_status, norm_index. rewrite Hplan.
  destruct (Z.ltb_spec step_index (Z.of_nat (length (steps plan)))); [| lia].
  destruct (Z.leb_spec 0 step_index); [| lia]. reflexivity.
Qed.

(** A negative index down to [-len] passes the guard and addresses a
    step from the end. *)
Lemma update_plan_status_from_end step_index new_status p plan :
  current_plan p = Some plan ->
  - Z.of_nat (length (steps plan)) <= step_index < 0 ->
  update_plan_status step_index new_status p
  = Ok (mk (Some (with_status (Z.to_nat (Z.of_nat (length (steps plan)) + step_index))
                    new_status plan))).
Proof.
  intros Hplan Hrange. unfold update_plan_status, norm_index. rewrite Hplan.
  destruct (Z.ltb_spec step_index (Z.of_nat (length (steps plan)))); [| lia].
  destruct (Z.leb_spec 0 step_index); [lia |]. simpl.
  destruct (Z.ltb_spec step_index 0); [| lia].
  destruct (Z.leb_spec (- Z.of_nat (length (steps plan))) step_index); [| lia].
  reflexivity.
Qed.

(** An index below [-len] passes the guard too, and the subscript raises. *)
Lemma update_plan_status_below step_index new_status p plan :
  current_plan p = Some plan ->
  step_index < - Z.of_nat (length (steps plan)) ->
  update_plan_status step_index new_status p = Raise IndexError.
Proof.
  intros Hplan Hbelow. unfold update_plan_status, norm_index. rewrite Hplan.
  destruct (Z.ltb_spec step_index (Z.of_nat (length (steps plan)))); [| lia].
  destruct (Z.leb_spec 0 step_index); [lia |]. simpl.
  destruct (Z.ltb_spec step_index 0); [| lia].
  destruct (Z.leb_spec (- Z.of_nat (length (steps plan))) step_index); [lia |].
  reflexivity.
Qed.

(** A status write changes nothing but the [status] key of one step. *)
Lemma with_status_only_status i new_status plan :
  goal (with_status i new_status plan) = goal plan
  /\ status (with_status i new_status plan) = status plan
  /\ length (steps (with_status i new_status plan)) = length (steps plan)
  /\ (forall j, j <> i -> steps (with_status i new_status plan) !! j = steps plan !! j)
  /\ (forall step, steps plan !! i = Some step ->
        exists step', steps (with_status i new_status plan) !! i = Some step'
                      /\ step' !! "status" = Some new_status
                      /\ forall key, key <> "status" -> step' !! key = step !! key).
Proof.
  unfold with_status. simpl.
  split; [reflexivity |]. split; [reflexivity |].
  split; [apply length_alter |].
  split.
  - intros j Hne. now apply list_lookup_alter_ne.
  - intros step Hstep. exists (<["status" := new_status]> step).
    split; [now rewrite list_lookup_alter_eq, Hstep |].
    split; [apply lookup_insert_eq |].
    intros key Hkey. now apply lookup_insert_ne.
Qed.

(** C9.  On the two-step plan of a vague goal, [update_plan_status(-3, ...)]
    raises [IndexError] instead of leaving the plan alone: -3 is out of
    bounds, the guard [step_index < len(steps)] lets it through, and the
    subscript [steps[-3]] fails. *)
Theorem update_plan_status_below_range_raises :
  length (steps (fst (create_plan "Do something vague" (PDict []) init))) = 2%nat
  /\ update_plan_status (-3) "completed"
       (snd (create_plan "Do something vague" (PDict []) init))
     = Raise IndexError.
Proof. split; vm_compute; reflexivity. Qed.

End TaskPlannerFacts.

(** ** agent.py *)

Module AgenticAIFacts.

Import ToolRegistry AgenticAI SliceFacts.

(** *** Stores that the agent can work on *)

(** A message dict has a role and a content; a tool-use dict names a
    hashable tool.  Everything that [add_message] and the loop's
    [add_tool_use] append has this shape. *)
Definition is_message (v : PyVal) : bool :=
  negb (raised (subscript v "role")) && negb (raised (subscript v "content")).

Definition is_tool_record (v : PyVal) : bool :=
  match subscript v "tool" with
  | Ok tool_name => hashable tool_name
  | Raise _ => false
  end.

Definition well_formed (mem : Memory.t) : bool :=
  forallb is_message (Memory.messages mem)
  && forallb is_tool_record (Memory.tool_usage mem).

Lemma forallb_drop {A} (f : A -> bool) (n : nat) (l : list A) :
  forallb f l = true -> forallb f (drop n l) = true.
Proof.
  revert l. induction n as [| n IH]; intros [| x l] Hall; simpl; try assumption.
  apply IH. simpl in Hall. now apply andb_prop in Hall.
Qed.

Lemma forallb_slice_from {A} (f : A -> bool) (start : Z) (l : list A) :
  forallb f l = true -> forallb f (slice_from start l) = true.
Proof. intros Hall. unfold slice_from. destruct (start <? 0); now apply forallb_drop. Qed.

Lemma add_message_well_formed ts role content mem :
  well_formed mem = true ->
  well_formed (Memory.add_message ts role content mem) = true.
Proof.
  unfold well_formed. intros Hwf. apply andb_prop in Hwf as [Hmsgs Huses].
  apply andb_true_intro. split; [| exact Huses].
  assert (Happended :
    forallb is_message (Memory.messages mem ++ [Memory.message ts role content]) = true).
  { rewrite forallb_app, Hmsgs. reflexivity. }
  unfold Memory.add_message. simpl.
  destruct (_ >? _); [now apply forallb_slice_from | exact Happended].
Qed.

Lemma add_tool_use_well_formed ts tool_name input_params result mem :
  well_formed mem = true ->
  hashable tool_name = true ->
  well_formed (Memory.add_tool_use ts tool_name input_params result mem) = true.
Proof.
  unfold well_formed. intros Hwf Hhash. apply andb_prop in Hwf as [Hmsgs Huses].
  apply andb_true_intro. split; [exact Hmsgs |].
  simpl. rewrite forallb_app, Huses. simpl.
  unfold is_tool_record. simpl. now rewrite Hhash.
Qed.

(** With a bound that is not negative, the message just added is the last
    one of the list. *)
Lemma add_message_last ts role content mem :
  0 <= Memory.max_history mem ->
  last (Memory.messages (Memory.add_message ts role content mem))
  = Some (Memory.message ts role content).
Proof.
  intros Hbound. unfold Memory.add_message. simpl.
  set (appended := Memory.messages mem ++ [Memory.message ts role content]).
  assert (Hlast : last appended = Some (Memory.message ts role content))
    by apply last_snoc.
  destruct (Z.gtb_spec (Z.of_nat (length appended)) (Memory.max_history mem)) as [Hgt | _];
    [| exact Hlast].
  destruct (Z.eq_dec (Memory.max_history mem) 0) as [Hzero | Hpos].
  - rewrite Hzero. now rewrite slice_from_zero.
  - rewrite slice_from_neg by lia. unfold lastn.
    rewrite last_drop by (subst appended; rewrite length_app; simpl; lia).
    exact Hlast.
Qed.

Section WithEnvironment.
Context {W : Type} `{World W} `{Runtime} `{Oracle}.

Lemma format_history_ok (l : list PyVal) (acc : string) :
  forallb is_message l = true ->
  exists history, Memory.format_history l acc = Ok history.
Proof.
  revert acc. induction l as [| msg rest IH]; intros acc Hall; simpl.
  - now exists acc.
  - simpl in Hall. apply andb_prop in Hall as [Hmsg Hrest].
    unfold is_message in Hmsg. apply andb_prop in Hmsg as [Hrole Hcontent].
    unfold Memory.history_line.
    destruct (subscript msg "role") as [role | e]; [| discriminate].
    destruct (subscript msg "content") as [content | e]; [| discriminate].
    simpl. now apply IH.
Qed.

Lemma build_context_ok goal plan mem :
  well_formed mem = true ->
  exists context, _build_context goal plan mem = Ok context.
Proof.
  intros Hwf. unfold well_formed in Hwf. apply andb_prop in Hwf as [Hmsgs _].
  unfold _build_context, Memory.get_recent_history.
  destruct (format_history_ok (Memory.recent 5 mem) EmptyString) as [history Hhistory].
  { unfold Memory.recent. destruct (_ >? _); [now apply forallb_slice_from | exact Hmsgs]. }
  rewrite Hhistory. simpl. eauto.
Qed.

Lemma tool_names_ok (records : list PyVal) :
  forallb is_tool_record records = true ->
  exists names, Memory.tool_names records = Ok names
                /\ forallb hashable names = true.
Proof.
  induction records as [| record rest IH]; intros Hall; simpl.
  - now exists [].
  - simpl in Hall. apply andb_prop in Hall as [Hrecord Hrest].
    unfold is_tool_record in Hrecord.
    destruct (subscript record "tool") as [tool_name | e]; [| discriminate].
    destruct (IH Hrest) as (names & Hnames & Hhash).
    simpl. rewrite Hnames. simpl. exists (tool_name :: names).
    split; [reflexivity |]. simpl. now rewrite Hrecord, Hhash.
Qed.

Lemma get_tools_used_ok mem :
  well_formed mem = true ->
  exists used, Memory.get_tools_used mem = Ok used.
Proof.
  intros Hwf. unfold well_formed in Hwf. apply andb_prop in Hwf as [_ Huses].
  destruct (tool_names_ok _ Huses) as (names & Hnames & Hhash).
  unfold Memory.get_tools_used. rewrite Hnames. simpl. rewrite Hhash. eauto.
Qed.

(** *** Decisions *)

(** The action that [_decide_next_action] makes of a reply text. *)
Definition decision (decision_text : string) : PyVal :=
  match json_loads decision_text with
  | Some action => action
  | None => think decision_text
  end.

(** An action that one pass of the loop handles without raising and
    without leaving the loop: a dict with a [type] other than ["complete"];
    a [use_tool] action has a hashable [tool] and an [input], a [think]
    action has a [thought]; any other type is passed over. *)
Definition keeps_going (action : PyVal) : bool :=
  match subscript action "type" with
  | Raise _ => false
  | Ok type =>
      if eq_str type "complete" then false
      else if eq_str type "use_tool" then
        match subscript action "tool", subscript action "input" with
        | Ok tool_name, Ok _ => hashable tool_name
        | _, _ => false
        end
      else if eq_str type "think" then negb (raised (subscript action "thought"))
      else true
  end.

(** The result that a complete action carries. *)
Definition completion (action : PyVal) : option PyVal :=
  match subscript action "type" with
  | Ok type =>
      if eq_str type "complete" then
        match subscript action "result" with
        | Ok final_result => Some final_result
        | Raise _ => None
        end
      else None
  | Raise _ => None
  end.

Lemma decide_next_action_ok k goal plan mem :
  well_formed mem = true ->
  exists context,
    _build_context goal plan mem = Ok context
    /\ _decide_next_action k goal plan mem = Ok (decision (oracle k context)).
Proof.
  intros Hwf. destruct (build_context_ok goal plan mem Hwf) as [context Hcontext].
  exists context. split; [exact Hcontext |].
  unfold _decide_next_action, decision. rewrite Hcontext. simpl.
  destruct (json_loads (oracle k context)); reflexivity.
Qed.

Lemma execute_hashable tool_name parameters w :
  hashable tool_name = true ->
  exists tool_result w',
    ToolRegistry.execute tool_name parameters w = (Ok tool_result, w').
Proof.
  intros Hhash. unfold ToolRegistry.execute.
  destruct tool_name as [| b | z | bits | n | l | kvs]; try discriminate;
    cbn [hashable negb]; try (do 2 eexists; reflexivity).
  destruct (existsb (String.eqb n) tool_names); [| do 2 eexists; reflexivity].
  destruct (run_tool n parameters w) as [[tool_result | e] w'];
    do 2 eexists; reflexivity.
Qed.

(** *** The loop *)

(** One pass on an action that keeps going: the counter goes up by one,
    the store stays well formed and keeps its bound. *)
Lemma loop_pass max goal plan iteration mem w :
  well_formed mem = true ->
  0 <= iteration < max ->
  (forall context, keeps_going (decision (oracle (Z.to_nat iteration) context)) = true) ->
  exists mem' w',
    well_formed mem' = true
    /\ Memory.max_history mem' = Memory.max_history mem
    /\ forall fuel,
        loop (S fuel) max goal plan iteration mem w
        = loop fuel max goal plan (iteration + 1) mem' w'.
Proof.
  intros Hwf Hrange Hkeeps.
  destruct (decide_next_action_ok (Z.to_nat iteration) goal plan mem Hwf)
    as (context & _ & Hdecide).
  specialize (Hkeeps context). unfold keeps_going in Hkeeps.
  set (action := decision (oracle (Z.to_nat iteration) context)) in *.
  destruct (subscript action "type") as [type | e] eqn:Htype; [| discriminate].
  destruct (eq_str type "complete") eqn:Hcomplete; [discriminate |].
  destruct (eq_str type "use_tool") eqn:Huse.
  - destruct (subscript action "tool") as [tool_name | e] eqn:Htool; [| discriminate].
    destruct (subscript action "input") as [tool_input | e] eqn:Hinput; [| discriminate].
    destruct (execute_hashable tool_name tool_input w Hkeeps)
      as (tool_result & w' & Hexecute).
    exists (Memory.add_tool_use (now w') tool_name tool_input tool_result mem), w'.
    split; [now apply add_tool_use_well_formed |]. split; [reflexivity |].
    intros fuel. cbn [loop].
    destruct (Z.ltb_spec iteration max); [| lia].
    replace (iteration + 1 - 1) with iteration by lia.
    rewrite Hdecide. fold action.
    rewrite Htype, Hcomplete, Huse, Htool, Hinput, Hexecute. reflexivity.
  - destruct (eq_str type "think") eqn:Hthink.
    + destruct (subscript action "thought") as [thought | e] eqn:Hthought; [| discriminate].
      exists (Memory.add_message (now w) (PStr "assistant") thought mem), w.
      split; [now apply add_message_well_formed |]. split; [reflexivity |].
      intros fuel. cbn [loop].
      destruct (Z.ltb_spec iteration max); [| lia].
      replace (iteration + 1 - 1) with iteration by lia.
      rewrite Hdecide. fold action.
      rewrite Htype, Hcomplete, Huse, Hthink, Hthought. reflexivity.
    + exists mem, w. split; [exact Hwf |]. split; [reflexivity |].
      intros fuel. cbn [loop].
      destruct (Z.ltb_spec iteration max); [| lia].
      replace (iteration + 1 - 1) with iteration by lia.
      rewrite Hdecide. fold action.
      rewrite Htype, Hcomplete, Huse, Hthink. reflexivity.
Qed.

(** [passes] passes in a row on actions that keep going. *)
Lemma loop_passes max goal plan (passes : nat) :
  forall iteration mem w,
    well_formed mem = true ->
    0 <= iteration ->
    iteration + Z.of_nat passes <= max ->
    (forall k context,
        (Z.to_nat iteration <= k < Z.to_nat iteration + passes)%nat ->
        keeps_going (decision (oracle k context)) = true) ->
    exists mem' w',
      well_formed mem' = true
      /\ Memory.max_history mem' = Memory.max_history mem
      /\ forall fuel,
          loop (passes + fuel) max goal plan iteration mem w
          = loop fuel max goal plan (iteration + Z.of_nat passes) mem' w'.
Proof.
  induction passes as [| passes IH]; intros iteration mem w Hwf Hlow Hhigh Hkeeps.
  - exists mem, w. split; [exact Hwf |]. split; [reflexivity |].
    intros fuel. simpl. now rewrite Z.add_0_r.
  - destruct (loop_pass max goal plan iteration mem w Hwf) as (mem1 & w1 & Hwf1 & Hmax1 & Hpass).
    { lia. }
    { intros context. apply Hkeeps. lia. }
    destruct (IH (iteration + 1) mem1 w1 Hwf1) as (mem' & w' & Hwf' & Hmax' & Hrest).
    { lia. }
    { lia. }
    { intros k context Hk. apply Hkeeps. lia. }
    exists mem', w'. split; [exact Hwf' |]. split; [congruence |].
    intros fuel. change (S passes + fuel)%nat with (S (passes + fuel)).
    rewrite Hpass, Hrest. f_equal. lia.
Qed.

(** The loop test fails once the counter has reached the budget. *)
Lemma loop_exit max goal plan iteration mem w fuel :
  max <= iteration ->
  loop (S fuel) max goal plan iteration mem w = Some (Ok (iteration, PNone, mem, w)).
Proof.
  intros Hdone. cbn [loop]. destruct (Z.ltb_spec iteration max); [lia | reflexivity].
Qed.

(** A pass on a complete action leaves the loop with the action's result. *)
Lemma loop_complete max goal plan iteration mem w fuel final_result :
  well_formed mem = true ->
  0 <= iteration < max ->
  (forall context,
      completion (decision (oracle (Z.to_nat iteration) context)) = Some final_result) ->
  loop (S fuel) max goal plan iteration mem w
  = Some (Ok (iteration + 1, final_result, mem, w)).
Proof.
  intros Hwf Hrange Hcompletes.
  destruct (decide_next_action_ok (Z.to_nat iteration) goal plan mem Hwf)
    as (context & _ & Hdecide).
  specialize (Hcompletes context). unfold completion in Hcompletes.
  cbn [loop]. destruct (Z.ltb_spec iteration max); [| lia].
  replace (iteration + 1 - 1) with iteration by lia.
  rewrite Hdecide.
  destruct (subscript _ "type") as [type | e]; [| discriminate].
  destruct (eq_str type "complete"); [| discriminate].
  destruct (subscript _ "result") as [r | e]; [| discriminate].
  now inversion Hcompletes.
Qed.

(** The fuel that [execute] hands to the loop is never used up: the loop
    ends by its own test, by a complete action or by an exception. *)
Lemma loop_total max goal plan (fuel : nat) :
  forall iteration mem w,
    (Z.to_nat (max - iteration) < fuel)%nat ->
    loop fuel max goal plan iteration mem w <> None.
Proof.
  induction fuel as [| fuel IH]; intros iteration mem w Hfuel; [lia |].
  cbn [loop]. destruct (Z.ltb_spec iteration max); [| discriminate].
  assert (Hnext : forall mem' w',
             loop fuel max goal plan (iteration + 1) mem' w' <> None)
    by (intros mem' w'; apply IH; lia).
  destruct (_decide_next_action _ goal plan mem) as [action | e]; [| discriminate].
  destruct (subscript action "type") as [type | e]; [| discriminate].
  destruct (eq_str type "complete").
  { destruct (subscript action "result"); discriminate. }
  destruct (eq_str type "use_tool").
  { destruct (subscript action "tool") as [tool_name | e]; [| discriminate].
    destruct (subscript action "input") as [tool_input | e]; [| discriminate].
    destruct (ToolRegistry.execute tool_name tool_input w) as [[tool_result | e] w'];
      [apply Hnext | discriminate]. }
  destruct (eq_str type "think"); [| apply Hnext].
  destruct (subscript action "thought"); [apply Hnext | discriminate].
Qed.

Lemma execute_total goal a w : execute goal a w <> None.
Proof.
  unfold execute. cbv zeta.
  pose proof (loop_total (max_iterations a) goal
                (fst (TaskPlanner.create_plan goal get_tool_descriptions (planner a)))
                (S (Z.to_nat (max_iterations a))) 0
                (Memory.add_message (now w) (PStr "user") (PStr goal) (memory a)) w)
    as Htotal.
  destruct (loop _ _ _ _ _ _ _) as [[[[[iteration final_result] mem'] w'] | e] |].
  - match goal with
    | |- context [Memory.get_tools_used ?m] => destruct (Memory.get_tools_used m)
    end; discriminate.
  - discriminate.
  - exfalso. apply Htotal; [| reflexivity].
    rewrite Z.sub_0_r. lia.
Qed.

(** *** Well-formed stores are an invariant of the agent *)

Lemma execute_ok_hashable tool_name parameters w tool_result w' :
  ToolRegistry.execute tool_name parameters w = (Ok tool_result, w') ->
  hashable tool_name = true.
Proof.
  unfold ToolRegistry.execute.
  destruct (hashable tool_name); [reflexivity | discriminate].
Qed.

Lemma loop_well_formed max goal plan (fuel : nat) :
  forall iteration mem w iteration' final_result mem' w',
    well_formed mem = true ->
    loop fuel max goal plan iteration mem w
    = Some (Ok (iteration', final_result, mem', w')) ->
    well_formed mem' = true
    /\ Memory.max_history mem' = Memory.max_history mem.
Proof.
  induction fuel as [| fuel IH];
    intros iteration mem w iteration' final_result mem' w' Hwf Hloop;
    [discriminate |].
  cbn [loop] in Hloop.
  destruct (iteration <? max); [| inversion Hloop; subst; now split].
  destruct (_decide_next_action _ goal plan mem) as [action | e]; [| discriminate].
  destruct (subscript action "type") as [type | e]; [| discriminate].
  destruct (eq_str type "complete").
  { destruct (subscript action "result"); [| discriminate].
    inversion Hloop; subst. now split. }
  destruct (eq_str type "use_tool").
  { destruct (subscript action "tool") as [tool_name | e]; [| discriminate].
    destruct (subscript action "input") as [tool_input | e]; [| discriminate].
    destruct (ToolRegistry.execute tool_name tool_input w) as [[tool_result | e] w1]
      eqn:Hexecute; [| discriminate].
    apply IH in Hloop; [exact Hloop |].
    apply add_tool_use_well_formed; [exact Hwf |].
    now apply execute_ok_hashable in Hexecute. }
  destruct (eq_str type "think"); [| now apply IH in Hloop].
  destruct (subscript action "thought") as [thought | e]; [| discriminate].
  apply IH in Hloop; [exact Hloop |]. now apply add_message_well_formed.
Qed.

(** A run that returns leaves a well-formed store with the same bound
    and the same budget; a fresh agent has one, and [reset] keeps it. *)
Lemma execute_well_formed goal a w res a' w' :
  well_formed (memory a) = true ->
  execute goal a w = Some (Ok (res, a', w')) ->
  well_formed (memory a') = true
  /\ Memory.max_history (memory a') = Memory.max_history (memory a)
  /\ max_iterations a' = max_iterations a.
Proof.
  intros Hwf Hexecute. unfold execute in Hexecute. cbv zeta in Hexecute.
  destruct (loop _ _ _ _ _ _ _) as [[[[[iteration final_result] mem1] w1] | e] |] eqn:Hloop;
    try discriminate.
  apply loop_well_formed in Hloop as [Hwf1 Hbound1];
    [| now apply add_message_well_formed].
  match type of Hexecute with
  | context [Memory.get_tools_used ?m] => destruct (Memory.get_tools_used m)
  end; [| discriminate].
  inversion Hexecute; subst. simpl.
  split; [now apply add_message_well_formed |].
  split; [exact Hbound1 | reflexivity].
Qed.

Lemma init_well_formed max_iterations : well_formed (memory (init max_iterations)) = true.
Proof. reflexivity. Qed.

Lemma reset_well_formed a : well_formed (memory (reset a)) = true.
Proof. reflexivity. Qed.

(** *** [execute] *)

(** [final_result] after the [if final_result is None] statement. *)
Definition or_exhausted (final_result : PyVal) : PyVal :=
  match final_result with
  | PNone => PStr exhausted
  | _ => final_result
  end.

(** The store on which the loop starts. *)
Definition with_goal (goal : string) (a : t) (w : W) : Memory.t :=
  Memory.add_message (now w) (PStr "user") (PStr goal) (memory a).

(** What [execute] makes of the state in which the loop is left. *)
Lemma execute_after_loop goal a w iteration final_result mem' w' :
  loop (S (Z.to_nat (max_iterations a))) (max_iterations a) goal
    (fst (TaskPlanner.create_plan goal get_tool_descriptions (planner a)))
    0 (with_goal goal a w) w
  = Some (Ok (iteration, final_result, mem', w')) ->
  well_formed mem' = true ->
  exists used,
    execute goal a w
    = Some (Ok (mkResult (iteration <? max_iterations a) (or_exhausted final_result)
                  iteration used,
                mk (max_iterations a)
                  (Memory.add_message (now w') (PStr "assistant")
                     (PStr (py_str (or_exhausted final_result))) mem')
                  (snd (TaskPlanner.create_plan goal get_tool_descriptions (planner a))),
                w')).
Proof.
  intros Hloop Hwf.
  destruct (get_tools_used_ok
              (Memory.add_message (now w') (PStr "assistant")
                 (PStr (py_str (or_exhausted final_result))) mem'))
    as [used Hused]; [now apply add_message_well_formed |].
  exists used. unfold execute, with_goal in *. simpl in Hloop |- *.
  rewrite Hloop. unfold or_exhausted in *. rewrite Hused. reflexivity.
Qed.

(** The loop leaves after [n] passes: [n - 1] that keep going and one on
    a complete action. *)
Lemma execute_completes_at goal a w (n : Z) final_result :
  well_formed (memory a) = true ->
  1 <= n <= max_iterations a ->
  final_result <> PNone ->
  (forall k context,
      (k < Z.to_nat (n - 1))%nat -> keeps_going (decision (oracle k context)) = true) ->
  (forall context,
      completion (decision (oracle (Z.to_nat (n - 1)) context)) = Some final_result) ->
  exists used a' w',
    execute goal a w
    = Some (Ok (mkResult (n <? max_iterations a) final_result n used, a', w')).
Proof.
  intros Hwf Hn Hresult Hkeeps Hcompletes.
  set (plan := fst (TaskPlanner.create_plan goal get_tool_descriptions (planner a))).
  assert (Hwf0 : well_formed (with_goal goal a w) = true)
    by now apply add_message_well_formed.
  destruct (loop_passes (max_iterations a) goal plan (Z.to_nat (n - 1)) 0
              (with_goal goal a w) w Hwf0) as (mem' & w' & Hwf' & _ & Hpasses).
  { lia. }
  { lia. }
  { intros k context Hk. apply Hkeeps. simpl in Hk. lia. }
  assert (Hloop :
    loop (S (Z.to_nat (max_iterations a))) (max_iterations a) goal plan 0
      (with_goal goal a w) w
    = Some (Ok (n, final_result, mem', w'))).
  { replace (S (Z.to_nat (max_iterations a)))
      with (Z.to_nat (n - 1) + S (Z.to_nat (max_iterations a - n + 1)))%nat by lia.
    rewrite Hpasses.
    rewrite (loop_complete _ _ _ _ _ _ _ final_result Hwf').
    - repeat f_equal. lia.
    - lia.
    - intros context. replace (Z.to_nat (0 + Z.of_nat (Z.to_nat (n - 1))))
        with (Z.to_nat (n - 1)) by lia. apply Hcompletes. }
  destruct (execute_after_loop goal a w n final_result mem' w' Hloop Hwf')
    as [used Hexecute].
  exists used. do 2 eexists. rewrite Hexecute.
  destruct final_result; try reflexivity. congruence.
Qed.

(** *** What the passes leave behind *)

(** What a pass does with an action that keeps the loop going, as the
    contract has it: a think action appends its thought to the messages
    under the assistant role; a use_tool action runs the named tool with
    the given input through the registry and appends the tool, the input
    and the outcome to the tool log; an action of any other type changes
    nothing.  [None]: the action does not keep the loop going. *)
Definition effect (action : PyVal) (mem : Memory.t) (w : W) : option (Memory.t * W) :=
  if keeps_going action then
    match subscript action "type" with
    | Ok type =>
        if eq_str type "think" then
          match subscript action "thought" with
          | Ok thought =>
              Some (Memory.add_message (now w) (PStr "assistant") thought mem, w)
          | Raise _ => None
          end
        else if eq_str type "use_tool" then
          match subscript action "tool", subscript action "input" with
          | Ok tool_name, Ok tool_input =>
              match ToolRegistry.execute tool_name tool_input w with
              | (Ok tool_result, w') =>
                  Some (Memory.add_tool_use (now w') tool_name tool_input tool_result mem,
                        w')
              | (Raise _, _) => None
              end
          | _, _ => None
          end
        else Some (mem, w)
    | Raise _ => None
    end
  else None.

(** The store and the world after [n] passes that start with request
    number [k]: each pass takes its decision from the store as the pass
    before left it. *)
Fixpoint passes (n k : nat) (goal : string) (plan : TaskPlanner.Plan)
  (mem : Memory.t) (w : W) : option (Memory.t * W) :=
  match n with
  | O => Some (mem, w)
  | S n' =>
      match _decide_next_action k goal plan mem with
      | Ok action =>
          match effect action mem w with
          | Some (mem', w') => passes n' (S k) goal plan mem' w'
          | None => None
          end
      | Raise _ => None
      end
  end.

Lemma eq_str_think_not_use_tool (type : PyVal) :
  eq_str type "think" = true -> eq_str type "use_tool" = false.
Proof.
  destruct type as [| b | z | bits | s | l | kvs]; try discriminate.
  simpl. intros Hthink. apply String.eqb_eq in Hthink. now subst s.
Qed.

(** One pass of the loop on a decision that keeps going has that effect. *)
Lemma loop_pass_effect max goal plan iteration mem w action :
  0 <= iteration < max ->
  _decide_next_action (Z.to_nat iteration) goal plan mem = Ok action ->
  keeps_going action = true ->
  exists mem' w',
    effect action mem w = Some (mem', w')
    /\ (well_formed mem = true -> well_formed mem' = true)
    /\ Memory.max_history mem' = Memory.max_history mem
    /\ forall fuel,
         loop (S fuel) max goal plan iteration mem w
         = loop fuel max goal plan (iteration + 1) mem' w'.
Proof.
  intros Hrange Hdecide Hkeeps.
  assert (Hstep : forall fuel,
    loop (S fuel) max goal plan iteration mem w
    = match subscript action "type" with
      | Raise e => Some (Raise e)
      | Ok type =>
          if eq_str type "complete" then
            match subscript action "result" with
            | Raise e => Some (Raise e)
            | Ok final_result => Some (Ok (iteration + 1, final_result, mem, w))
            end
          else if eq_str type "use_tool" then
            match subscript action "tool" with
            | Raise e => Some (Raise e)
            | Ok tool_name =>
                match subscript action "input" with
                | Raise e => Some (Raise e)
                | Ok tool_input =>
                    match ToolRegistry.execute tool_name tool_input w with
                    | (Raise e, _) => Some (Raise e)
                    | (Ok tool_result, w') =>
                        loop fuel max goal plan (iteration + 1)
                          (Memory.add_tool_use (now w') tool_name tool_input
                             tool_result mem) w'
                    end
                end
            end
          else if eq_str type "think" then
            match subscript action "thought" with
            | Raise e => Some (Raise e)
            | Ok thought =>
                loop fuel max goal plan (iteration + 1)
                  (Memory.add_message (now w) (PStr "assistant") thought mem) w
            end
          else loop fuel max goal plan (iteration + 1) mem w
      end).
  { intros fuel. cbn [loop]. destruct (Z.ltb_spec iteration max); [| lia].
    replace (iteration + 1 - 1) with iteration by lia.
    rewrite Hdecide. reflexivity. }
  unfold effect. rewrite Hkeeps. unfold keeps_going in Hkeeps.
  destruct (subscript action "type") as [type | e] eqn:Htype; [| discriminate].
  destruct (eq_str type "complete") eqn:Hcomplete; [discriminate |].
  destruct (eq_str type "think") eqn:Hthink.
  - rewrite (eq_str_think_not_use_tool type Hthink) in *.
    destruct (subscript action "thought") as [thought | e] eqn:Hthought; [| discriminate].
    do 2 eexists. split; [reflexivity |].
    split; [intros Hwf; now apply add_message_well_formed |].
    split; [reflexivity |].
    intros fuel. rewrite Hstep. reflexivity.
  - destruct (eq_str type "use_tool") eqn:Huse.
    + destruct (subscript action "tool") as [tool_name | e] eqn:Htool; [| discriminate].
      destruct (subscript action "input") as [tool_input | e] eqn:Hinput; [| discriminate].
      destruct (execute_hashable tool_name tool_input w Hkeeps)
        as (tool_result & w' & Hexecute).
      rewrite Hexecute. do 2 eexists. split; [reflexivity |].
      split; [intros Hwf; now apply add_tool_use_well_formed |].
      split; [reflexivity |].
      intros fuel. rewrite Hstep, Hexecute. reflexivity.
    + do 2 eexists. split; [reflexivity |]. split; [auto |]. split; [reflexivity |].
      intros fuel. rewrite Hstep. reflexivity.
Qed.

(** [n] passes of the loop in a row on decisions that keep going. *)
Lemma loop_runs_passes max goal plan (n : nat) :
  forall iteration mem w,
    well_formed mem = true ->
    0 <= iteration ->
    iteration + Z.of_nat n <= max ->
    (forall k context,
        (Z.to_nat iteration <= k < Z.to_nat iteration + n)%nat ->
        keeps_going (decision (oracle k context)) = true) ->
    exists mem' w',
      passes n (Z.to_nat iteration) goal plan mem w = Some (mem', w')
      /\ well_formed mem' = true
      /\ Memory.max_history mem' = Memory.max_history mem
      /\ forall fuel,
           loop (n + fuel) max goal plan iteration mem w
           = loop fuel max goal plan (iteration + Z.of_nat n) mem' w'.
Proof.
  induction n as [| n IH]; intros iteration mem w Hwf Hlow Hhigh Hkeeps.
  - exists mem, w. split; [reflexivity |]. split; [exact Hwf |]. split; [reflexivity |].
    intros fuel. simpl. now rewrite Z.add_0_r.
  - destruct (decide_next_action_ok (Z.to_nat iteration) goal plan mem Hwf)
      as (context & _ & Hdecide).
    destruct (loop_pass_effect max goal plan iteration mem w _ ltac:(lia) Hdecide)
      as (mem1 & w1 & Heffect & Hwf1 & Hmax1 & Hpass).
    { apply Hkeeps. lia. }
    destruct (IH (iteration + 1) mem1 w1 (Hwf1 Hwf)) as (mem' & w' & Hrest & Hwf' & Hmax' & Hloop).
    { lia. }
    { lia. }
    { intros k context' Hk. apply Hkeeps. lia. }
    exists mem', w'. split.
    { cbn [passes]. rewrite Hdecide, Heffect.
      replace (S (Z.to_nat iteration)) with (Z.to_nat (iteration + 1)) by lia.
      exact Hrest. }
    split; [exact Hwf' |]. split; [congruence |].
    intros fuel. change (S n + fuel)%nat with (S (n + fuel)).
    rewrite Hpass, Hloop. f_equal. lia.
Qed.

(** C2.  When every reply of the run is an action that keeps the loop
    going (never a complete action), [execute] makes exactly
    [max_iterations] passes, each with the effect of its action on the
    store and the world that the pass before left, and then returns
    [success = false] with the fixed exhausted text as its result; the
    memory it leaves is the store after these passes with that text
    appended as its last message, under the assistant role, and
    [tools_used] is read from it. *)
Theorem execute_exhausts_budget (goal : string) (a : t) (w : W) :
  well_formed (memory a) = true ->
  0 <= Memory.max_history (memory a) ->
  0 <= max_iterations a ->
  (forall k context,
      (k < Z.to_nat (max_iterations a))%nat ->
      keeps_going (decision (oracle k context)) = true) ->
  exists mem w' used,
    passes (Z.to_nat (max_iterations a)) 0 goal
      (fst (TaskPlanner.create_plan goal get_tool_descriptions (planner a)))
      (with_goal goal a w) w
    = Some (mem, w')
    /\ Memory.get_tools_used
         (Memory.add_message (now w') (PStr "assistant") (PStr exhausted) mem)
       = Ok used
    /\ execute goal a w
       = Some (Ok (mkResult false (PStr exhausted) (max_iterations a) used,
                   mk (max_iterations a)
                     (Memory.add_message (now w') (PStr "assistant") (PStr exhausted) mem)
                     (snd (TaskPlanner.create_plan goal get_tool_descriptions (planner a))),
                   w'))
    /\ last (Memory.messages
               (Memory.add_message (now w') (PStr "assistant") (PStr exhausted) mem))
       = Some (Memory.message (now w') (PStr "assistant") (PStr exhausted)).
Proof.
  intros Hwf Hbound Hbudget Hkeeps.
  set (plan := fst (TaskPlanner.create_plan goal get_tool_descriptions (planner a))).
  assert (Hwf0 : well_formed (with_goal goal a w) = true)
    by now apply add_message_well_formed.
  destruct (loop_runs_passes (max_iterations a) goal plan (Z.to_nat (max_iterations a)) 0
              (with_goal goal a w) w Hwf0)
    as (mem' & w' & Hpasses & Hwf' & Hbound' & Hloop).
  { lia. }
  { lia. }
  { intros k context Hk. apply Hkeeps. simpl in Hk. lia. }
  assert (Hexit :
    loop (S (Z.to_nat (max_iterations a))) (max_iterations a) goal plan 0
      (with_goal goal a w) w
    = Some (Ok (max_iterations a, PNone, mem', w'))).
  { replace (S (Z.to_nat (max_iterations a)))
      with (Z.to_nat (max_iterations a) + 1)%nat by lia.
    rewrite Hloop, loop_exit by lia. repeat f_equal. lia. }
  destruct (get_tools_used_ok
              (Memory.add_message (now w') (PStr "assistant") (PStr exhausted) mem'))
    as [used Hused]; [now apply add_message_well_formed |].
  exists mem', w', used.
  split; [exact Hpasses |]. split; [exact Hused |]. split.
  - destruct (execute_after_loop goal a w _ _ mem' w' Hexit Hwf') as [used' Hexecute].
    rewrite Hexecute. cbn [or_exhausted py_str]. rewrite Z.ltb_irrefl.
    unfold execute in Hexecute. cbv zeta in Hexecute. fold plan in Hexecute.
    unfold with_goal in Hexit. rewrite Hexit in Hexecute.
    cbn [py_str] in Hexecute. rewrite Hused in Hexecute.
    injection Hexecute as Hsame. now rewrite <- Hsame.
  - apply add_message_last. rewrite Hbound'. exact Hbound.
Qed.

(** C10.  When the first complete action of the run comes on pass number
    [max_iterations], [execute] returns that action's result with
    [iterations = max_iterations] and [success = false]. *)
Theorem execute_completes_on_last_pass (goal : string) (a : t) (w : W)
  (final_result : PyVal) :
  well_formed (memory a) = true ->
  1 <= max_iterations a ->
  final_result <> PNone ->
  (forall k context,
      (k < Z.to_nat (max_iterations a - 1))%nat ->
      keeps_going (decision (oracle k context)) = true) ->
  (forall context,
      completion (decision (oracle (Z.to_nat (max_iterations a - 1)) context))
      = Some final_result) ->
  exists used a' w',
    execute goal a w
    = Some (Ok (mkResult false final_result (max_iterations a) used, a', w')).
Proof.
  intros Hwf Hbudget Hresult Hkeeps Hcompletes.
  destruct (execute_completes_at goal a w (max_iterations a) final_result)
    as (used & a' & w' & Hexecute); try assumption; [lia |].
  exists used, a', w'. rewrite Hexecute, Z.ltb_irrefl. reflexivity.
Qed.

(** C4.  On a well-formed store the context is built, and when the
    oracle's reply to it is not JSON, [_decide_next_action] returns the
    think action whose thought is the reply text; the loop handles that
    action without raising. *)
Theorem decide_next_action_malformed_reply (k : nat) (goal : string)
  (plan : TaskPlanner.Plan) (mem : Memory.t) :
  well_formed mem = true ->
  exists context,
    _build_context goal plan mem = Ok context
    /\ (json_loads (oracle k context) = None ->
        _decide_next_action k goal plan mem = Ok (think (oracle k context))
        /\ subscript (think (oracle k context)) "type" = Ok (PStr "think")
        /\ subscript (think (oracle k context)) "thought" = Ok (PStr (oracle k context))
        /\ keeps_going (think (oracle k context)) = true).
Proof.
  intros Hwf.
  destruct (decide_next_action_ok k goal plan mem Hwf) as (context & Hcontext & Hdecide).
  exists context. split; [exact Hcontext |].
  intros Hmalformed. unfold decision in Hdecide. rewrite Hmalformed in Hdecide.
  repeat split; try reflexivity. exact Hdecide.
Qed.

End WithEnvironment.

(** *** Concrete runs *)

(** A world in which the clock stands still and every tool answers with
    the same text; the state counts the tool calls. *)
Definition still_world : World nat := {|
  now := fun _ => "2024-01-01T10:00:00";
  run_tool := fun _ _ w => (Ok (PStr "Result: 4"), S w)
|}.

Definition think_action : PyVal :=
  PDict [("type", PStr "think"); ("thought", PStr "x")].

Definition complete_action : PyVal :=
  PDict [("type", PStr "complete"); ("result", PStr "42")].

(** An oracle that always replies with the JSON text of [think_action]. *)
Definition always_think : Oracle := {|
  oracle := fun _ _ => Sample.write 0 think_action
|}.

(** An oracle that thinks once and then completes with ["42"]. *)
Definition think_then_complete : Oracle := {|
  oracle := fun k _ =>
    match k with
    | O => Sample.write 0 think_action
    | _ => Sample.write 0 complete_action
    end
|}.

(** An oracle that completes at once. *)
Definition complete_at_once : Oracle := {|
  oracle := fun _ _ => Sample.write 0 complete_action
|}.

(** An oracle that replies in prose. *)
Definition rambling : Oracle := {|
  oracle := fun _ _ => "I should add the two numbers first."
|}.

Section AlwaysThink.
#[local] Existing Instance still_world.
#[local] Existing Instance Sample.runtime.
#[local] Existing Instance always_think.

Lemma execute_exhausts_budget_witness :
  well_formed (memory (init 1)) = true
  /\ 0 <= Memory.max_history (memory (init 1))
  /\ 0 <= max_iterations (init 1)
  /\ exists a',
       execute "Do something vague" (init 1) 0%nat
       = Some (Ok (mkResult false (PStr exhausted) 1 [], a', 0%nat))
       /\ Memory.messages (memory a')
          = [Memory.message "2024-01-01T10:00:00" (PStr "user") (PStr "Do something vague");
             Memory.message "2024-01-01T10:00:00" (PStr "assistant") (PStr "x");
             Memory.message "2024-01-01T10:00:00" (PStr "assistant") (PStr exhausted)].
Proof.
  split; [reflexivity |]. split; [simpl; lia |]. split; [simpl; lia |].
  destruct (execute_exhausts_budget "Do something vague" (init 1) 0%nat)
    as (mem & w' & used & Hpasses & Hused & Hexecute & _).
  - reflexivity.
  - simpl. lia.
  - simpl. lia.
  - intros k context _. vm_compute. reflexivity.
  - vm_compute in Hpasses. injection Hpasses as <- <-.
    vm_compute in Hused. injection Hused as <-.
    eexists. split; [exact Hexecute |]. vm_compute. reflexivity.
Defined.

(** The end-to-end run with a budget of one pass: the memory holds the
    goal, the thought and the exhausted text. *)
Lemma execute_always_think_run :
  exists a',
    execute "Do something vague" (init 1) 0%nat
    = Some (Ok (mkResult false (PStr exhausted) 1 [], a', 0%nat))
    /\ Memory.messages (memory a')
       = [Memory.message "2024-01-01T10:00:00" (PStr "user") (PStr "Do something vague");
          Memory.message "2024-01-01T10:00:00" (PStr "assistant") (PStr "x");
          Memory.message "2024-01-01T10:00:00" (PStr "assistant") (PStr exhausted)].
Proof. eexists. split; vm_compute; reflexivity. Qed.

End AlwaysThink.

Section ThinkThenComplete.
#[local] Existing Instance still_world.
#[local] Existing Instance Sample.runtime.
#[local] Existing Instance think_then_complete.

Lemma execute_completes_on_last_pass_witness :
  well_formed (memory (init 2)) = true
  /\ 1 <= max_iterations (init 2)
  /\ PStr "42" <> PNone
  /\ exists used a' w',
       execute "Calculate 6 * 7" (init 2) 0%nat
       = Some (Ok (mkResult false (PStr "42") 2 used, a', w')).
Proof.
  split; [reflexivity |]. split; [simpl; lia |]. split; [discriminate |].
  apply (execute_completes_on_last_pass "Calculate 6 * 7" (init 2) 0%nat (PStr "42")).
  - reflexivity.
  - simpl. lia.
  - discriminate.
  - intros k context Hk. simpl in Hk.
    destruct k as [| k]; [vm_compute; reflexivity | lia].
  - intros context. vm_compute. reflexivity.
Defined.

(** With one more pass in the budget the same run is a success. *)
Lemma execute_think_then_complete_run :
  exists a',
    execute "Calculate 6 * 7" (init 3) 0%nat
    = Some (Ok (mkResult true (PStr "42") 2 [], a', 0%nat)).
Proof. eexists. vm_compute. reflexivity. Qed.

End ThinkThenComplete.

Section CompleteAtOnce.
#[local] Existing Instance still_world.
#[local] Existing Instance Sample.runtime.
#[local] Existing Instance complete_at_once.

(** A complete action on the first pass of a budget of ten. *)
Lemma execute_complete_at_once_run :
  exists a',
    execute "Calculate 6 * 7" (init 10) 0%nat
    = Some (Ok (mkResult true (PStr "42") 1 [], a', 0%nat)).
Proof. eexists. vm_compute. reflexivity. Qed.

End CompleteAtOnce.

Section Rambling.
#[local] Existing Instance still_world.
#[local] Existing Instance Sample.runtime.
#[local] Existing Instance rambling.

Lemma decide_next_action_malformed_reply_witness :
  well_formed (memory (init 5)) = true
  /\ exists context,
       _build_context "Add 2 and 3" (TaskPlanner.mkPlan "Add 2 and 3" [] "pending")
         (memory (init 5)) = Ok context
       /\ json_loads (oracle 0%nat context) = None
       /\ _decide_next_action 0 "Add 2 and 3" (TaskPlanner.mkPlan "Add 2 and 3" [] "pending")
            (memory (init 5))
          = Ok (think "I should add the two numbers first.").
Proof.
  split; [reflexivity |].
  destruct (decide_next_action_malformed_reply 0 "Add 2 and 3"
              (TaskPlanner.mkPlan "Add 2 and 3" [] "pending") (memory (init 5)) eq_refl)
    as (context & Hcontext & Hfallback).
  exists context. split; [exact Hcontext |].
  assert (Hmalformed : json_loads (oracle 0%nat context) = None)
    by (vm_compute; reflexivity).
  split; [exact Hmalformed |].
  exact (proj1 (Hfallback Hmalformed)).
Defined.

End Rambling.

(** An oracle whose reply is JSON but not an action: the number 42. *)
Definition off_shape : Oracle := {|
  oracle := fun _ _ => Sample.write 0 (PInt 42)
|}.

(** An oracle that completes at once with a null result. *)
Definition complete_with_null : Oracle := {|
  oracle := fun _ _ => Sample.write 0 (PDict [("type", PStr "complete"); ("result", PNone)])
|}.

Section OffShape.
#[local] Existing Instance still_world.
#[local] Existing Instance Sample.runtime.
#[local] Existing Instance off_shape.

(** The fallback covers replies that are not JSON only: a reply that
    parses to something other than an action reaches the loop as it is,
    and the subscript [action["type"]] raises. *)
Lemma execute_off_shape_run :
  _decide_next_action 0 "Add 2 and 3" (TaskPlanner.mkPlan "Add 2 and 3" [] "pending")
    (memory (init 5)) = Ok (PInt 42)
  /\ execute "Add 2 and 3" (init 5) 0%nat
     = Some (Raise (TypeError "string subscript on a value that is not a dict")).
Proof. split; vm_compute; reflexivity. Qed.

End OffShape.

Section CompleteWithNull.
#[local] Existing Instance still_world.
#[local] Existing Instance Sample.runtime.
#[local] Existing Instance complete_with_null.

(** A complete action whose result is null leaves [final_result] at
    [None], so the exhausted text takes its place although the run is
    reported as a success. *)
Lemma execute_complete_with_null_run :
  exists a',
    execute "Add 2 and 3" (init 5) 0%nat
    = Some (Ok (mkResult true (PStr exhausted) 1 [], a', 0%nat)).
Proof. eexists. vm_compute. reflexivity. Qed.

End CompleteWithNull.

End AgenticAIFacts.

(* ================================================================== *)
(** * Further properties of the components                              *)
(* ================================================================== *)

(** ** memory.py: bounds, the tool log, the history window, the counters *)

Module MemoryLaws.

Import Memory SliceFacts StringFacts MemoryFacts.

Lemma lastn_lastn {A} (n k : nat) (l : list A) :
  lastn n (lastn k l) = lastn (Nat.min n k) l.
Proof.
  unfold lastn. rewrite drop_drop, length_drop. f_equal. lia.
Qed.

Lemma lastn_snoc {A} (k : nat) (l : list A) (x : A) :
  (1 <= k)%nat -> lastn k (l ++ [x]) = lastn (k - 1) l ++ [x].
Proof.
  intros Hk. unfold lastn. rewrite length_app. simpl.
  rewrite drop_app_le by lia. do 2 f_equal. lia.
Qed.

Lemma lastn_map {A B} (f : A -> B) (k : nat) (l : list A) :
  lastn k (map f l) = map f (lastn k l).
Proof. unfold lastn. now rewrite length_map, <- fmap_drop. Qed.

(** X1.  Whatever the store holds (it may be over its bound, as after a
    load), one [add_message] with a bound of at least 1 leaves at most
    [max_history] messages, and the new message is the last of them. *)
Theorem add_message_within_bound ts role content (m : t) :
  1 <= max_history m ->
  Z.of_nat (length (messages (add_message ts role content m))) <= max_history m
  /\ last (messages (add_message ts role content m)) = Some (message ts role content).
Proof.
  intros Hbound. split.
  - rewrite add_message_lastn, lastn_length by assumption. lia.
  - apply AgenticAIFacts.add_message_last. lia.
Qed.

Lemma add_message_within_bound_witness :
  1 <= max_history (mk [PStr "a"; PStr "b"; PStr "c"; PStr "d"] [] 2)
  /\ messages (add_message "t" (PStr "user") (PStr "e")
                 (mk [PStr "a"; PStr "b"; PStr "c"; PStr "d"] [] 2))
     = [PStr "d"; message "t" (PStr "user") (PStr "e")]
  /\ Z.of_nat (length (messages (add_message "t" (PStr "user") (PStr "e")
                                    (mk [PStr "a"; PStr "b"; PStr "c"; PStr "d"] [] 2))))
     <= 2.
Proof.
  split; [simpl; lia |]. split; [reflexivity |].
  apply (add_message_within_bound "t" (PStr "user") (PStr "e")
           (mk [PStr "a"; PStr "b"; PStr "c"; PStr "d"] [] 2)).
  simpl. lia.
Defined.

(** *** Interleaved writes *)

(** A write to the store: one [add_message] or one [add_tool_use] call. *)
Inductive Write : Type :=
| AddMessage (ts : string) (role content : PyVal)
| AddToolUse (ts : string) (tool_name input_params result : PyVal).

Definition perform (m : t) (op : Write) : t :=
  match op with
  | AddMessage ts role content => add_message ts role content m
  | AddToolUse ts tool_name input_params result =>
      add_tool_use ts tool_name input_params result m
  end.

(** The tool records that a sequence of writes appends, in order. *)
Fixpoint tool_records (ops : list Write) : list PyVal :=
  match ops with
  | [] => []
  | AddMessage _ _ _ :: rest => tool_records rest
  | AddToolUse ts tool_name input_params result :: rest =>
      tool_record ts tool_name input_params result :: tool_records rest
  end.

(** X2.  The tool log is append-only and unbounded: under any
    interleaving of [add_message] and [add_tool_use] calls, whatever the
    bound, [tool_usage] is the old list followed by every new tool
    record, in call order; the bound itself never changes. *)
Theorem tool_usage_append_only (ops : list Write) (m : t) :
  tool_usage (fold_left perform ops m) = tool_usage m ++ tool_records ops
  /\ max_history (fold_left perform ops m) = max_history m.
Proof.
  revert m. induction ops as [| op rest IH]; intros m; simpl.
  - now rewrite app_nil_r.
  - destruct (IH (perform m op)) as [Huses Hbound]. rewrite Huses, Hbound.
    destruct op; simpl; [now split |].
    now rewrite <- app_assoc.
Qed.

Section WithRuntime.
Context `{Runtime}.

Lemma format_history_raised (l : list PyVal) (acc : string) :
  raised (format_history l acc) = negb (forallb AgenticAIFacts.is_message l).
Proof.
  revert acc. induction l as [| msg rest IH]; intros acc; simpl; [reflexivity |].
  unfold history_line, AgenticAIFacts.is_message.
  destruct (subscript msg "role") as [role | e]; simpl; [| reflexivity].
  destruct (subscript msg "content") as [content | e]; simpl; [| reflexivity].
  apply IH.
Qed.

(** X3.  [get_recent_history(n)] raises exactly when a message inside the
    window it reads (the list [recent n m]) lacks a role or a content;
    messages outside the window are not looked at. *)
Theorem get_recent_history_raises_iff (n : Z) (m : t) :
  raised (get_recent_history n m)
  = negb (forallb AgenticAIFacts.is_message (recent n m)).
Proof. apply format_history_raised. Qed.

Lemma lines_app calls calls' : lines (calls ++ calls') = lines calls +:+ lines calls'.
Proof.
  induction calls as [| c rest IH]; simpl; [reflexivity |].
  now rewrite IH, append_assoc.
Qed.

(** X4.  On a store built by [add_message], the history read right after
    a further [add_message] shows the last [min(n, max_history)]
    messages and ends with the line of the new one. *)
Theorem get_recent_history_after_add (n : Z) ts role content
  (calls : list Call) (m : t) :
  messages m = map call_message calls ->
  1 <= n ->
  1 <= max_history m ->
  get_recent_history n (add_message ts role content m)
  = Ok (lines (lastn (Z.to_nat (Z.min n (max_history m)))
                 (calls ++ [(ts, role, content)])))
  /\ exists earlier,
       get_recent_history n (add_message ts role content m)
       = Ok (earlier +:+ line (ts, role, content)).
Proof.
  intros Hmsgs Hn Hbound.
  assert (Hafter :
    messages (add_message ts role content m)
    = map call_message
        (lastn (Z.to_nat (max_history m)) (calls ++ [(ts, role, content)]))).
  { rewrite add_message_lastn, Hmsgs by assumption.
    rewrite <- lastn_map, map_app. reflexivity. }
  rewrite (get_recent_history_lastn n _ _ Hafter Hn), lastn_lastn.
  replace (Nat.min (Z.to_nat n) (Z.to_nat (max_history m)))
    with (Z.to_nat (Z.min n (max_history m))) by lia.
  split; [reflexivity |].
  rewrite lastn_snoc by lia. rewrite lines_app. simpl.
  rewrite append_nil_r. eauto.
Qed.

End WithRuntime.

Section OnSampleHistory.
#[local] Existing Instance Sample.runtime.

Lemma get_recent_history_after_add_witness :
  messages (add_message "t1" (PStr "user") (PStr "a") (init 2))
  = map call_message [("t1", PStr "user", PStr "a")]
  /\ 1 <= 5
  /\ 1 <= max_history (add_message "t1" (PStr "user") (PStr "a") (init 2))
  /\ get_recent_history 5
       (add_message "t3" (PStr "user") (PStr "c")
          (add_message "t2" (PStr "assistant") (PStr "b")
             (add_message "t1" (PStr "user") (PStr "a") (init 2))))
     = Ok ("assistant: b" +:+ nl +:+ "user: c" +:+ nl).
Proof.
  split; [reflexivity |]. split; [lia |]. split; [simpl; lia |].
  pose proof (get_recent_history_after_add 5 "t3" (PStr "user") (PStr "c")
                [("t1", PStr "user", PStr "a"); ("t2", PStr "assistant", PStr "b")]
                (add_message "t2" (PStr "assistant") (PStr "b")
                   (add_message "t1" (PStr "user") (PStr "a") (init 2))))
    as Hafter.
  destruct Hafter as [Hwindow _]; [reflexivity | lia | simpl; lia |].
  rewrite Hwindow. reflexivity.
Defined.

End OnSampleHistory.

(** *** The counters *)

Section WithKeys.
Context `{DictKeys}.

(** The sum of the counters of a dict. *)
Fixpoint total (counts : list (PyVal * Z)) : Z :=
  match counts with
  | [] => 0
  | (_, n) :: rest => n + total rest
  end.

Lemma counts_bump_total key (counts : list (PyVal * Z)) :
  total (counts_set key (counts_get key counts + 1) counts) = total counts + 1.
Proof.
  induction counts as [| [k n] rest IH]; simpl; [lia |].
  destruct (key_eqb key k); simpl; lia.
Qed.

Lemma count_tools_total records : forall stats stats',
  count_tools records stats = Ok stats' ->
  total stats' = total stats + Z.of_nat (length records).
Proof.
  induction records as [| record rest IH]; intros stats stats' Hcount; simpl in Hcount.
  - inversion Hcount. simpl. lia.
  - destruct (subscript record "tool") as [tool | e]; [| discriminate].
    simpl in Hcount. unfold count_one in Hcount.
    destruct (hashable tool); [| discriminate]. simpl in Hcount.
    apply IH in Hcount. rewrite Hcount, counts_bump_total.
    simpl length. lia.
Qed.

Lemma count_tools_raised records : forall stats,
  raised (count_tools records stats)
  = negb (forallb AgenticAIFacts.is_tool_record records).
Proof.
  induction records as [| record rest IH]; intros stats; simpl; [reflexivity |].
  unfold AgenticAIFacts.is_tool_record at 1.
  destruct (subscript record "tool") as [tool | e]; simpl; [| reflexivity].
  unfold count_one. destruct (hashable tool); simpl; [apply IH | reflexivity].
Qed.

(** X6.  When [get_tool_usage_stats] returns, its counters add up to the
    number of recorded tool uses, however the dict identifies keys. *)
Theorem get_tool_usage_stats_total (m : t) (stats : list (PyVal * Z)) :
  get_tool_usage_stats m = Ok stats ->
  total stats = Z.of_nat (length (tool_usage m)).
Proof.
  intros Hstats. apply count_tools_total in Hstats. simpl in Hstats. lia.
Qed.

(** A tool use with a string name: timestamp, name, input, result. *)
Definition Use : Type := string * string * PyVal * PyVal.

Definition use_record (u : Use) : PyVal :=
  let '(ts, tool_name, input_params, result) := u in
  tool_record ts (PStr tool_name) input_params result.

Definition use_name (u : Use) : string :=
  let '(_, tool_name, _, _) := u in tool_name.

(** The number of uses of one tool. *)
Definition uses_of (tool_name : string) (uses : list Use) : Z :=
  Z.of_nat (length (List.filter (fun u => String.eqb (use_name u) tool_name) uses)).

Definition string_keys (counts : list (PyVal * Z)) : bool :=
  forallb (fun kv => match fst kv with PStr _ => true | _ => false end) counts.

Lemma counts_set_string_keys name n counts :
  string_keys counts = true -> string_keys (counts_set (PStr name) n counts) = true.
Proof.
  unfold string_keys.
  induction counts as [| [k m] rest IH]; intros Hkeys; simpl; [reflexivity |].
  simpl in Hkeys. apply andb_prop in Hkeys as [Hk Hrest].
  destruct k as [| | | | s | |]; try discriminate. simpl.
  destruct (String.eqb name s); simpl; auto.
Qed.

Lemma counts_get_set name name' n counts :
  string_keys counts = true ->
  counts_get (PStr name') (counts_set (PStr name) n counts)
  = if String.eqb name name' then n else counts_get (PStr name') counts.
Proof.
  unfold string_keys.
  induction counts as [| [k m] rest IH]; intros Hkeys; simpl.
  - rewrite String.eqb_sym. reflexivity.
  - simpl in Hkeys. apply andb_prop in Hkeys as [Hk Hrest].
    destruct k as [| | | | s | |]; try discriminate. simpl.
    destruct (String.eqb_spec name s) as [-> | Hne]; simpl.
    + destruct (String.eqb_spec name' s) as [-> | Hne'].
      * now rewrite String.eqb_refl.
      * destruct (String.eqb_spec s name'); [congruence | reflexivity].
    + destruct (String.eqb_spec name' s) as [-> | Hne'].
      * destruct (String.eqb_spec name s); [congruence | reflexivity].
      * now apply IH.
Qed.

Lemma count_tools_uses (uses : list Use) : forall stats,
  string_keys stats = true ->
  exists stats',
    count_tools (map use_record uses) stats = Ok stats'
    /\ string_keys stats' = true
    /\ forall tool_name,
         counts_get (PStr tool_name) stats'
         = counts_get (PStr tool_name) stats + uses_of tool_name uses.
Proof.
  induction uses as [| [[[ts name] input_params] result] rest IH]; intros stats Hkeys.
  - exists stats. split; [reflexivity |]. split; [assumption |].
    intros tool_name. unfold uses_of. simpl. lia.
  - simpl.
    destruct (IH (counts_set (PStr name) (counts_get (PStr name) stats + 1) stats))
      as (stats' & Hcount & Hkeys' & Hget);
      [now apply counts_set_string_keys |].
    exists stats'. split; [exact Hcount |]. split; [exact Hkeys' |].
    intros tool_name. rewrite Hget, counts_get_set by assumption.
    unfold uses_of. simpl.
    destruct (String.eqb_spec name tool_name) as [-> | Hne]; simpl length; lia.
Qed.

(** X7.  On a log of tool uses with string names, [get_tool_usage_stats]
    returns, and the counter of every tool name is the number of its
    uses (zero for a tool that was never used). *)
Theorem get_tool_usage_stats_counts (uses : list Use) (m : t) :
  tool_usage m = map use_record uses ->
  exists stats,
    get_tool_usage_stats m = Ok stats
    /\ forall tool_name, counts_get (PStr tool_name) stats = uses_of tool_name uses.
Proof.
  intros Hlog. unfold get_tool_usage_stats. rewrite Hlog.
  destruct (count_tools_uses uses [] eq_refl) as (stats & Hcount & _ & Hget).
  exists stats. split; [exact Hcount |].
  intros tool_name. rewrite Hget. reflexivity.
Qed.

Section WithRuntime.
Context `{Runtime}.

Lemma tool_names_raised_or_unhashable records :
  match tool_names records with
  | Ok names =>
      forallb hashable names = forallb AgenticAIFacts.is_tool_record records
  | Raise _ => forallb AgenticAIFacts.is_tool_record records = false
  end.
Proof.
  induction records as [| record rest IH]; simpl; [reflexivity |].
  unfold AgenticAIFacts.is_tool_record at 1 3.
  destruct (subscript record "tool") as [tool | e]; simpl; [| reflexivity].
  destruct (tool_names rest) as [names | e]; simpl.
  - now rewrite IH.
  - rewrite IH. apply andb_false_r.
Qed.

(** X5.  [get_tools_used], [get_tool_usage_stats] and [get_summary] raise
    in exactly the same stores: those whose tool log holds an entry
    without a [tool] key or with an unhashable tool name. *)
Theorem tool_queries_raise_iff (m : t) :
  raised (get_tools_used m)
  = negb (forallb AgenticAIFacts.is_tool_record (tool_usage m))
  /\ raised (get_tool_usage_stats m)
     = negb (forallb AgenticAIFacts.is_tool_record (tool_usage m))
  /\ raised (get_summary m)
     = negb (forallb AgenticAIFacts.is_tool_record (tool_usage m)).
Proof.
  assert (Hused : raised (get_tools_used m)
                  = negb (forallb AgenticAIFacts.is_tool_record (tool_usage m))).
  { unfold get_tools_used.
    pose proof (tool_names_raised_or_unhashable (tool_usage m)) as Hnames.
    destruct (tool_names (tool_usage m)) as [names | e]; simpl.
    - rewrite <- Hnames. destruct (forallb hashable names); reflexivity.
    - now rewrite Hnames. }
  assert (Hstats : raised (get_tool_usage_stats m)
                   = negb (forallb AgenticAIFacts.is_tool_record (tool_usage m)))
    by apply count_tools_raised.
  split; [exact Hused |]. split; [exact Hstats |].
  unfold get_summary.
  destruct (get_tools_used m) as [used | e]; simpl in *; [| exact Hused].
  destruct (get_tool_usage_stats m) as [stats | e]; simpl in *; exact Hstats.
Qed.

End WithRuntime.

End WithKeys.

Section OnSampleKeys.
#[local] Existing Instance Sample.keys.

(** A log of three tool uses, two of them of the calculator. *)
Definition sample_uses : list Use :=
  [("t1", "calculator", PDict [("expression", PStr "2+2")], PStr "Result: 4");
   ("t2", "weather", PDict [("location", PStr "Oslo")], PStr "Weather in Oslo");
   ("t3", "calculator", PDict [("expression", PStr "3*3")], PStr "Result: 9")].

Definition sample_log : t := mk [] (map use_record sample_uses) 100.

Lemma get_tool_usage_stats_total_witness :
  get_tool_usage_stats sample_log = Ok [(PStr "calculator", 2); (PStr "weather", 1)]
  /\ total [(PStr "calculator", 2); (PStr "weather", 1)]
     = Z.of_nat (length (tool_usage sample_log)).
Proof.
  split; [reflexivity |].
  apply (get_tool_usage_stats_total sample_log). reflexivity.
Defined.

Lemma get_tool_usage_stats_counts_witness :
  tool_usage sample_log = map use_record sample_uses
  /\ exists stats,
       get_tool_usage_stats sample_log = Ok stats
       /\ forall tool_name,
            counts_get (PStr tool_name) stats = uses_of tool_name sample_uses.
Proof.
  split; [reflexivity |].
  apply (get_tool_usage_stats_counts sample_uses sample_log). reflexivity.
Defined.

End OnSampleKeys.

End MemoryLaws.

(** ** executor.py: attempts, the ledger and its statistics *)

Module ToolExecutorLaws.

Import ToolExecutor ToolExecutorFacts.

(** A ledger entry that [get_execution_stats] can read: it has a
    [success] field and a hashable [tool]. *)
Definition is_entry (v : PyVal) : bool :=
  negb (raised (subscript v "success")) && AgenticAIFacts.is_tool_record v.

Lemma record_is_entry ts tool_name parameters result success error :
  is_entry (record ts tool_name parameters result success error) = true.
Proof. reflexivity. Qed.

Section WithWorld.
Context {W : Type} `{World W}.

(** What one call with a tool function appends: the records of one, two
    or three attempts, failures up to the last one. *)
Lemma execute_with_retry_added_tool (tool_func : Tool W) parameters ex w :
  exists added w',
    snd (execute_with_retry tool_func parameters ex w)
    = (mk (max_retries ex) (execution_history ex ++ added), w')
    /\ (1 <= length added <= 3)%nat
    /\ forallb is_entry added = true
    /\ (forall r, In r (removelast added) -> succeeded r = Some false)
    /\ match fst (execute_with_retry tool_func parameters ex w) with
       | Ok v =>
           exists r, last added = Some r
                     /\ succeeded r = Some true
                     /\ subscript r "result" = Ok v
       | Raise e =>
           length added = 3%nat
           /\ (forall r, In r added -> succeeded r = Some false)
           /\ exists last_error, e = RetryError last_error
       end
    /\ count_successful added
       = Ok (if raised (fst (execute_with_retry tool_func parameters ex w)) then 0 else 1).
Proof.
  destruct (call tool_func parameters w) as [[v1 | e1] w1] eqn:H1.
  { rewrite (execute_with_retry_first_success _ _ _ _ _ _ H1).
    exists [success tool_func parameters w1 v1], w1.
    split; [reflexivity |]. split; [simpl; lia |]. split; [reflexivity |].
    split; [intros r [] |].
    split; [| reflexivity].
    eexists. split; [reflexivity |]. split; reflexivity. }
  destruct (call tool_func parameters (backoff 1 w1)) as [[v2 | e2] w2] eqn:H2.
  { exists [failure tool_func parameters w1 e1; success tool_func parameters w2 v2], w2.
    assert (Hrun :
      execute_with_retry tool_func parameters ex w
      = (Ok v2,
         (mk (max_retries ex)
            (execution_history ex
             ++ [failure tool_func parameters w1 e1; success tool_func parameters w2 v2]),
          w2))).
    { unfold execute_with_retry, stop_after_attempt. simpl.
      rewrite H1. simpl. rewrite H2. simpl.
      unfold _record_execution. simpl. now rewrite <- app_assoc. }
    rewrite Hrun.
    split; [reflexivity |]. split; [simpl; lia |]. split; [reflexivity |].
    split; [intros r [<- | []]; reflexivity |].
    split; [| reflexivity].
    eexists. split; [reflexivity |]. split; reflexivity. }
  destruct (call tool_func parameters (backoff 2 w2)) as [[v3 | e3] w3] eqn:H3.
  { rewrite (execute_with_retry_third_success _ _ _ _ _ _ _ _ _ _ H1 H2 H3).
    eexists _, w3. split; [reflexivity |]. split; [simpl; lia |].
    split; [reflexivity |].
    split; [intros r [<- | [<- | []]]; reflexivity |].
    split; [| reflexivity].
    eexists. split; [reflexivity |]. split; reflexivity. }
  rewrite (execute_with_retry_three_failures _ _ _ _ _ _ _ _ _ _ H1 H2 H3).
  eexists _, w3. split; [reflexivity |]. split; [simpl; lia |].
  split; [reflexivity |].
  split; [intros r [<- | [<- | []]]; reflexivity |].
  split; [| reflexivity].
  split; [reflexivity |].
  split; [intros r [<- | [<- | [<- | []]]]; reflexivity |].
  now exists e3.
Qed.

(** A callable without a [__name__]: three attempts that end before the
    [try], two sleeps between them, no call and no record. *)
Lemma execute_with_retry_nameless (tool_func : Callable W) parameters ex w :
  name_of tool_func = None ->
  execute_with_retry tool_func parameters ex w
  = (Raise (RetryError no_name), (ex, backoff 2 (backoff 1 w))).
Proof.
  intros Hname. unfold execute_with_retry, stop_after_attempt, attempt. simpl.
  rewrite Hname. reflexivity.
Qed.

(** A callable with a [__name__] is a tool function. *)
Lemma execute_with_retry_named (tool_func : Callable W) tool_name parameters ex w :
  name_of tool_func = Some tool_name ->
  execute_with_retry tool_func parameters ex w
  = execute_with_retry (mkTool W tool_name (apply_to tool_func)) parameters ex w.
Proof. destruct tool_func as [n f]. simpl. now intros ->. Qed.

(** What one call appends, whatever the callable is and does. *)
Lemma execute_with_retry_added (tool_func : Callable W) parameters ex w :
  exists added w',
    snd (execute_with_retry tool_func parameters ex w)
    = (mk (max_retries ex) (execution_history ex ++ added), w')
    /\ (length added <= 3)%nat
    /\ match name_of tool_func with
       | Some _ => (1 <= length added)%nat
       | None =>
           added = [] /\ w' = backoff 2 (backoff 1 w)
           /\ fst (execute_with_retry tool_func parameters ex w)
              = Raise (RetryError no_name)
       end
    /\ forallb is_entry added = true
    /\ (forall r, In r (removelast added) -> succeeded r = Some false)
    /\ match fst (execute_with_retry tool_func parameters ex w) with
       | Ok v =>
           exists r, last added = Some r
                     /\ succeeded r = Some true
                     /\ subscript r "result" = Ok v
       | Raise e =>
           (name_of tool_func <> None -> length added = 3%nat)
           /\ (forall r, In r added -> succeeded r = Some false)
           /\ exists last_error, e = RetryError last_error
       end
    /\ count_successful added
       = Ok (if raised (fst (execute_with_retry tool_func parameters ex w)) then 0 else 1).
Proof.
  destruct (name_of tool_func) as [tool_name |] eqn:Hname.
  - rewrite (execute_with_retry_named _ _ _ _ _ Hname).
    destruct (execute_with_retry_added_tool (mkTool W tool_name (apply_to tool_func))
                parameters ex w)
      as (added & w' & Hsnd & Hlen & Hentries & Hfailures & Hlast & Hcount).
    exists added, w'. split; [exact Hsnd |]. split; [lia |]. split; [lia |].
    split; [exact Hentries |]. split; [exact Hfailures |]. split; [| exact Hcount].
    destruct (fst (execute_with_retry (mkTool W tool_name (apply_to tool_func))
                     parameters ex w)) as [v | e]; [exact Hlast |].
    destruct Hlast as (Hthree & Hall & Herror). auto.
  - rewrite (execute_with_retry_nameless _ _ _ _ Hname).
    exists [], (backoff 2 (backoff 1 w)). simpl. rewrite app_nil_r.
    split; [now destruct ex |]. split; [lia |]. split; [auto |].
    split; [reflexivity |]. split; [intros r [] |]. split; [| reflexivity].
    split; [congruence |]. split; [intros r [] |]. now exists no_name.
Qed.

(** X8.  One [execute_with_retry] call removes nothing from the ledger
    and appends one record for every attempt in which the callable was
    called.  With a callable that has a [__name__] these are one, two or
    three records, every one but the last a failure; the call returns a
    value exactly when the last record is a success carrying that value,
    and otherwise has made three attempts, all recorded as failures, and
    raises [RetryError].  A callable without a [__name__] is never
    called: the three attempts end at the [logger.info] line, nothing is
    recorded, and the call raises [RetryError] around the
    [AttributeError]. *)
Theorem execute_with_retry_attempts (tool_func : Callable W) (parameters : PyVal)
  (ex : t) (w : W) :
  exists added w',
    snd (execute_with_retry tool_func parameters ex w)
    = (mk (max_retries ex) (execution_history ex ++ added), w')
    /\ (length added <= 3)%nat
    /\ match name_of tool_func with
       | Some _ => (1 <= length added)%nat
       | None =>
           added = [] /\ w' = backoff 2 (backoff 1 w)
           /\ fst (execute_with_retry tool_func parameters ex w)
              = Raise (RetryError no_name)
       end
    /\ (forall r, In r (removelast added) -> succeeded r = Some false)
    /\ match fst (execute_with_retry tool_func parameters ex w) with
       | Ok v =>
           exists r, last added = Some r
                     /\ succeeded r = Some true
                     /\ subscript r "result" = Ok v
       | Raise e =>
           (name_of tool_func <> None -> length added = 3%nat)
           /\ (forall r, In r added -> succeeded r = Some false)
           /\ exists last_error, e = RetryError last_error
       end.
Proof.
  destruct (execute_with_retry_added tool_func parameters ex w)
    as (added & w' & Hsnd & Hlen & Hname & _ & Hfailures & Hlast & _).
  exists added, w'. auto.
Qed.

End WithWorld.

(** *** Statistics *)

(** The entry counts as a success: its [success] field is true. *)
Definition counts_as_success (r : PyVal) : bool :=
  match subscript r "success" with
  | Ok flag => truthy flag
  | Raise _ => false
  end.

Definition has_success (r : PyVal) : bool := negb (raised (subscript r "success")).

Lemma count_successful_raised history :
  raised (count_successful history) = negb (forallb has_success history).
Proof.
  induction history as [| r rest IH]; simpl; [reflexivity |].
  unfold has_success at 1.
  destruct (subscript r "success") as [flag | e]; simpl; [| reflexivity].
  destruct (count_successful rest) as [n | e]; simpl in *; exact IH.
Qed.

Lemma count_successful_filter history n :
  count_successful history = Ok n ->
  n = Z.of_nat (length (List.filter counts_as_success history)).
Proof.
  revert n. induction history as [| r rest IH]; intros n Hcount; simpl in Hcount.
  - now inversion Hcount.
  - unfold counts_as_success in *. simpl.
    destruct (subscript r "success") as [flag | e]; [| discriminate].
    destruct (count_successful rest) as [k | e]; [| discriminate].
    simpl in Hcount. inversion Hcount; subst n. specialize (IH k eq_refl).
    destruct (truthy flag); simpl length; lia.
Qed.

Lemma count_successful_app history added n k :
  count_successful history = Ok n ->
  count_successful added = Ok k ->
  count_successful (history ++ added) = Ok (n + k).
Proof.
  revert n. induction history as [| r rest IH]; intros n Hcount Hadded; simpl in *.
  - inversion Hcount. now rewrite Hadded.
  - destruct (subscript r "success") as [flag | e]; [| discriminate].
    destruct (count_successful rest) as [m | e]; [| discriminate].
    simpl in Hcount. inversion Hcount; subst n.
    rewrite (IH m eq_refl Hadded). simpl.
    destruct (truthy flag); f_equal; lia.
Qed.

Lemma forallb_is_entry history :
  forallb is_entry history
  = forallb has_success history && forallb AgenticAIFacts.is_tool_record history.
Proof.
  induction history as [| r rest IH]; simpl; [reflexivity |].
  rewrite IH. unfold is_entry. fold (has_success r).
  destruct (has_success r); destruct (AgenticAIFacts.is_tool_record r);
    destruct (forallb has_success rest);
    destruct (forallb AgenticAIFacts.is_tool_record rest); reflexivity.
Qed.

Section WithKeys.
Context `{DictKeys}.

Lemma count_tools_same records stats :
  count_tools records stats = Memory.count_tools records stats.
Proof. reflexivity. Qed.

Lemma get_execution_stats_raised (ex : t) :
  raised (get_execution_stats ex) = negb (forallb is_entry (execution_history ex)).
Proof.
  unfold get_execution_stats. rewrite forallb_is_entry.
  pose proof (count_successful_raised (execution_history ex)) as Hsucc.
  pose proof (MemoryLaws.count_tools_raised (execution_history ex) []) as Htools.
  rewrite <- count_tools_same in Htools.
  destruct (count_successful (execution_history ex)) as [n | e]; simpl in *.
  - destruct (count_tools (execution_history ex) []) as [counts | e]; simpl in *.
    + destruct (forallb has_success _), (forallb AgenticAIFacts.is_tool_record _);
        simpl in *; congruence.
    + destruct (forallb has_success _), (forallb AgenticAIFacts.is_tool_record _);
        simpl in *; congruence.
  - destruct (forallb has_success _); simpl in *; congruence.
Qed.

(** X9.  [get_execution_stats] raises exactly on a ledger that holds an
    entry without a [success] field, without a [tool] field or with an
    unhashable tool. *)
Theorem get_execution_stats_raises_iff (ex : t) :
  raised (get_execution_stats ex) = negb (forallb is_entry (execution_history ex)).
Proof. apply get_execution_stats_raised. Qed.

(** X10.  When [get_execution_stats] returns: the total is the length of
    the ledger, the successes are the entries whose [success] is true,
    successes and failures add up to the total, the per-tool counters add
    up to the total, and the success rate lies between 0 and 1 (0 on an
    empty ledger). *)
Theorem get_execution_stats_consistent (ex : t) (stats : Stats) :
  get_execution_stats ex = Ok stats ->
  total_executions stats = Z.of_nat (length (execution_history ex))
  /\ successful stats
     = Z.of_nat (length (List.filter counts_as_success (execution_history ex)))
  /\ successful stats + failed stats = total_executions stats
  /\ 0 <= failed stats
  /\ MemoryLaws.total (tool_usage stats) = total_executions stats
  /\ (0 <= success_rate stats)%Q
  /\ (success_rate stats <= 1)%Q
  /\ (execution_history ex = [] -> success_rate stats = Qmake 0 1).
Proof.
  unfold get_execution_stats. intros Hstats.
  destruct (count_successful (execution_history ex)) as [n | e] eqn:Hsucc;
    [| discriminate].
  simpl in Hstats.
  destruct (count_tools (execution_history ex) []) as [counts | e] eqn:Htools;
    [| discriminate].
  simpl in Hstats. inversion Hstats; subst; clear Hstats. simpl.
  apply count_successful_filter in Hsucc.
  rewrite count_tools_same in Htools.
  apply MemoryLaws.count_tools_total in Htools. simpl in Htools.
  assert (Hle : (length (List.filter counts_as_success (execution_history ex))
                 <= length (execution_history ex))%nat) by apply filter_length_le.
  split; [reflexivity |]. split; [exact Hsucc |]. split; [lia |]. split; [lia |].
  split; [lia |].
  destruct (Z.gtb_spec (Z.of_nat (length (execution_history ex))) 0) as [Hpos | Hzero].
  - split; [unfold Qle; simpl; lia |].
    split; [unfold Qle; simpl; rewrite Z2Pos.id by lia; lia |].
    intros Hempty. rewrite Hempty in Hpos. simpl in Hpos. lia.
  - split; [unfold Qle; simpl; lia |].
    split; [unfold Qle; simpl; lia |]. reflexivity.
Qed.

End WithKeys.

Section WithWorldAndKeys.
Context {W : Type} `{World W} `{DictKeys}.

Lemma execute_safe_same_ledger tool_func parameters default_value ex w :
  snd (execute_safe tool_func parameters default_value ex w)
  = snd (execute_with_retry tool_func parameters ex w).
Proof.
  unfold execute_safe.
  destruct (execute_with_retry tool_func parameters ex w) as [[v | e] s]; reflexivity.
Qed.

(** The statistics of a ledger that got more entries. *)
Lemma get_execution_stats_app ex added stats k :
  get_execution_stats ex = Ok stats ->
  forallb is_entry added = true ->
  count_successful added = Ok k ->
  exists stats',
    get_execution_stats (mk (max_retries ex) (execution_history ex ++ added)) = Ok stats'
    /\ total_executions stats'
       = total_executions stats + Z.of_nat (length added)
    /\ successful stats' = successful stats + k
    /\ failed stats' = failed stats + Z.of_nat (length added) - k.
Proof.
  intros Hstats Hadded Hk.
  assert (Hentries : forallb is_entry (execution_history ex ++ added) = true).
  { rewrite forallb_app, Hadded, andb_true_r.
    pose proof (get_execution_stats_raised ex) as Hraises.
    rewrite Hstats in Hraises. simpl in Hraises.
    now destruct (forallb is_entry (execution_history ex)). }
  pose proof (get_execution_stats_raised
                (mk (max_retries ex) (execution_history ex ++ added))) as Hraises.
  simpl in Hraises. rewrite Hentries in Hraises. simpl in Hraises.
  unfold get_execution_stats in *. simpl in *.
  destruct (count_successful (execution_history ex)) as [n | e] eqn:Hsucc;
    [| discriminate].
  rewrite (count_successful_app _ _ _ _ Hsucc Hk) in *. simpl in *.
  destruct (count_tools (execution_history ex) []) as [counts | e]; [| discriminate].
  destruct (count_tools (execution_history ex ++ added) []) as [counts' | e];
    [| discriminate].
  simpl in *. inversion Hstats; subst; clear Hstats. simpl.
  eexists. split; [reflexivity |]. simpl. rewrite length_app. lia.
Qed.

(** X11.  Statistics after one [execute_with_retry] call on a ledger that
    they can read: they can still be read.  The successes have grown by
    one exactly when the call returned.  With a callable that has a
    [__name__] the total has grown by the number of attempts (one to
    three), and a call that raised has added three failures; with a
    callable without a [__name__] the call raised and the total and the
    failures are what they were. *)
Theorem get_execution_stats_after_call (tool_func : Callable W) (parameters : PyVal)
  (ex : t) (w : W) (stats : Stats) :
  get_execution_stats ex = Ok stats ->
  exists stats',
    get_execution_stats (fst (snd (execute_with_retry tool_func parameters ex w)))
    = Ok stats'
    /\ successful stats'
       = successful stats
         + (if raised (fst (execute_with_retry tool_func parameters ex w)) then 0 else 1)
    /\ match name_of tool_func with
       | Some _ =>
           total_executions stats + 1 <= total_executions stats'
             <= total_executions stats + 3
           /\ (raised (fst (execute_with_retry tool_func parameters ex w)) = true ->
               failed stats' = failed stats + 3)
       | None =>
           raised (fst (execute_with_retry tool_func parameters ex w)) = true
           /\ total_executions stats' = total_executions stats
           /\ failed stats' = failed stats
       end.
Proof.
  intros Hstats.
  destruct (execute_with_retry_added tool_func parameters ex w)
    as (added & w' & Hsnd & Hlen & Hname & Hentries & _ & Hlast & Hcount).
  destruct (get_execution_stats_app ex added stats _ Hstats Hentries Hcount)
    as (stats' & Hstats' & Htotal & Hsucc & Hfailed).
  exists stats'. rewrite Hsnd. simpl. split; [exact Hstats' |].
  split; [exact Hsucc |].
  destruct (name_of tool_func) as [tool_name |].
  - split; [lia |].
    intros Hraised. rewrite Hraised in Hfailed.
    destruct (fst (execute_with_retry tool_func parameters ex w)); [discriminate |].
    destruct Hlast as [Hthree _]. specialize (Hthree ltac:(discriminate)). lia.
  - destruct Hname as (-> & _ & Hraise). rewrite Hraise in *. simpl in *.
    split; [reflexivity |]. lia.
Qed.

(** X12.  A failure that [execute_safe] swallows is still in the ledger:
    with a tool that fails at every attempt the call returns
    [default_value], and the statistics afterwards show three more
    failures and no more successes. *)
Theorem execute_safe_failures_counted (tool_func : Tool W)
  (parameters default_value : PyVal) (ex : t) (w : W) (stats : Stats) :
  get_execution_stats ex = Ok stats ->
  always_fails tool_func parameters ->
  fst (execute_safe tool_func parameters default_value ex w) = Ok default_value
  /\ exists stats',
       get_execution_stats
         (fst (snd (execute_safe tool_func parameters default_value ex w)))
       = Ok stats'
       /\ total_executions stats' = total_executions stats + 3
       /\ successful stats' = successful stats
       /\ failed stats' = failed stats + 3.
Proof.
  intros Hstats Hfails.
  destruct (execute_with_retry_always_fails tool_func parameters ex w Hfails)
    as (e1 & w1 & e2 & w2 & e3 & w3 & _ & _ & _ & Hrun).
  split; [unfold execute_safe; now rewrite Hrun |].
  rewrite execute_safe_same_ledger, Hrun. simpl.
  destruct (get_execution_stats_app ex
              [failure tool_func parameters w1 e1; failure tool_func parameters w2 e2;
               failure tool_func parameters w3 e3] stats 0 Hstats eq_refl eq_refl)
    as (stats' & Hstats' & Htotal & Hsucc & Hfailed).
  exists stats'. split; [exact Hstats' |]. simpl in *. lia.
Qed.

(** The executors that the methods produce from a new one, with any
    callables. *)
Inductive Reachable : t -> Prop :=
| reach_init (max_retries : Z) : Reachable (init max_retries)
| reach_retry ex (tool_func : Callable W) parameters w :
    Reachable ex ->
    Reachable (fst (snd (execute_with_retry tool_func parameters ex w)))
| reach_safe ex (tool_func : Callable W) parameters default_value w :
    Reachable ex ->
    Reachable (fst (snd (execute_safe tool_func parameters default_value ex w)))
| reach_clear ex : Reachable ex -> Reachable (clear_history ex).

Lemma reachable_entries ex :
  Reachable ex -> forallb is_entry (execution_history ex) = true.
Proof.
  induction 1 as [| ex tool_func parameters w _ IH
                  | ex tool_func parameters default_value w _ IH | ex _ IH];
    try reflexivity.
  - destruct (execute_with_retry_added tool_func parameters ex w)
      as (added & w' & Hsnd & _ & _ & Hentries & _).
    rewrite Hsnd. simpl. now rewrite forallb_app, IH, Hentries.
  - rewrite execute_safe_same_ledger.
    destruct (execute_with_retry_added tool_func parameters ex w)
      as (added & w' & Hsnd & _ & _ & Hentries & _).
    rewrite Hsnd. simpl. now rewrite forallb_app, IH, Hentries.
Qed.

(** X13.  On every executor that [execute_with_retry], [execute_safe] and
    [clear_history] produce from a new one, [get_execution_stats]
    returns: the ledger only ever holds entries it can read. *)
Theorem get_execution_stats_never_raises (ex : t) :
  Reachable ex -> raised (get_execution_stats ex) = false.
Proof.
  intros Hreach. rewrite get_execution_stats_raised.
  now rewrite (reachable_entries ex Hreach).
Qed.

End WithWorldAndKeys.

Section OnCountingWorldWithKeys.
#[local] Existing Instance counting_world.
#[local] Existing Instance Sample.keys.

(** The ledger after a call of the flaky tool. *)
Definition after_flaky : t :=
  fst (snd (execute_with_retry flaky (PDict []) default 0%nat)).

Lemma get_execution_stats_consistent_witness :
  get_execution_stats after_flaky
  = Ok (mkStats 3 1 2 (Qmake 1 3) [(PStr "fetch", 3)])
  /\ successful (mkStats 3 1 2 (Qmake 1 3) [(PStr "fetch", 3)])
     + failed (mkStats 3 1 2 (Qmake 1 3) [(PStr "fetch", 3)])
     = total_executions (mkStats 3 1 2 (Qmake 1 3) [(PStr "fetch", 3)]).
Proof.
  split; [reflexivity |].
  apply (get_execution_stats_consistent after_flaky). reflexivity.
Defined.

Lemma get_execution_stats_after_call_witness :
  get_execution_stats after_flaky = Ok (mkStats 3 1 2 (Qmake 1 3) [(PStr "fetch", 3)])
  /\ exists stats',
       get_execution_stats
         (fst (snd (execute_with_retry broken (PDict []) after_flaky 3%nat)))
       = Ok stats'
       /\ successful stats' = 1 + 0
       /\ 3 + 1 <= total_executions stats' <= 3 + 3
       /\ (true = true -> failed stats' = 2 + 3).
Proof.
  split; [reflexivity |].
  apply (get_execution_stats_after_call broken (PDict []) after_flaky 3%nat
           (mkStats 3 1 2 (Qmake 1 3) [(PStr "fetch", 3)])).
  reflexivity.
Defined.

Lemma execute_safe_failures_counted_witness :
  get_execution_stats after_flaky = Ok (mkStats 3 1 2 (Qmake 1 3) [(PStr "fetch", 3)])
  /\ always_fails broken (PDict [])
  /\ fst (execute_safe broken (PDict []) (PStr "fallback") after_flaky 3%nat)
     = Ok (PStr "fallback")
  /\ exists stats',
       get_execution_stats
         (fst (snd (execute_safe broken (PDict []) (PStr "fallback") after_flaky 3%nat)))
       = Ok stats'
       /\ total_executions stats' = 3 + 3
       /\ successful stats' = 1
       /\ failed stats' = 2 + 3.
Proof.
  assert (Hfails : always_fails broken (PDict [])) by (intros w; reflexivity).
  split; [reflexivity |]. split; [exact Hfails |].
  apply (execute_safe_failures_counted broken (PDict []) (PStr "fallback") after_flaky
           3%nat (mkStats 3 1 2 (Qmake 1 3) [(PStr "fetch", 3)]));
    [reflexivity | exact Hfails].
Defined.

Lemma get_execution_stats_never_raises_witness :
  Reachable
    (fst (snd (execute_safe broken (PDict []) (PStr "fallback") after_flaky 3%nat)))
  /\ raised (get_execution_stats
               (fst (snd (execute_safe broken (PDict []) (PStr "fallback")
                            after_flaky 3%nat)))) = false.
Proof.
  assert (Hreach :
    Reachable
      (fst (snd (execute_safe broken (PDict []) (PStr "fallback") after_flaky 3%nat)))).
  { apply reach_safe. unfold after_flaky. apply reach_retry. apply reach_init. }
  split; [exact Hreach |].
  apply get_execution_stats_never_raises. exact Hreach.
Defined.

End OnCountingWorldWithKeys.

End ToolExecutorLaws.

(** ** planner.py: status writes, the next step, completion, the summary *)

Module TaskPlannerLaws.

Import TaskPlanner TaskPlannerFacts.

(** *** Status writes *)

Lemma norm_index_range (i : Z) (len pos : nat) :
  norm_index i len = Some pos ->
  i < Z.of_nat len /\ (pos < len)%nat.
Proof.
  unfold norm_index. intros Hpos.
  destruct (Z.leb_spec 0 i), (Z.ltb_spec i (Z.of_nat len)); simpl in Hpos;
    try (inversion Hpos; subst; split; lia).
  all: destruct (Z.ltb_spec i 0), (Z.leb_spec (- Z.of_nat len) i); simpl in Hpos;
    try discriminate; inversion Hpos; subst; split; lia.
Qed.

(** [update_plan_status] on a planner with a plan, by the position that
    the index denotes. *)
Lemma update_plan_status_at step_index new_status p plan pos :
  current_plan p = Some plan ->
  norm_index step_index (length (steps plan)) = Some pos ->
  update_plan_status step_index new_status p
  = Ok (mk (Some (with_status pos new_status plan))).
Proof.
  intros Hplan Hpos. destruct (norm_index_range _ _ _ Hpos) as [Hlt _].
  unfold update_plan_status. rewrite Hplan, Hpos.
  destruct (Z.ltb_spec step_index (Z.of_nat (length (steps plan)))); [reflexivity | lia].
Qed.

Lemma update_plan_status_none step_index new_status p plan :
  current_plan p = Some plan ->
  norm_index step_index (length (steps plan)) = None ->
  update_plan_status step_index new_status p
  = if step_index <? Z.of_nat (length (steps plan)) then Raise IndexError else Ok p.
Proof.
  intros Hplan Hnone. unfold update_plan_status. now rewrite Hplan, Hnone.
Qed.

Lemma with_status_length pos new_status plan :
  length (steps (with_status pos new_status plan)) = length (steps plan).
Proof. apply length_alter. Qed.

(** X14.  A status write whose index denotes a step, counted from the
    front or (a negative index) from the end, changes only the [status]
    key of that step: the goal, the plan status, the number of steps,
    every other step and every other key of the step stay as they are. *)
Theorem update_plan_status_only_status (step_index : Z) (new_status : string)
  (p : t) (plan : Plan) (pos : nat) :
  current_plan p = Some plan ->
  norm_index step_index (length (steps plan)) = Some pos ->
  exists plan',
    update_plan_status step_index new_status p = Ok (mk (Some plan'))
    /\ goal plan' = goal plan
    /\ status plan' = status plan
    /\ length (steps plan') = length (steps plan)
    /\ (forall j, j <> pos -> steps plan' !! j = steps plan !! j)
    /\ exists step step',
         steps plan !! pos = Some step
         /\ steps plan' !! pos = Some step'
         /\ step' !! "status" = Some new_status
         /\ forall key, key <> "status" -> step' !! key = step !! key.
Proof.
  intros Hplan Hpos. exists (with_status pos new_status plan).
  split; [now apply update_plan_status_at |].
  destruct (with_status_only_status pos new_status plan)
    as (Hgoal & Hstatus & Hlen & Hothers & Hstep).
  repeat (split; [assumption |]).
  destruct (norm_index_range _ _ _ Hpos) as [_ Hlt].
  destruct (lookup_lt_is_Some_2 (steps plan) pos Hlt) as [step Hlookup].
  destruct (Hstep step Hlookup) as (step' & Hlookup' & Hnew & Hkeys).
  exists step, step'. auto.
Qed.

Lemma update_plan_status_only_status_witness :
  current_plan (snd (create_plan "Calculate 2+2" (PDict []) init))
  = Some (mkPlan "Calculate 2+2"
            [use_tool_step "calculator" "Perform calculation"; synthesize_step] "pending")
  /\ norm_index (-1) 2 = Some 1%nat
  /\ update_plan_status (-1) "completed"
       (snd (create_plan "Calculate 2+2" (PDict []) init))
     = Ok (mk (Some (mkPlan "Calculate 2+2"
                       [use_tool_step "calculator" "Perform calculation";
                        <["status" := "completed"]> synthesize_step] "pending"))).
Proof.
  split; [vm_compute; reflexivity |]. split; [reflexivity |].
  destruct (update_plan_status_only_status (-1) "completed"
              (snd (create_plan "Calculate 2+2" (PDict []) init))
              (mkPlan "Calculate 2+2"
                 [use_tool_step "calculator" "Perform calculation"; synthesize_step]
                 "pending") 1%nat)
    as (plan' & Hupdate & _); [vm_compute; reflexivity | reflexivity |].
  vm_compute. reflexivity.
Defined.

(** X15.  Of two status writes with the same index, the second one
    alone decides the outcome: the result, a raised [IndexError]
    included, is that of the second write on the original planner. *)
Theorem update_plan_status_last_write_wins (step_index : Z) (s1 s2 : string) (p : t) :
  bind (update_plan_status step_index s1 p) (update_plan_status step_index s2)
  = update_plan_status step_index s2 p.
Proof.
  destruct (current_plan p) as [plan |] eqn:Hplan.
  - destruct (norm_index step_index (length (steps plan))) as [pos |] eqn:Hpos.
    + rewrite (update_plan_status_at _ s1 _ _ _ Hplan Hpos). simpl.
      rewrite (update_plan_status_at step_index s2 (mk (Some (with_status pos s1 plan)))
                 (with_status pos s1 plan) pos eq_refl)
        by now rewrite with_status_length.
      rewrite (update_plan_status_at _ s2 _ _ _ Hplan Hpos).
      do 3 f_equal. unfold with_status. simpl. f_equal.
      rewrite list_alter_alter_eq. apply list_alter_ext; [| reflexivity].
      intros step _. simpl. apply insert_insert_eq.
    + rewrite !(update_plan_status_none _ _ _ _ Hplan Hpos).
      destruct (step_index <? Z.of_nat (length (steps plan))) eqn:Hlt; simpl;
        [reflexivity |].
      now rewrite (update_plan_status_none _ _ _ _ Hplan Hpos), Hlt.
  - rewrite !(update_plan_status_no_plan _ _ _ Hplan). simpl.
    now apply update_plan_status_no_plan.
Qed.

Lemma update_plan_status_spec step_index new_status p plan :
  current_plan p = Some plan ->
  update_plan_status step_index new_status p
  = match norm_index step_index (length (steps plan)) with
    | Some pos => Ok (mk (Some (with_status pos new_status plan)))
    | None =>
        if step_index <? Z.of_nat (length (steps plan)) then Raise IndexError else Ok p
    end.
Proof.
  intros Hplan.
  destruct (norm_index step_index (length (steps plan))) as [pos |] eqn:Hpos.
  - now apply update_plan_status_at.
  - now apply update_plan_status_none.
Qed.

(** X16.  Two status writes that do not address the same step commute:
    done in either order they leave the same plan, or both orders raise
    [IndexError]. *)
Theorem update_plan_status_commute (i j : Z) (s s' : string) (p : t) (plan : Plan) :
  current_plan p = Some plan ->
  (forall pos, norm_index i (length (steps plan)) = Some pos ->
               norm_index j (length (steps plan)) <> Some pos) ->
  bind (update_plan_status i s p) (update_plan_status j s')
  = bind (update_plan_status j s' p) (update_plan_status i s).
Proof.
  intros Hplan Hapart.
  rewrite (update_plan_status_spec i s p plan Hplan).
  rewrite (update_plan_status_spec j s' p plan Hplan).
  destruct (norm_index i (length (steps plan))) as [pi |] eqn:Hi;
    destruct (norm_index j (length (steps plan))) as [pj |] eqn:Hj; simpl.
  - rewrite (update_plan_status_spec j s' (mk (Some (with_status pi s plan)))
               (with_status pi s plan) eq_refl).
    rewrite (update_plan_status_spec i s (mk (Some (with_status pj s' plan)))
               (with_status pj s' plan) eq_refl).
    rewrite !with_status_length, Hi, Hj.
    do 3 f_equal. unfold with_status. simpl. f_equal.
    apply list_alter_alter_ne. intros ->. now apply (Hapart pi).
  - rewrite (update_plan_status_spec j s' (mk (Some (with_status pi s plan)))
               (with_status pi s plan) eq_refl).
    rewrite with_status_length, Hj.
    destruct (j <? Z.of_nat (length (steps plan))); simpl; [reflexivity |].
    now rewrite (update_plan_status_spec i s p plan Hplan), Hi.
  - rewrite (update_plan_status_spec i s (mk (Some (with_status pj s' plan)))
               (with_status pj s' plan) eq_refl).
    rewrite with_status_length, Hi.
    destruct (i <? Z.of_nat (length (steps plan))); simpl; [reflexivity |].
    now rewrite (update_plan_status_spec j s' p plan Hplan), Hj.
  - destruct (i <? Z.of_nat (length (steps plan))) eqn:Hilt;
      destruct (j <? Z.of_nat (length (steps plan))) eqn:Hjlt; simpl;
      rewrite ?(update_plan_status_spec i s p plan Hplan),
        ?(update_plan_status_spec j s' p plan Hplan), ?Hi, ?Hj, ?Hilt, ?Hjlt;
      reflexivity.
Qed.

Lemma update_plan_status_commute_witness :
  current_plan (snd (create_plan "Calculate 2+2" (PDict []) init))
  = Some (fst (create_plan "Calculate 2+2" (PDict []) init))
  /\ bind (update_plan_status 0 "completed"
             (snd (create_plan "Calculate 2+2" (PDict []) init)))
       (update_plan_status (-1) "in_progress")
     = bind (update_plan_status (-1) "in_progress"
               (snd (create_plan "Calculate 2+2" (PDict []) init)))
         (update_plan_status 0 "completed").
Proof.
  split; [reflexivity |].
  apply (update_plan_status_commute 0 (-1) "completed" "in_progress"
           (snd (create_plan "Calculate 2+2" (PDict []) init))
           (fst (create_plan "Calculate 2+2" (PDict []) init)));
    [reflexivity |].
  intros pos Hpos. vm_compute in Hpos. inversion Hpos; subst.
  vm_compute. discriminate.
Defined.

(** *** The next step and completion *)

Lemma fresh_step_pending goal tools step :
  In step (_decompose_goal goal tools) -> step !! "status" = None.
Proof.
  rewrite decompose_goal_by_category. unfold steps_by_category.
  rewrite !in_app_iff, in_map_iff.
  intros [(c & <- & _) | [Hthink | [<- | []]]]; try reflexivity.
  destruct (matched goal); [| destruct Hthink].
  destruct Hthink as [<- | []]. reflexivity.
Qed.

(** X17.  Right after [create_plan] the plan has a first step, that step
    is the next one, and the plan is not complete. *)
Theorem create_plan_starts_pending (goal : string) (tools : PyVal) (p : t) :
  exists first,
    head (steps (fst (create_plan goal tools p))) = Some first
    /\ get_next_step (snd (create_plan goal tools p)) = Some first
    /\ is_plan_complete (snd (create_plan goal tools p)) = false.
Proof.
  unfold create_plan, get_next_step, is_plan_complete. simpl.
  pose proof (fresh_step_pending goal tools) as Hfresh.
  destruct (_decompose_goal goal tools) as [| first rest] eqn:Hsteps.
  - exfalso. rewrite decompose_goal_by_category in Hsteps.
    unfold steps_by_category in Hsteps.
    apply app_eq_nil in Hsteps as [_ Hsteps].
    apply app_eq_nil in Hsteps as [_ Hsteps]. discriminate.
  - exists first. split; [reflexivity |].
    assert (Hstatus : step_status first = "pending").
    { unfold step_status. rewrite (Hfresh first); [reflexivity | now left]. }
    simpl. rewrite Hstatus. split; reflexivity.
Qed.

(** X18.  A complete plan has no next step, and each of its steps has
    the status ["completed"]: a step that failed or is in progress keeps
    the plan incomplete. *)
Theorem is_plan_complete_no_next_step (p : t) :
  is_plan_complete p = true ->
  get_next_step p = None
  /\ exists plan,
       current_plan p = Some plan
       /\ forall step, In step (steps plan) -> step_status step = "completed".
Proof.
  unfold is_plan_complete, get_next_step.
  destruct (current_plan p) as [plan |]; [| discriminate].
  intros Hcomplete.
  assert (Hall : forall step, In step (steps plan) -> step_status step = "completed").
  { intros step Hin. rewrite forallb_forall in Hcomplete.
    apply String.eqb_eq. now apply Hcomplete. }
  split; [| now exists plan].
  destruct (find _ (steps plan)) as [step |] eqn:Hfind; [| reflexivity].
  apply find_some in Hfind as [Hin Hpending].
  rewrite (Hall step Hin) in Hpending. discriminate.
Qed.

Lemma is_plan_complete_no_next_step_witness :
  is_plan_complete
    (mk (Some (mkPlan "g" [<["status" := "completed"]> synthesize_step] "pending")))
  = true
  /\ get_next_step
       (mk (Some (mkPlan "g" [<["status" := "completed"]> synthesize_step] "pending")))
     = None.
Proof.
  split; [reflexivity |].
  apply (is_plan_complete_no_next_step
           (mk (Some (mkPlan "g" [<["status" := "completed"]> synthesize_step]
                        "pending")))).
  reflexivity.
Defined.

Lemma find_first {A} (f : A -> bool) (l : list A) (x : A) :
  find f l = Some x ->
  exists i, l !! i = Some x
            /\ f x = true
            /\ forall j y, (j < i)%nat -> l !! j = Some y -> f y = false.
Proof.
  induction l as [| a rest IH]; simpl; [discriminate |].
  destruct (f a) eqn:Hfa.
  - intros Hfound. inversion Hfound; subst. exists 0%nat.
    split; [reflexivity |]. split; [assumption |]. intros j y Hlt. lia.
  - intros Hfound. destruct (IH Hfound) as (i & Hlookup & Hfx & Hbefore).
    exists (S i). split; [exact Hlookup |]. split; [exact Hfx |].
    intros [| j] y Hlt Hy; simpl in Hy.
    + now inversion Hy; subst.
    + apply (Hbefore j y); [lia | exact Hy].
Qed.

(** X19.  The step that [get_next_step] returns is the first pending
    one: it is pending, and no step before it in the plan is. *)
Theorem get_next_step_first_pending (p : t) (step : Step) :
  get_next_step p = Some step ->
  exists plan i,
    current_plan p = Some plan
    /\ steps plan !! i = Some step
    /\ step_status step = "pending"
    /\ forall j earlier,
         (j < i)%nat -> steps plan !! j = Some earlier ->
         step_status earlier <> "pending".
Proof.
  unfold get_next_step. destruct (current_plan p) as [plan |]; [| discriminate].
  intros Hnext. destruct (find_first _ _ _ Hnext) as (i & Hlookup & Hpending & Hbefore).
  exists plan, i. split; [reflexivity |]. split; [exact Hlookup |].
  split; [now apply String.eqb_eq |].
  intros j earlier Hlt Hearlier Hstatus.
  specialize (Hbefore j earlier Hlt Hearlier).
  rewrite Hstatus in Hbefore. discriminate.
Qed.

Lemma get_next_step_first_pending_witness :
  get_next_step
    (mk (Some (mkPlan "g" [<["status" := "completed"]> think_step; synthesize_step]
                 "pending")))
  = Some synthesize_step
  /\ exists plan i,
       current_plan
         (mk (Some (mkPlan "g" [<["status" := "completed"]> think_step; synthesize_step]
                      "pending"))) = Some plan
       /\ steps plan !! i = Some synthesize_step
       /\ step_status synthesize_step = "pending"
       /\ forall j earlier,
            (j < i)%nat -> steps plan !! j = Some earlier ->
            step_status earlier <> "pending".
Proof.
  split; [reflexivity |].
  apply (get_next_step_first_pending
           (mk (Some (mkPlan "g" [<["status" := "completed"]> think_step; synthesize_step]
                        "pending")))).
  reflexivity.
Defined.

(** *** Marking every step *)

(** A caller's loop [for i in indices: planner.update_plan_status(i, s)]. *)
Fixpoint mark (indices : list Z) (new_status : string) (p : t) : Outcome t :=
  match indices with
  | [] => Ok p
  | i :: rest => bind (update_plan_status i new_status p) (mark rest new_status)
  end.

(** [for i in range(len(steps)): planner.update_plan_status(i, s)]. *)
Definition mark_all (new_status : string) (p : t) : Outcome t :=
  match current_plan p with
  | None => Ok p
  | Some plan => mark (map Z.of_nat (seq 0 (length (steps plan)))) new_status p
  end.

Lemma mark_range new_status (todo : list Step) : forall (done : list Step) goal status,
  mark (map Z.of_nat (seq (length done) (length todo))) new_status
    (mk (Some (mkPlan goal (done ++ todo) status)))
  = Ok (mk (Some (mkPlan goal
                    (done ++ map (fun step => <["status" := new_status]> step) todo)
                    status))).
Proof.
  induction todo as [| step rest IH]; intros done goal status; simpl; [reflexivity |].
  rewrite (update_plan_status_at (Z.of_nat (length done)) new_status
             (mk (Some (mkPlan goal (done ++ step :: rest) status)))
             (mkPlan goal (done ++ step :: rest) status) (length done) eq_refl).
  - simpl. unfold with_status. simpl.
    replace (alter (fun step0 => <["status" := new_status]> step0) (length done)
               (done ++ step :: rest))
      with ((done ++ [<["status" := new_status]> step]) ++ rest).
    + specialize (IH (done ++ [<["status" := new_status]> step]) goal status).
      rewrite length_app in IH. simpl in IH.
      replace (length done + 1)%nat with (S (length done)) in IH by lia.
      rewrite IH. now rewrite <- app_assoc.
    + rewrite <- app_assoc. simpl.
      rewrite alter_app_r_alt by lia.
      now rewrite Nat.sub_diag.
  - simpl. unfold norm_index. rewrite length_app. simpl.
    destruct (Z.leb_spec 0 (Z.of_nat (length done))); [| lia].
    destruct (Z.ltb_spec (Z.of_nat (length done))
                (Z.of_nat (length done + S (length rest)))); [| lia].
    simpl. f_equal. lia.
Qed.

(** X20.  Writing ["completed"] to every index from 0 to the last one
    completes the plan: every write succeeds, [is_plan_complete] then
    holds and there is no next step. *)
Theorem mark_all_completes (p : t) (plan : Plan) :
  current_plan p = Some plan ->
  exists p',
    mark_all "completed" p = Ok p'
    /\ is_plan_complete p' = true
    /\ get_next_step p' = None.
Proof.
  intros Hplan. unfold mark_all. rewrite Hplan.
  destruct p as [current]. simpl in Hplan. subst current.
  destruct plan as [goal steps status]. simpl.
  pose proof (mark_range "completed" steps [] goal status) as Hmark.
  simpl in Hmark. rewrite Hmark. eexists. split; [reflexivity |].
  assert (Hcomplete :
    forallb (fun step => String.eqb (step_status step) "completed")
      (map (fun step => <["status" := "completed"]> step) steps) = true).
  { rewrite forallb_forall. intros step Hin.
    apply in_map_iff in Hin as (step0 & <- & _).
    unfold step_status. now rewrite lookup_insert_eq. }
  unfold is_plan_complete, get_next_step. simpl.
  split; [exact Hcomplete |].
  destruct (find _ _) as [step |] eqn:Hfind; [| reflexivity].
  apply find_some in Hfind as [Hin Hpending].
  rewrite forallb_forall in Hcomplete. specialize (Hcomplete step Hin).
  apply String.eqb_eq in Hcomplete. rewrite Hcomplete in Hpending. discriminate.
Qed.

Lemma mark_all_completes_witness :
  current_plan (snd (create_plan "Calculate 2+2 and save it" (PDict []) init))
  = Some (fst (create_plan "Calculate 2+2 and save it" (PDict []) init))
  /\ exists p',
       mark_all "completed"
         (snd (create_plan "Calculate 2+2 and save it" (PDict []) init)) = Ok p'
       /\ is_plan_complete p' = true
       /\ get_next_step p' = None.
Proof.
  split; [reflexivity |].
  apply (mark_all_completes
           (snd (create_plan "Calculate 2+2 and save it" (PDict []) init))
           (fst (create_plan "Calculate 2+2 and save it" (PDict []) init))).
  reflexivity.
Defined.

(** *** The summary *)

Definition has_description (step : Step) : bool :=
  match step !! "description" with Some _ => true | None => false end.

Lemma summary_lines_raised (steps : list Step) : forall i summary,
  raised (summary_lines i steps summary) = negb (forallb has_description steps).
Proof.
  induction steps as [| step rest IH]; intros i summary; simpl; [reflexivity |].
  unfold summary_line, has_description.
  destruct (step !! "description"); simpl; [apply IH | reflexivity].
Qed.

(** The planners that [create_plan] and successful status writes produce
    from a new one. *)
Inductive Planned : t -> Prop :=
| planned_init : Planned init
| planned_create p goal tools : Planned p -> Planned (snd (create_plan goal tools p))
| planned_update p step_index new_status p' :
    Planned p ->
    update_plan_status step_index new_status p = Ok p' ->
    Planned p'.

Definition described (p : t) : bool :=
  match current_plan p with
  | None => true
  | Some plan => forallb has_description (steps plan)
  end.

Lemma decompose_goal_described goal tools :
  forallb has_description (_decompose_goal goal tools) = true.
Proof.
  rewrite decompose_goal_by_category. unfold steps_by_category.
  rewrite !forallb_app. apply andb_true_intro. split.
  - rewrite forallb_forall. intros step Hin.
    apply in_map_iff in Hin as (c & <- & _). reflexivity.
  - destruct (matched goal); reflexivity.
Qed.

Lemma forallb_alter {A} (f : A -> bool) (g : A -> A) (i : nat) (l : list A) :
  (forall x, f x = true -> f (g x) = true) ->
  forallb f l = true -> forallb f (alter g i l) = true.
Proof.
  intros Hkeep. revert i. induction l as [| x rest IH]; intros i Hall; [reflexivity |].
  simpl in Hall. apply andb_prop in Hall as [Hx Hrest].
  destruct i as [| i]; simpl; apply andb_true_intro; split; auto.
  now apply IH.
Qed.

Lemma planned_described p : Planned p -> described p = true.
Proof.
  induction 1 as [| p goal tools _ _ | p step_index new_status p' _ IH Hupdate].
  - reflexivity.
  - unfold described. simpl. apply decompose_goal_described.
  - unfold described in *. destruct (current_plan p) as [plan |] eqn:Hplan.
    + rewrite (update_plan_status_spec _ _ _ _ Hplan) in Hupdate.
      destruct (norm_index step_index (length (steps plan))) as [pos |].
      * inversion Hupdate; subst. simpl. apply forallb_alter; [| exact IH].
        intros step Hstep. unfold has_description in *.
        now rewrite lookup_insert_ne by discriminate.
      * destruct (step_index <? _); [discriminate |].
        inversion Hupdate; subst. now rewrite Hplan.
    + rewrite (update_plan_status_no_plan _ _ _ Hplan) in Hupdate.
      inversion Hupdate; subst. now rewrite Hplan.
Qed.

(** X21.  [get_plan_summary] raises exactly when a step of the current
    plan has no description, and never on a planner produced by
    [create_plan] and status writes: they leave every description in
    place.  Without a plan it returns the text [No active plan]. *)
Theorem get_plan_summary_raises_iff (p : t) :
  raised (get_plan_summary p) = negb (described p)
  /\ (Planned p -> raised (get_plan_summary p) = false)
  /\ (current_plan p = None -> get_plan_summary p = Ok "No active plan").
Proof.
  assert (Hiff : raised (get_plan_summary p) = negb (described p)).
  { unfold get_plan_summary, described.
    destruct (current_plan p) as [plan |]; [apply summary_lines_raised | reflexivity]. }
  split; [exact Hiff |]. split.
  - intros Hreach. now rewrite Hiff, (planned_described p Hreach).
  - intros Hnone. unfold get_plan_summary. now rewrite Hnone.
Qed.

Lemma get_plan_summary_raises_iff_witness :
  Planned (snd (create_plan "Calculate 2+2" (PDict []) init))
  /\ get_plan_summary (snd (create_plan "Calculate 2+2" (PDict []) init))
     = Ok ("Goal: Calculate 2+2" +:+ nl +:+ nl +:+ "Steps:" +:+ nl
           +:+ "1. [PENDING] Perform calculation" +:+ nl
           +:+ "2. [PENDING] Combine results and provide final answer" +:+ nl)
  /\ raised (get_plan_summary (snd (create_plan "Calculate 2+2" (PDict []) init)))
     = false
  /\ current_plan init = None
  /\ get_plan_summary init = Ok "No active plan".
Proof.
  assert (Hreach : Planned (snd (create_plan "Calculate 2+2" (PDict []) init)))
    by (apply planned_create, planned_init).
  split; [exact Hreach |]. split; [vm_compute; reflexivity |]. split.
  - apply (proj1 (proj2 (get_plan_summary_raises_iff
                           (snd (create_plan "Calculate 2+2" (PDict []) init))))).
    exact Hreach.
  - split; [reflexivity |].
    apply (proj2 (proj2 (get_plan_summary_raises_iff init))). reflexivity.
Defined.

End TaskPlannerLaws.

(** ** tools.py: what the registry lets out *)

Module ToolRegistryLaws.

Import ToolRegistry.

Section WithWorld.
Context {W : Type} `{World W} `{Runtime}.

(** X22.  [execute] raises only on a tool name that cannot be hashed.
    For a string name it always returns: a name that is not registered
    gives the not-found text and runs no tool (the world is untouched); a
    registered tool's value is passed on, and an exception that the tool
    raises comes back as an error text, with the world as the tool left
    it. *)
Theorem execute_contains_failures (tool_name parameters : PyVal) (w : W) :
  raised (fst (execute tool_name parameters w)) = negb (hashable tool_name)
  /\ forall n,
       tool_name = PStr n ->
       if existsb (String.eqb n) get_all_tools then
         match run_tool n parameters w with
         | (Ok result, w') => execute tool_name parameters w = (Ok result, w')
         | (Raise e, w') =>
             execute tool_name parameters w
             = (Ok (PStr ("Error executing " +:+ n +:+ ": " +:+ exn_str e)), w')
         end
       else
         execute tool_name parameters w
         = (Ok (PStr ("Error: Tool '" +:+ n +:+ "' not found")), w).
Proof.
  split.
  - unfold execute.
    destruct tool_name as [| b | z | bits | n | l | kvs]; try reflexivity.
    cbn [hashable negb].
    destruct (existsb (String.eqb n) tool_names); [| reflexivity].
    destruct (run_tool n parameters w) as [[result | e] w']; reflexivity.
  - intros n ->. unfold execute, get_all_tools. cbn [hashable negb].
    destruct (existsb (String.eqb n) tool_names); [| reflexivity].
    destruct (run_tool n parameters w) as [[result | e] w']; reflexivity.
Qed.

End WithWorld.

(** A world in which every registered tool raises. *)
Definition down_world : World nat := {|
  now := fun _ => "2024-01-01T10:00:00";
  run_tool := fun _ _ w => (Raise (PyExn "RuntimeError" "tool is down"), S w)
|}.

Section OnDownWorld.
#[local] Existing Instance down_world.
#[local] Existing Instance Sample.runtime.

Lemma execute_contains_failures_witness :
  execute (PStr "calculator") (PDict []) 0%nat
  = (Ok (PStr "Error executing calculator: tool is down"), 1%nat)
  /\ execute (PStr "teleport") (PDict []) 0%nat
     = (Ok (PStr "Error: Tool 'teleport' not found"), 0%nat)
  /\ raised (fst (execute (PList []) (PDict []) 0%nat)) = true.
Proof.
  pose proof (proj2 (execute_contains_failures (PStr "calculator") (PDict []) 0%nat)
                "calculator" eq_refl) as Hknown.
  pose proof (proj2 (execute_contains_failures (PStr "teleport") (PDict []) 0%nat)
                "teleport" eq_refl) as Hunknown.
  pose proof (proj1 (execute_contains_failures (PList []) (PDict []) 0%nat)) as Hraises.
  simpl in Hknown, Hunknown. split; [exact Hknown |]. split; [exact Hunknown |].
  exact Hraises.
Defined.

End OnDownWorld.

End ToolRegistryLaws.

(** ** agent.py: what every run keeps *)

Module AgenticAILaws.

Import ToolRegistry AgenticAI AgenticAIFacts.

Section WithEnvironment.
Context {W : Type} `{World W} `{Runtime} `{Oracle}.

Lemma decide_next_action_inv k goal plan mem action :
  _decide_next_action k goal plan mem = Ok action ->
  exists context, action = decision (oracle k context).
Proof.
  unfold _decide_next_action, decision.
  destruct (_build_context goal plan mem) as [context | e]; [| discriminate].
  simpl. intros Hdecide. exists context.
  destruct (json_loads (oracle k context)); now inversion Hdecide.
Qed.

(** What holds of every state in which the loop is left, whatever the
    oracle and the tools did. *)
Lemma loop_exit_facts max goal plan (fuel : nat) :
  forall iteration mem w iteration' final_result mem' w',
    loop fuel max goal plan iteration mem w
    = Some (Ok (iteration', final_result, mem', w')) ->
    iteration <= iteration' <= Z.max iteration max
    /\ (exists added,
          Memory.tool_usage mem' = Memory.tool_usage mem ++ added
          /\ Z.of_nat (length added) <= iteration' - iteration)
    /\ ((max <= iteration' /\ final_result = PNone)
        \/ (iteration < iteration' <= max
            /\ exists context,
                 completion (decision (oracle (Z.to_nat (iteration' - 1)) context))
                 = Some final_result)).
Proof.
  induction fuel as [| fuel IH];
    intros iteration mem w iteration' final_result mem' w' Hloop; [discriminate |].
  cbn [loop] in Hloop.
  destruct (Z.ltb_spec iteration max) as [Hlt | Hge].
  2:{ inversion Hloop; subst. split; [lia |].
      split; [exists []; rewrite app_nil_r; simpl; split; [reflexivity | lia] |].
      left. split; [lia | reflexivity]. }
  destruct (_decide_next_action _ goal plan mem) as [action | e] eqn:Hdecide;
    [| discriminate].
  apply decide_next_action_inv in Hdecide as [context ->].
  set (action := decision (oracle (Z.to_nat (iteration + 1 - 1)) context)) in *.
  destruct (subscript action "type") as [type | e] eqn:Htype; [| discriminate].
  destruct (eq_str type "complete") eqn:Hcomplete.
  { destruct (subscript action "result") as [r | e] eqn:Hresult; [| discriminate].
    inversion Hloop; subst. split; [lia |].
    split; [exists []; rewrite app_nil_r; simpl; split; [reflexivity | lia] |].
    right. split; [lia |]. exists context. fold action.
    unfold completion. now rewrite Htype, Hcomplete, Hresult. }
  assert (Hnext : forall mem1 w1 added1,
    Memory.tool_usage mem1 = Memory.tool_usage mem ++ added1 ->
    (length added1 <= 1)%nat ->
    loop fuel max goal plan (iteration + 1) mem1 w1
    = Some (Ok (iteration', final_result, mem', w')) ->
    iteration <= iteration' <= Z.max iteration max
    /\ (exists added,
          Memory.tool_usage mem' = Memory.tool_usage mem ++ added
          /\ Z.of_nat (length added) <= iteration' - iteration)
    /\ ((max <= iteration' /\ final_result = PNone)
        \/ (iteration < iteration' <= max
            /\ exists context,
                 completion (decision (oracle (Z.to_nat (iteration' - 1)) context))
                 = Some final_result))).
  { intros mem1 w1 added1 Hadded1 Hlen1 Hrest.
    apply IH in Hrest as (Hbounds & (added & Hadded & Hlen) & Hexit).
    split; [lia |]. split.
    - exists (added1 ++ added). rewrite Hadded, Hadded1, <- app_assoc.
      split; [reflexivity |]. rewrite length_app. lia.
    - destruct Hexit as [Hguard | [Hrange Hcompletes]]; [now left | right].
      split; [lia | exact Hcompletes]. }
  destruct (eq_str type "use_tool").
  { destruct (subscript action "tool") as [tool_name | e]; [| discriminate].
    destruct (subscript action "input") as [tool_input | e]; [| discriminate].
    destruct (ToolRegistry.execute tool_name tool_input w) as [[tool_result | e] w1];
      [| discriminate].
    eapply Hnext; [| | exact Hloop]; [reflexivity | simpl; lia]. }
  destruct (eq_str type "think").
  { destruct (subscript action "thought") as [thought | e]; [| discriminate].
    apply (Hnext _ _ [] ) in Hloop; [exact Hloop | | simpl; lia].
    now rewrite app_nil_r. }
  apply (Hnext _ _ []) in Hloop; [exact Hloop | | simpl; lia].
  now rewrite app_nil_r.
Qed.

Lemma loop_max_history max goal plan (fuel : nat) :
  forall iteration mem w iteration' final_result mem' w',
    loop fuel max goal plan iteration mem w
    = Some (Ok (iteration', final_result, mem', w')) ->
    Memory.max_history mem' = Memory.max_history mem.
Proof.
  induction fuel as [| fuel IH];
    intros iteration mem w iteration' final_result mem' w' Hloop; [discriminate |].
  cbn [loop] in Hloop.
  destruct (iteration <? max); [| now inversion Hloop].
  destruct (_decide_next_action _ goal plan mem) as [action | e]; [| discriminate].
  destruct (subscript action "type") as [type | e]; [| discriminate].
  destruct (eq_str type "complete").
  { destruct (subscript action "result"); [| discriminate]. now inversion Hloop. }
  destruct (eq_str type "use_tool").
  { destruct (subscript action "tool") as [tool_name | e]; [| discriminate].
    destruct (subscript action "input") as [tool_input | e]; [| discriminate].
    destruct (ToolRegistry.execute tool_name tool_input w) as [[tool_result | e] w1];
      [| discriminate].
    now apply IH in Hloop. }
  destruct (eq_str type "think"); [| now apply IH in Hloop].
  destruct (subscript action "thought") as [thought | e]; [| discriminate].
  now apply IH in Hloop.
Qed.

(** [execute], by the state in which its loop was left. *)
Lemma execute_inv goal a w res a' w' :
  execute goal a w = Some (Ok (res, a', w')) ->
  exists iteration final_result mem1,
    loop (S (Z.to_nat (max_iterations a))) (max_iterations a) goal
      (fst (TaskPlanner.create_plan goal get_tool_descriptions (planner a)))
      0 (with_goal goal a w) w
    = Some (Ok (iteration, final_result, mem1, w'))
    /\ success res = (iteration <? max_iterations a)
    /\ result res = or_exhausted final_result
    /\ iterations res = iteration
    /\ a' = mk (max_iterations a)
              (Memory.add_message (now w') (PStr "assistant")
                 (PStr (py_str (or_exhausted final_result))) mem1)
              (snd (TaskPlanner.create_plan goal get_tool_descriptions (planner a))).
Proof.
  unfold execute, with_goal. cbv zeta. intros Hexecute.
  destruct (loop _ _ _ _ _ _ _) as [[[[[iteration final_result] mem1] w1] | e] |];
    try discriminate.
  match type of Hexecute with
  | context [Memory.get_tools_used ?m] => destruct (Memory.get_tools_used m)
  end; [| discriminate].
  inversion Hexecute; subst. exists iteration, final_result, mem1.
  repeat split; reflexivity.
Qed.

(** X23.  Whatever the oracle replies and the tools do, a run that
    returns has counted between 0 and [max_iterations] passes, reports
    success exactly when the count is below the budget, and with a budget
    that is not negative a run without success has used all of it. *)
Theorem execute_iterations_bounded goal a w res a' w' :
  execute goal a w = Some (Ok (res, a', w')) ->
  0 <= iterations res <= Z.max 0 (max_iterations a)
  /\ success res = (iterations res <? max_iterations a)
  /\ (0 <= max_iterations a -> success res = false ->
      iterations res = max_iterations a).
Proof.
  intros Hexecute.
  destruct (execute_inv _ _ _ _ _ _ Hexecute)
    as (iteration & final_result & mem1 & Hloop & Hsuccess & _ & Hiter & _).
  apply loop_exit_facts in Hloop as (Hbounds & _ & _).
  rewrite Hiter, Hsuccess. split; [lia |]. split; [reflexivity |].
  intros Hbudget Hfailed. apply Z.ltb_ge in Hfailed. lia.
Qed.

(** X24.  A run reports success only after a complete action: the reply
    to the request of the last counted pass was one, and the returned
    result is that action's result (the exhausted text when it is
    [None]). *)
Theorem execute_success_means_complete goal a w res a' w' :
  execute goal a w = Some (Ok (res, a', w')) ->
  success res = true ->
  exists context final_result,
    completion (decision (oracle (Z.to_nat (iterations res - 1)) context))
    = Some final_result
    /\ result res = or_exhausted final_result.
Proof.
  intros Hexecute Hsucceeded.
  destruct (execute_inv _ _ _ _ _ _ Hexecute)
    as (iteration & final_result & mem1 & Hloop & Hsuccess & Hresult & Hiter & _).
  apply loop_exit_facts in Hloop as (_ & _ & [[Hguard _] | [_ [context Hcompletes]]]).
  - rewrite Hsuccess in Hsucceeded. apply Z.ltb_lt in Hsucceeded. lia.
  - exists context, final_result. now rewrite Hiter.
Qed.

(** X25.  A run only appends to the tool log: afterwards it is the old
    log followed by at most one record per counted pass. *)
Theorem execute_tool_log_grows goal a w res a' w' :
  execute goal a w = Some (Ok (res, a', w')) ->
  exists added,
    Memory.tool_usage (memory a') = Memory.tool_usage (memory a) ++ added
    /\ Z.of_nat (length added) <= iterations res.
Proof.
  intros Hexecute.
  destruct (execute_inv _ _ _ _ _ _ Hexecute)
    as (iteration & final_result & mem1 & Hloop & _ & _ & Hiter & ->).
  apply loop_exit_facts in Hloop as (_ & (added & Hadded & Hlen) & _).
  exists added. simpl. rewrite Hadded, Hiter. split; [reflexivity | lia].
Qed.

(** X26.  A run makes the plan of its goal the planner's current plan,
    and [reset] afterwards empties the memory but leaves that plan, the
    budget and the memory bound in place. *)
Theorem reset_keeps_plan goal a w res a' w' :
  execute goal a w = Some (Ok (res, a', w')) ->
  TaskPlanner.current_plan (planner a')
  = Some (TaskPlanner.mkPlan goal
            (TaskPlanner._decompose_goal goal get_tool_descriptions) "pending")
  /\ planner (reset a') = planner a'
  /\ Memory.messages (memory (reset a')) = []
  /\ Memory.tool_usage (memory (reset a')) = []
  /\ Memory.max_history (memory (reset a')) = Memory.max_history (memory a)
  /\ max_iterations (reset a') = max_iterations a.
Proof.
  intros Hexecute.
  destruct (execute_inv _ _ _ _ _ _ Hexecute)
    as (iteration & final_result & mem1 & Hloop & _ & _ & _ & ->).
  apply loop_max_history in Hloop. simpl in *.
  repeat split; try reflexivity. exact Hloop.
Qed.

(** An action that the loop can process: one that keeps it going or a
    complete action with a result. *)
Definition processable (action : PyVal) : bool :=
  keeps_going action
  || match completion action with Some _ => true | None => false end.

Lemma loop_returns max goal plan (fuel : nat) :
  forall iteration mem w,
    well_formed mem = true ->
    (Z.to_nat (max - iteration) < fuel)%nat ->
    (forall k context, processable (decision (oracle k context)) = true) ->
    exists leave, loop fuel max goal plan iteration mem w = Some (Ok leave).
Proof.
  induction fuel as [| fuel IH]; intros iteration mem w Hwf Hfuel Hprocessable; [lia |].
  cbn [loop]. destruct (Z.ltb_spec iteration max); [| eauto].
  destruct (decide_next_action_ok (Z.to_nat (iteration + 1 - 1)) goal plan mem Hwf)
    as (context & _ & Hdecide).
  rewrite Hdecide.
  assert (Hnext : forall mem1 w1,
    well_formed mem1 = true ->
    exists leave, loop fuel max goal plan (iteration + 1) mem1 w1 = Some (Ok leave)).
  { intros mem1 w1 Hwf1. apply IH; [exact Hwf1 | lia | exact Hprocessable]. }
  specialize (Hprocessable (Z.to_nat (iteration + 1 - 1)) context).
  unfold processable, keeps_going, completion in Hprocessable.
  set (action := decision (oracle (Z.to_nat (iteration + 1 - 1)) context)) in *.
  destruct (subscript action "type") as [type | e]; [| discriminate].
  destruct (eq_str type "complete").
  { destruct (subscript action "result") as [r | e]; [eauto | discriminate]. }
  destruct (eq_str type "use_tool").
  { destruct (subscript action "tool") as [tool_name | e]; [| discriminate].
    destruct (subscript action "input") as [tool_input | e]; [| discriminate].
    rewrite orb_false_r in Hprocessable.
    destruct (execute_hashable tool_name tool_input w Hprocessable)
      as (tool_result & w1 & Hexecute).
    rewrite Hexecute. apply Hnext. now apply add_tool_use_well_formed. }
  destruct (eq_str type "think"); [| now apply Hnext].
  destruct (subscript action "thought") as [thought | e]; [| discriminate].
  apply Hnext. now apply add_message_well_formed.
Qed.

(** X27.  On a well-formed store, a run in which every reply is an
    action the loop can process returns: neither an unknown tool nor a
    tool that raises nor a reply that is not JSON aborts it. *)
Theorem execute_returns goal a w :
  well_formed (memory a) = true ->
  (forall k context, processable (decision (oracle k context)) = true) ->
  exists res a' w', execute goal a w = Some (Ok (res, a', w')).
Proof.
  intros Hwf Hprocessable.
  destruct (loop_returns (max_iterations a) goal
              (fst (TaskPlanner.create_plan goal get_tool_descriptions (planner a)))
              (S (Z.to_nat (max_iterations a))) 0 (with_goal goal a w) w)
    as [[[[iteration final_result] mem1] w1] Hloop].
  { now apply add_message_well_formed. }
  { lia. }
  { exact Hprocessable. }
  pose proof Hloop as Hwf1. apply loop_well_formed in Hwf1 as [Hwf1 _];
    [| now apply add_message_well_formed].
  destruct (execute_after_loop goal a w _ _ _ _ Hloop Hwf1) as [used Hexecute].
  eauto.
Qed.

End WithEnvironment.

(** *** Concrete runs *)

(** A world in which every registered tool raises. *)
Definition failing_world : World nat := {|
  now := fun _ => "2024-01-01T10:00:00";
  run_tool := fun _ _ w => (Raise (PyExn "RuntimeError" "tool is down"), S w)
|}.

(** An oracle that asks for a registered tool, then for an unknown one,
    and replies in prose from then on. *)
Definition uses_tools : Oracle := {|
  oracle := fun k _ =>
    match k with
    | O => Sample.write 0
             (PDict [("type", PStr "use_tool"); ("tool", PStr "calculator");
                     ("input", PDict [("expression", PStr "6 * 7")])])
    | S O => Sample.write 0
               (PDict [("type", PStr "use_tool"); ("tool", PStr "teleport");
                       ("input", PDict [])])
    | _ => "The tools do not help, let me think."
    end
|}.

Section ThinkThenComplete.
#[local] Existing Instance still_world.
#[local] Existing Instance Sample.runtime.
#[local] Existing Instance think_then_complete.

Lemma execute_iterations_bounded_witness :
  exists res a' w',
    execute "Calculate 6 * 7" (init 3) 0%nat = Some (Ok (res, a', w'))
    /\ 0 <= iterations res <= Z.max 0 (max_iterations (init 3))
    /\ success res = (iterations res <? max_iterations (init 3)).
Proof.
  destruct execute_think_then_complete_run as [a' Hrun].
  exists (mkResult true (PStr "42") 2 []), a', 0%nat.
  split; [exact Hrun |].
  destruct (execute_iterations_bounded _ _ _ _ _ _ Hrun) as (Hbounds & Hsuccess & _).
  split; assumption.
Defined.

Lemma execute_success_means_complete_witness :
  exists res a' w',
    execute "Calculate 6 * 7" (init 3) 0%nat = Some (Ok (res, a', w'))
    /\ success res = true
    /\ exists context final_result,
         completion (decision (oracle (Z.to_nat (iterations res - 1)) context))
         = Some final_result
         /\ result res = or_exhausted final_result.
Proof.
  destruct execute_think_then_complete_run as [a' Hrun].
  exists (mkResult true (PStr "42") 2 []), a', 0%nat.
  split; [exact Hrun |]. split; [reflexivity |].
  apply (execute_success_means_complete _ _ _ _ _ _ Hrun). reflexivity.
Defined.

Lemma reset_keeps_plan_witness :
  exists res a' w',
    execute "Calculate 6 * 7" (init 3) 0%nat = Some (Ok (res, a', w'))
    /\ TaskPlanner.current_plan (planner (reset a'))
       = Some (TaskPlanner.mkPlan "Calculate 6 * 7"
                 (TaskPlanner._decompose_goal "Calculate 6 * 7" get_tool_descriptions)
                 "pending")
    /\ Memory.messages (memory (reset a')) = [].
Proof.
  destruct execute_think_then_complete_run as [a' Hrun].
  exists (mkResult true (PStr "42") 2 []), a', 0%nat.
  split; [exact Hrun |].
  destruct (reset_keeps_plan _ _ _ _ _ _ Hrun) as (Hplan & Hsame & Hmsgs & _).
  rewrite Hsame. split; assumption.
Defined.

End ThinkThenComplete.

Section UsesTools.
#[local] Existing Instance failing_world.
#[local] Existing Instance Sample.runtime.
#[local] Existing Instance uses_tools.

Lemma uses_tools_processable k context :
  processable (decision (oracle k context)) = true.
Proof. destruct k as [| [| k]]; vm_compute; reflexivity. Qed.

Lemma execute_returns_witness :
  well_formed (memory (init 3)) = true
  /\ exists res a' w', execute "Calculate 6 * 7" (init 3) 0%nat = Some (Ok (res, a', w')).
Proof.
  split; [reflexivity |].
  apply (execute_returns "Calculate 6 * 7" (init 3) 0%nat);
    [reflexivity | exact uses_tools_processable].
Defined.

(** The run with the failing and the unknown tool: three passes, two
    error texts in the tool log. *)
Lemma execute_uses_tools_run :
  exists a',
    execute "Calculate 6 * 7" (init 3) 0%nat
    = Some (Ok (mkResult false (PStr exhausted) 3 [PStr "calculator"; PStr "teleport"],
                a', 1%nat))
    /\ Memory.tool_usage (memory a')
       = [Memory.tool_record "2024-01-01T10:00:00" (PStr "calculator")
            (PDict [("expression", PStr "6 * 7")])
            (PStr "Error executing calculator: tool is down");
          Memory.tool_record "2024-01-01T10:00:00" (PStr "teleport") (PDict [])
            (PStr "Error: Tool 'teleport' not found")].
Proof. eexists. split; vm_compute; reflexivity. Qed.

Lemma execute_tool_log_grows_witness :
  exists res a' w',
    execute "Calculate 6 * 7" (init 3) 0%nat = Some (Ok (res, a', w'))
    /\ exists added,
         Memory.tool_usage (memory a') = Memory.tool_usage (memory (init 3)) ++ added
         /\ Z.of_nat (length added) <= iterations res.
Proof.
  destruct execute_uses_tools_run as (a' & Hrun & _).
  do 3 eexists. split; [exact Hrun |].
  apply (execute_tool_log_grows _ _ _ _ _ _ Hrun).
Defined.

End UsesTools.

End AgenticAILaws.
